(** * NodeWarden: storage layer, lockout guard and request handlers

    A shallow embedding of the TypeScript sources
    ([services/storage], [services/ratelimit], [handlers/accounts],
    [handlers/folders], [handlers/ciphers], [router], [index]) together with
    the properties of the specification that concern them.

    Conventions of the embedding.
    - The Workers KV namespace is one flat finite map from string keys to
      entries; keys are built by string concatenation exactly as in the
      source, so that two key families can only be told apart by their text.
    - A stored text is represented by the datum it encodes: [JSON.parse] is
      taken to invert [JSON.stringify], and an ISO-8601 date text is
      represented by the instant (milliseconds since the epoch) it denotes.
      A text that does not decode at the type the reader expects reads as
      absent.
    - Every asynchronous method is a computation in the monad [M], which
      threads the namespace and emits the KV calls it performs, in order.
    - The clock is explicit: a function that looks at the time, or whose KV
      calls depend on entry expiration, takes the current instant [now] in
      milliseconds.
    - Random identifiers ([generateUUID]) are extra arguments.
    - KV calls do not fail, and a request runs from start to end without
      another request's KV calls in between.

    The handler that creates a cipher, the import handler, and the identity
    and attachment handlers are not part of the embedding; what they do to
    the namespace goes through the service methods embedded here. The
    permanent deletion of a cipher takes the attachment clean-up it calls as
    a parameter. The cipher listing, the update and permanent deletion of a
    cipher, [handlers/sync] and the setup status come after the sample
    data, and their properties in the last part of the file. *)

From Stdlib Require Import ZArith Lia Ascii String DecimalString DecimalPos.
From stdpp Require Import base strings gmap list.

Local Open Scope Z_scope.

(** ** JavaScript values and operators used by the sources *)

Module JS.

(** [s.toLowerCase()] on the ASCII range. *)
Definition lower_ascii (c : ascii) : ascii :=
  let n := nat_of_ascii c in
  if ((65 <=? n) && (n <=? 90))%nat then ascii_of_nat (n + 32) else c.

Fixpoint toLowerCase (s : string) : string :=
  match s with
  | EmptyString => EmptyString
  | String c r => String (lower_ascii c) (toLowerCase r)
  end.

(** Truthiness of [string | undefined]. *)
Definition truthy (o : option string) : bool :=
  match o with
  | Some s => negb (String.eqb s "")
  | None => false
  end.

(** [a || b] on [string | undefined]. *)
Definition or_else (a b : option string) : option string :=
  if truthy a then a else b.

(** [a ?? d] on an optional number. *)
Definition nullish (a : option Z) (d : Z) : Z :=
  match a with Some x => x | None => d end.

(** [n.toString()] for an integer. *)
Definition toString (n : Z) : string := NilZero.string_of_int (Z.to_int n).

Definition is_ws (c : ascii) : bool :=
  let n := nat_of_ascii c in
  ((9 <=? n) && (n <=? 13) || (n =? 32))%nat.

Fixpoint skip_ws (s : string) : string :=
  match s with
  | String c r => if is_ws c then skip_ws r else s
  | EmptyString => EmptyString
  end.

Definition digit_of (c : ascii) : option Z :=
  let n := nat_of_ascii c in
  if ((48 <=? n) && (n <=? 57))%nat then Some (Z.of_nat n - 48) else None.

(** The longest prefix of decimal digits, as a number; [acc] is [None]
    until a first digit is read. *)
Fixpoint digits_prefix (s : string) (acc : option Z) : option Z :=
  match s with
  | String c r =>
      match digit_of c with
      | Some d => digits_prefix r (Some (10 * default 0 acc + d))
      | None => acc
      end
  | EmptyString => acc
  end.

(** [parseInt(s, 10)]; [None] is [NaN]. *)
Definition parseInt (s : string) : option Z :=
  match skip_ws s with
  | String "-" r => Z.opp <$> digits_prefix r None
  | String "+" r => digits_prefix r None
  | t => digits_prefix t None
  end.

(** [s.split(',')[0]] *)
Fixpoint before_comma (s : string) : string :=
  match s with
  | EmptyString => EmptyString
  | String c r => if Ascii.eqb c "," then EmptyString else String c (before_comma r)
  end.

Fixpoint trim_end (s : string) : string :=
  match s with
  | EmptyString => EmptyString
  | String c r =>
      let r' := trim_end r in
      if is_ws c && String.eqb r' "" then EmptyString else String c r'
  end.

(** [s.trim()] *)
Definition trim (s : string) : string := trim_end (skip_ws s).

(** Truthiness of [number | undefined]. *)
Definition truthy_num (o : option Z) : bool :=
  match o with
  | Some n => negb (n =? 0)
  | None => false
  end.

(** [x && p(x)] read as a condition, for [x : number | undefined]. *)
Definition and_then (o : option Z) (p : Z → bool) : bool :=
  match o with
  | Some n => truthy_num o && p n
  | None => false
  end.

(** [Math.ceil(a / b)] for integers [a] and [b > 0]. *)
Definition ceil_div (a b : Z) : Z := - ((- a) / b).

(** [a % b]: the remainder takes the sign of the dividend. *)
Definition rem (a b : Z) : Z := Z.rem a b.

End JS.

(** ** Data model ([types.ts]) *)

(** An ISO-8601 text, represented by its instant in milliseconds. *)
Definition isodate := Z.

(** An encrypted or nested JSON part that the server never looks into. *)
Definition json := string.

Module User.
Record t := mk {
  id : string;
  email : string;
  name : string;
  masterPasswordHash : string;
  key : string;
  privateKey : option string;
  publicKey : option string;
  kdfType : Z;
  kdfIterations : Z;
  kdfMemory : option Z;
  kdfParallelism : option Z;
  securityStamp : string;
  createdAt : isodate;
  updatedAt : isodate;
}.

Definition set_name (v : string) (u : t) : t :=
  mk (id u) (email u) v (masterPasswordHash u) (key u) (privateKey u)
     (publicKey u) (kdfType u) (kdfIterations u) (kdfMemory u)
     (kdfParallelism u) (securityStamp u) (createdAt u) (updatedAt u).

Definition set_key (v : string) (u : t) : t :=
  mk (id u) (email u) (name u) (masterPasswordHash u) v (privateKey u)
     (publicKey u) (kdfType u) (kdfIterations u) (kdfMemory u)
     (kdfParallelism u) (securityStamp u) (createdAt u) (updatedAt u).

Definition set_privateKey (v : option string) (u : t) : t :=
  mk (id u) (email u) (name u) (masterPasswordHash u) (key u) v
     (publicKey u) (kdfType u) (kdfIterations u) (kdfMemory u)
     (kdfParallelism u) (securityStamp u) (createdAt u) (updatedAt u).

Definition set_publicKey (v : option string) (u : t) : t :=
  mk (id u) (email u) (name u) (masterPasswordHash u) (key u) (privateKey u)
     v (kdfType u) (kdfIterations u) (kdfMemory u)
     (kdfParallelism u) (securityStamp u) (createdAt u) (updatedAt u).

Definition set_updatedAt (v : isodate) (u : t) : t :=
  mk (id u) (email u) (name u) (masterPasswordHash u) (key u) (privateKey u)
     (publicKey u) (kdfType u) (kdfIterations u) (kdfMemory u)
     (kdfParallelism u) (securityStamp u) (createdAt u) v.
End User.

Module Cipher.
Record t := mk {
  id : string;
  userId : string;
  type : Z;
  folderId : option string;
  name : string;
  notes : option string;
  favorite : bool;
  login : option json;
  card : option json;
  identity : option json;
  secureNote : option json;
  fields : option json;
  passwordHistory : option json;
  reprompt : Z;
  createdAt : isodate;
  updatedAt : isodate;
  deletedAt : option isodate;
}.

Definition set_folderId (v : option string) (c : t) : t :=
  mk (id c) (userId c) (type c) v (name c) (notes c) (favorite c) (login c)
     (card c) (identity c) (secureNote c) (fields c) (passwordHistory c)
     (reprompt c) (createdAt c) (updatedAt c) (deletedAt c).

Definition set_favorite (v : bool) (c : t) : t :=
  mk (id c) (userId c) (type c) (folderId c) (name c) (notes c) v (login c)
     (card c) (identity c) (secureNote c) (fields c) (passwordHistory c)
     (reprompt c) (createdAt c) (updatedAt c) (deletedAt c).

Definition set_updatedAt (v : isodate) (c : t) : t :=
  mk (id c) (userId c) (type c) (folderId c) (name c) (notes c) (favorite c)
     (login c) (card c) (identity c) (secureNote c) (fields c)
     (passwordHistory c) (reprompt c) (createdAt c) v (deletedAt c).

Definition set_deletedAt (v : option isodate) (c : t) : t :=
  mk (id c) (userId c) (type c) (folderId c) (name c) (notes c) (favorite c)
     (login c) (card c) (identity c) (secureNote c) (fields c)
     (passwordHistory c) (reprompt c) (createdAt c) (updatedAt c) v.
End Cipher.

Module Folder.
Record t := mk {
  id : string;
  userId : string;
  name : string;
  createdAt : isodate;
  updatedAt : isodate;
}.

Definition set_name (v : string) (f : t) : t :=
  mk (id f) (userId f) v (createdAt f) (updatedAt f).

Definition set_updatedAt (v : isodate) (f : t) : t :=
  mk (id f) (userId f) (name f) (createdAt f) v.
End Folder.

Module Attachment.
Record t := mk {
  id : string;
  cipherId : string;
  fileName : string;
  size : Z;
  sizeName : string;
  key : option string;
}.
End Attachment.

(** The record kept per e-mail by the login lockout. *)
Module LoginRecord.
Record t := mk {
  attempts : Z;
  lockedUntil : option Z;
}.
End LoginRecord.

(** ** The KV namespace *)

(** What a stored text encodes. *)
Inductive value :=
| VText (s : string)
| VDate (d : isodate)
| VUser (u : User.t)
| VCipher (c : Cipher.t)
| VFolder (f : Folder.t)
| VAttachment (a : Attachment.t)
| VIds (ids : list string)
| VLogin (r : LoginRecord.t).

(** An entry and the instant (ms) at which the namespace drops it. *)
Record entry := Entry {
  e_value : value;
  e_expiration : option Z;
}.

(** The calls a computation makes, as its observable trace. *)
Inductive event :=
| KvGet (k : string)
| KvPut (k : string) (v : value) (expirationTtl : option Z)
| KvDelete (k : string)
| ConsoleWarn (msg : string).

Definition is_write (e : event) : bool :=
  match e with
  | KvPut _ _ _ | KvDelete _ => true
  | KvGet _ | ConsoleWarn _ => false
  end.

Definition is_kv_call (e : event) : bool :=
  match e with
  | KvGet _ | KvPut _ _ _ | KvDelete _ => true
  | ConsoleWarn _ => false
  end.

Definition is_put_to (key : string) (e : event) : bool :=
  match e with
  | KvPut k _ _ => String.eqb k key
  | _ => false
  end.

(** Number of [put] calls on [key] in a trace. *)
Definition puts_to (key : string) (tr : list event) : nat :=
  length (filter (λ e, is_put_to key e = true) tr).

(** The monad of asynchronous computations over the namespace. *)
Definition M (A : Type) : Type :=
  gmap string entry → A * gmap string entry * list event.

Definition ret {A} (x : A) : M A := λ s, (x, s, []).

Definition bind {A B} (m : M A) (f : A → M B) : M B :=
  λ s, let '(x, s1, t1) := m s in
       let '(y, s2, t2) := f x s1 in
       (y, s2, t1 ++ t2).

Notation "'let*' x ':=' m 'in' k" := (bind m (λ x, k))
  (at level 10, x name, m at level 100, k at level 200).
Notation "m ';;' k" := (bind m (λ _, k))
  (at level 100, k at level 200, right associativity).

Definition result {A} (r : A * gmap string entry * list event) : A := r.1.1.
Definition store_of {A} (r : A * gmap string entry * list event)
  : gmap string entry := r.1.2.
Definition trace_of {A} (r : A * gmap string entry * list event)
  : list event := r.2.

(** An entry is readable until its expiration instant. *)
Definition live (now : Z) (e : entry) : bool :=
  match e_expiration e with
  | None => true
  | Some t => now <? t
  end.

Definition read (now : Z) (s : gmap string entry) (k : string) : option value :=
  match s !! k with
  | Some e => if live now e then Some (e_value e) else None
  | None => None
  end.

(** [kv.get(key)] *)
Definition kv_get (now : Z) (k : string) : M (option value) :=
  λ s, (read now s k, s, [KvGet k]).

(** [kv.put(key, value, { expirationTtl })]; the TTL is in seconds. *)
Definition kv_put (now : Z) (k : string) (v : value) (expirationTtl : option Z)
  : M unit :=
  λ s, (tt, <[k := Entry v ((λ ttl, now + ttl * 1000) <$> expirationTtl)]> s,
        [KvPut k v expirationTtl]).

(** [kv.delete(key)] *)
Definition kv_delete (k : string) : M unit :=
  λ s, (tt, delete k s, [KvDelete k]).

(** [data ? ... : ...]: a stored text is falsy only when it is empty. *)
Definition nonempty (data : option value) : option value :=
  match data with
  | Some (VText "") => None
  | d => d
  end.

Definition as_text (v : value) : option string :=
  match v with VText s => Some s | _ => None end.
Definition as_date (v : value) : option isodate :=
  match v with VDate d => Some d | _ => None end.
Definition as_user (v : value) : option User.t :=
  match v with VUser u => Some u | _ => None end.
Definition as_cipher (v : value) : option Cipher.t :=
  match v with VCipher c => Some c | _ => None end.
Definition as_folder (v : value) : option Folder.t :=
  match v with VFolder f => Some f | _ => None end.
Definition as_attachment (v : value) : option Attachment.t :=
  match v with VAttachment a => Some a | _ => None end.
Definition as_ids (v : value) : option (list string) :=
  match v with VIds l => Some l | _ => None end.
Definition as_login (v : value) : option LoginRecord.t :=
  match v with VLogin r => Some r | _ => None end.

(** [ids.includes(id)] *)
Definition includes (ids : list string) (id : string) : bool :=
  bool_decide (id ∈ ids).

(** [ids.filter(x => x !== id)] *)
Definition without (id : string) (ids : list string) : list string :=
  filter (λ x, x ≠ id) ids.

(** ** [services/storage.ts]: class [StorageService] *)

Module Storage.

Definition CONFIG_REGISTERED : string := "config:registered".
Definition USER_PREFIX : string := "user:".
Definition CIPHER_PREFIX : string := "cipher:".
Definition FOLDER_PREFIX : string := "folder:".
Definition ATTACHMENT_PREFIX : string := "attachment:".
Definition CIPHERS_INDEX : string := "index:ciphers".
Definition FOLDERS_INDEX : string := "index:folders".
Definition ATTACHMENTS_INDEX : string := "index:attachments".
Definition REFRESH_TOKEN_PREFIX : string := "refresh:".
Definition REVISION_DATE_PREFIX : string := "revision:".

Definition user_key (email : string) : string :=
  USER_PREFIX +:+ JS.toLowerCase email.
Definition userid_key (id : string) : string := "userid:" +:+ id.
Definition cipher_key (id : string) : string := CIPHER_PREFIX +:+ id.
Definition folder_key (id : string) : string := FOLDER_PREFIX +:+ id.
Definition attachment_key (id : string) : string := ATTACHMENT_PREFIX +:+ id.
Definition ciphers_index_key (userId : string) : string :=
  CIPHERS_INDEX +:+ ":" +:+ userId.
Definition folders_index_key (userId : string) : string :=
  FOLDERS_INDEX +:+ ":" +:+ userId.
Definition attachments_index_key (cipherId : string) : string :=
  ATTACHMENTS_INDEX +:+ ":" +:+ cipherId.
Definition refresh_key (token : string) : string :=
  REFRESH_TOKEN_PREFIX +:+ token.
Definition revision_key (userId : string) : string :=
  REVISION_DATE_PREFIX +:+ userId.

(* Registration status *)

Definition isRegistered (now : Z) : M bool :=
  let* value := kv_get now CONFIG_REGISTERED in
  ret (match value ≫= as_text with
       | Some s => String.eqb s "true"
       | None => false
       end).

Definition setRegistered (now : Z) : M unit :=
  kv_put now CONFIG_REGISTERED (VText "true") None.

(* User operations *)

Definition getUser (now : Z) (email : string) : M (option User.t) :=
  let* data := kv_get now (user_key email) in
  ret (nonempty data ≫= as_user).

Definition getUserById (now : Z) (id : string) : M (option User.t) :=
  let* email := kv_get now (userid_key id) in
  match nonempty email ≫= as_text with
  | None => ret None
  | Some email => getUser now email
  end.

Definition saveUser (now : Z) (user : User.t) : M unit :=
  kv_put now (user_key (User.email user)) (VUser user) None ;;
  kv_put now (userid_key (User.id user))
    (VText (JS.toLowerCase (User.email user))) None.

(* Cipher operations *)

Definition getCipher (now : Z) (id : string) : M (option Cipher.t) :=
  let* data := kv_get now (cipher_key id) in
  ret (nonempty data ≫= as_cipher).

Definition getCipherIds (now : Z) (userId : string) : M (list string) :=
  let* data := kv_get now (ciphers_index_key userId) in
  ret (default [] (nonempty data ≫= as_ids)).

Definition saveCipher (now : Z) (cipher : Cipher.t) : M unit :=
  kv_put now (cipher_key (Cipher.id cipher)) (VCipher cipher) None ;;
  let* index := getCipherIds now (Cipher.userId cipher) in
  if includes index (Cipher.id cipher) then ret tt
  else kv_put now (ciphers_index_key (Cipher.userId cipher))
         (VIds (index ++ [Cipher.id cipher])) None.

Definition deleteCipher (now : Z) (id userId : string) : M unit :=
  kv_delete (cipher_key id) ;;
  let* index := getCipherIds now userId in
  let newIndex := without id index in
  kv_put now (ciphers_index_key userId) (VIds newIndex) None.

(** The [for ... of ids] loop of [getAllCiphers]; [ciphers] is the array
    being filled. *)
Fixpoint getAllCiphers_loop (now : Z) (ids : list string)
    (ciphers : list Cipher.t) : M (list Cipher.t) :=
  match ids with
  | [] => ret ciphers
  | id :: rest =>
      let* cipher := getCipher now id in
      getAllCiphers_loop now rest
        (match cipher with Some c => ciphers ++ [c] | None => ciphers end)
  end.

Definition getAllCiphers (now : Z) (userId : string) : M (list Cipher.t) :=
  let* ids := getCipherIds now userId in
  getAllCiphers_loop now ids [].

(* Folder operations *)

Definition getFolder (now : Z) (id : string) : M (option Folder.t) :=
  let* data := kv_get now (folder_key id) in
  ret (nonempty data ≫= as_folder).

Definition getFolderIds (now : Z) (userId : string) : M (list string) :=
  let* data := kv_get now (folders_index_key userId) in
  ret (default [] (nonempty data ≫= as_ids)).

Definition saveFolder (now : Z) (folder : Folder.t) : M unit :=
  kv_put now (folder_key (Folder.id folder)) (VFolder folder) None ;;
  let* index := getFolderIds now (Folder.userId folder) in
  if includes index (Folder.id folder) then ret tt
  else kv_put now (folders_index_key (Folder.userId folder))
         (VIds (index ++ [Folder.id folder])) None.

Definition deleteFolder (now : Z) (id userId : string) : M unit :=
  kv_delete (folder_key id) ;;
  let* index := getFolderIds now userId in
  let newIndex := without id index in
  kv_put now (folders_index_key userId) (VIds newIndex) None.

Fixpoint getAllFolders_loop (now : Z) (ids : list string)
    (folders : list Folder.t) : M (list Folder.t) :=
  match ids with
  | [] => ret folders
  | id :: rest =>
      let* folder := getFolder now id in
      getAllFolders_loop now rest
        (match folder with Some f => folders ++ [f] | None => folders end)
  end.

Definition getAllFolders (now : Z) (userId : string) : M (list Folder.t) :=
  let* ids := getFolderIds now userId in
  getAllFolders_loop now ids [].

(* Refresh token operations *)

Definition saveRefreshToken (now : Z) (token userId : string) : M unit :=
  kv_put now (refresh_key token) (VText userId) (Some (30 * 24 * 60 * 60)).

Definition getRefreshTokenUserId (now : Z) (token : string)
  : M (option string) :=
  let* data := kv_get now (refresh_key token) in
  ret (data ≫= as_text).

Definition deleteRefreshToken (token : string) : M unit :=
  kv_delete (refresh_key token).

(* Revision date operations *)

Definition getRevisionDate (now : Z) (userId : string) : M isodate :=
  let* date := kv_get now (revision_key userId) in
  ret (default now (nonempty date ≫= as_date)).

Definition updateRevisionDate (now : Z) (userId : string) : M isodate :=
  let date := now in
  kv_put now (revision_key userId) (VDate date) None ;;
  ret date.

(* Bulk cipher operations *)

Fixpoint getCiphersByIds_loop (now : Z) (ids : list string) (userId : string)
    (ciphers : list Cipher.t) : M (list Cipher.t) :=
  match ids with
  | [] => ret ciphers
  | id :: rest =>
      let* cipher := getCipher now id in
      getCiphersByIds_loop now rest userId
        (match cipher with
         | Some c =>
             if String.eqb (Cipher.userId c) userId then ciphers ++ [c]
             else ciphers
         | None => ciphers
         end)
  end.

Definition getCiphersByIds (now : Z) (ids : list string) (userId : string)
  : M (list Cipher.t) :=
  getCiphersByIds_loop now ids userId [].

(** The body of the loop of [bulkMoveCiphers]; [stamp] is the [now] text
    taken before the loop. *)
Definition bulkMoveCiphers_body (now : Z) (stamp : isodate)
    (folderId : option string) (userId : string) (id : string) : M unit :=
  let* cipher := getCipher now id in
  match cipher with
  | Some c =>
      if String.eqb (Cipher.userId c) userId then
        saveCipher now
          (Cipher.set_updatedAt stamp (Cipher.set_folderId folderId c))
      else ret tt
  | None => ret tt
  end.

Fixpoint bulkMoveCiphers_loop (now : Z) (stamp : isodate) (ids : list string)
    (folderId : option string) (userId : string) : M unit :=
  match ids with
  | [] => ret tt
  | id :: rest =>
      bulkMoveCiphers_body now stamp folderId userId id ;;
      bulkMoveCiphers_loop now stamp rest folderId userId
  end.

Definition bulkMoveCiphers (now : Z) (ids : list string)
    (folderId : option string) (userId : string) : M unit :=
  let stamp := now in
  bulkMoveCiphers_loop now stamp ids folderId userId ;;
  updateRevisionDate now userId ;;
  ret tt.

(* Attachment operations *)

Definition getAttachment (now : Z) (id : string) : M (option Attachment.t) :=
  let* data := kv_get now (attachment_key id) in
  ret (nonempty data ≫= as_attachment).

Definition saveAttachment (now : Z) (attachment : Attachment.t) : M unit :=
  kv_put now (attachment_key (Attachment.id attachment))
    (VAttachment attachment) None.

Definition deleteAttachment (id : string) : M unit :=
  kv_delete (attachment_key id).

Definition getAttachmentIdsByCipher (now : Z) (cipherId : string)
  : M (list string) :=
  let* data := kv_get now (attachments_index_key cipherId) in
  ret (default [] (nonempty data ≫= as_ids)).

Fixpoint getAttachmentsByCipher_loop (now : Z) (ids : list string)
    (attachments : list Attachment.t) : M (list Attachment.t) :=
  match ids with
  | [] => ret attachments
  | id :: rest =>
      let* attachment := getAttachment now id in
      getAttachmentsByCipher_loop now rest
        (match attachment with
         | Some a => attachments ++ [a]
         | None => attachments
         end)
  end.

Definition getAttachmentsByCipher (now : Z) (cipherId : string)
  : M (list Attachment.t) :=
  let* ids := getAttachmentIdsByCipher now cipherId in
  getAttachmentsByCipher_loop now ids [].

Definition addAttachmentToCipher (now : Z) (cipherId attachmentId : string)
  : M unit :=
  let* ids := getAttachmentIdsByCipher now cipherId in
  if includes ids attachmentId then ret tt
  else kv_put now (attachments_index_key cipherId)
         (VIds (ids ++ [attachmentId])) None.

Definition removeAttachmentFromCipher (now : Z)
    (cipherId attachmentId : string) : M unit :=
  let* ids := getAttachmentIdsByCipher now cipherId in
  let newIds := without attachmentId ids in
  kv_put now (attachments_index_key cipherId) (VIds newIds) None.

Fixpoint deleteAttachments_loop (ids : list string) : M unit :=
  match ids with
  | [] => ret tt
  | id :: rest => deleteAttachment id ;; deleteAttachments_loop rest
  end.

Definition deleteAllAttachmentsByCipher (now : Z) (cipherId : string)
  : M unit :=
  let* ids := getAttachmentIdsByCipher now cipherId in
  deleteAttachments_loop ids ;;
  kv_delete (attachments_index_key cipherId).

Definition updateCipherRevisionDate (now : Z) (cipherId : string) : M unit :=
  let* cipher := getCipher now cipherId in
  match cipher with
  | Some c =>
      let c := Cipher.set_updatedAt now c in
      saveCipher now c ;;
      updateRevisionDate now (Cipher.userId c) ;;
      ret tt
  | None => ret tt
  end.

End Storage.

(** ** [services/ratelimit.ts]: class [RateLimitService] *)

Module LoginCheck.
Record t := mk {
  allowed : bool;
  remainingAttempts : Z;
  retryAfterSeconds : option Z;
}.
End LoginCheck.

Module FailedLogin.
Record t := mk {
  locked : bool;
  retryAfterSeconds : option Z;
}.
End FailedLogin.

Module ApiCheck.
(** [remaining] is [None] when the arithmetic yields [NaN]. *)
Record t := mk {
  allowed : bool;
  remaining : option Z;
  retryAfterSeconds : option Z;
}.
End ApiCheck.

Module RateLimit.

Definition LOGIN_MAX_ATTEMPTS : Z := 5.
Definition LOGIN_LOCKOUT_MINUTES : Z := 15.
Definition API_REQUESTS_PER_MINUTE : Z := 60.
Definition API_WINDOW_SECONDS : Z := 60.

Definition LOGIN_ATTEMPTS : string := "ratelimit:login:".
Definition API_RATE : string := "ratelimit:api:".

Definition login_key (email : string) : string :=
  LOGIN_ATTEMPTS +:+ JS.toLowerCase email.

Definition checkLoginAttempt (now : Z) (email : string) : M LoginCheck.t :=
  let key := login_key email in
  let* data := kv_get now key in
  match nonempty data ≫= as_login with
  | None => ret (LoginCheck.mk true LOGIN_MAX_ATTEMPTS None)
  | Some record =>
      (* Check if currently locked out *)
      if JS.and_then (LoginRecord.lockedUntil record) (λ u, now <? u) then
        let retryAfterSeconds :=
          JS.ceil_div (default 0 (LoginRecord.lockedUntil record) - now) 1000 in
        ret (LoginCheck.mk false 0 (Some retryAfterSeconds))
      (* If lockout expired, reset *)
      else if JS.and_then (LoginRecord.lockedUntil record) (λ u, u <=? now) then
        kv_delete key ;;
        ret (LoginCheck.mk true LOGIN_MAX_ATTEMPTS None)
      else
        let remainingAttempts :=
          LOGIN_MAX_ATTEMPTS - LoginRecord.attempts record in
        ret (LoginCheck.mk true remainingAttempts None)
  end.

Definition recordFailedLogin (now : Z) (email : string) : M FailedLogin.t :=
  let key := login_key email in
  let* data := kv_get now key in
  let record :=
    match nonempty data ≫= as_login with
    | Some r =>
        LoginRecord.mk (LoginRecord.attempts r + 1) (LoginRecord.lockedUntil r)
    | None => LoginRecord.mk 1 None
    end in
  (* Check if should lock out *)
  if LOGIN_MAX_ATTEMPTS <=? LoginRecord.attempts record then
    let record :=
      LoginRecord.mk (LoginRecord.attempts record)
        (Some (now + LOGIN_LOCKOUT_MINUTES * 60 * 1000)) in
    kv_put now key (VLogin record) (Some (LOGIN_LOCKOUT_MINUTES * 60 + 60)) ;;
    ret (FailedLogin.mk true (Some (LOGIN_LOCKOUT_MINUTES * 60)))
  else
    kv_put now key (VLogin record) (Some (LOGIN_LOCKOUT_MINUTES * 60)) ;;
    ret (FailedLogin.mk false None).

Definition clearLoginAttempts (email : string) : M unit :=
  kv_delete (login_key email).

Definition api_key (identifier : string) (windowStart : Z) : string :=
  API_RATE +:+ identifier +:+ ":" +:+ JS.toString windowStart.

(** [countStr ? parseInt(countStr, 10) : 0]; [None] is [NaN]. *)
Definition parse_count (countStr : option value) : option Z :=
  match nonempty countStr ≫= as_text with
  | Some s => JS.parseInt s
  | None => Some 0
  end.

(** [count >= cap], false on [NaN]. *)
Definition at_least (count : option Z) (cap : Z) : bool :=
  match count with
  | Some c => cap <=? c
  | None => false
  end.

Definition checkApiRateLimit (nowMs : Z) (identifier : string)
  : M ApiCheck.t :=
  let now := nowMs / 1000 in
  let windowStart := now - JS.rem now API_WINDOW_SECONDS in
  let key := api_key identifier windowStart in
  let* countStr := kv_get nowMs key in
  let count := parse_count countStr in
  if at_least count API_REQUESTS_PER_MINUTE then
    let retryAfterSeconds :=
      API_WINDOW_SECONDS - JS.rem now API_WINDOW_SECONDS in
    ret (ApiCheck.mk false (Some 0) (Some retryAfterSeconds))
  else
    ret (ApiCheck.mk true ((λ c, API_REQUESTS_PER_MINUTE - c) <$> count) None).

Definition incrementApiCount (nowMs : Z) (identifier : string) : M unit :=
  let now := nowMs / 1000 in
  let windowStart := now - JS.rem now API_WINDOW_SECONDS in
  let key := api_key identifier windowStart in
  let* countStr := kv_get nowMs key in
  let count := parse_count countStr in
  kv_put nowMs key
    (VText (match count with
            | Some c => JS.toString (c + 1)
            | None => "NaN"
            end))
    (Some (API_WINDOW_SECONDS + 10)).

End RateLimit.

(** ** Requests and responses ([utils/response.ts]) *)

Module ProfileResponse.
Record t := mk {
  id : string;
  name : string;
  email : string;
  emailVerified : bool;
  premium : bool;
  premiumFromOrganization : bool;
  usesKeyConnector : bool;
  masterPasswordHint : option string;
  culture : string;
  twoFactorEnabled : bool;
  key : string;
  privateKey : option string;
  securityStamp : string;
  organizations : list json;
  providers : list json;
  providerOrganizations : list json;
  forcePasswordReset : bool;
  avatarColor : option string;
  creationDate : isodate;
  object : string;
}.
End ProfileResponse.

Module FolderResponse.
Record t := mk {
  id : string;
  name : string;
  revisionDate : isodate;
  object : string;
}.
End FolderResponse.

(** The JSON documents the handlers answer with. [CipherJson c as] stands
    for [cipherToResponse(c, as)], a field-by-field copy. *)
Inductive payload :=
| NoBody
| Text (s : string)
| ErrorJson (message : string)
| SuccessJson
| ProfileJson (p : ProfileResponse.t)
| FolderJson (f : FolderResponse.t)
| FolderListJson (l : list FolderResponse.t)
| CipherJson (c : Cipher.t) (attachments : list Attachment.t)
| NumberJson (n : Z)
| RateLimitedJson (retryAfterSeconds : option Z).

Record Response := mkResponse {
  status : Z;
  body : payload;
  headers : list (string * string);
}.

Definition getCorsHeaders : list (string * string) :=
  [("Access-Control-Allow-Origin", "*");
   ("Access-Control-Allow-Methods", "GET, POST, PUT, DELETE, OPTIONS");
   ("Access-Control-Allow-Headers",
    "Content-Type, Authorization, Accept, Device-Type, Bitwarden-Client-Name, Bitwarden-Client-Version");
   ("Access-Control-Max-Age", "86400")].

Definition jsonResponse (data : payload) (status : Z) : Response :=
  mkResponse status data (("Content-Type", "application/json") :: getCorsHeaders).

Definition errorResponse (message : string) (status : Z) : Response :=
  jsonResponse (ErrorJson message) status.

Definition handleCors : Response := mkResponse 204 NoBody getCorsHeaders.

(** [new Response(null, { status })] *)
Definition emptyResponse (status : Z) : Response := mkResponse status NoBody [].

(** The parts of a request that the router itself reads. A handler gets the
    JSON body separately, already read at the shape it declares; [None] is a
    body for which [request.json()] throws. *)
Record Request := mkRequest {
  method : string;
  path : string;
  authorization : option string;
  cfConnectingIp : option string;
  xForwardedFor : option string;
}.

(** [getClientIdentifier] of [services/ratelimit.ts] *)
Definition getClientIdentifier (request : Request) : string :=
  if JS.truthy (cfConnectingIp request) then default "" (cfConnectingIp request)
  else if JS.truthy (xForwardedFor request) then
    JS.trim (JS.before_comma (default "" (xForwardedFor request)))
  else "unknown".

(** ** [handlers/accounts.ts] *)

Module RegisterBody.
Record t := mk {
  email : option string;
  name : option string;
  masterPasswordHash : option string;
  masterPasswordHint : option string;
  key : option string;
  kdf : option Z;
  kdfIterations : option Z;
  kdfMemory : option Z;
  kdfParallelism : option Z;
  publicKey : option string;            (* keys?.publicKey *)
  encryptedPrivateKey : option string;  (* keys?.encryptedPrivateKey *)
}.
End RegisterBody.

Module ProfileBody.
Record t := mk {
  name : option string;
  masterPasswordHint : option string;
}.
End ProfileBody.

Module KeysBody.
Record t := mk {
  key : option string;
  encryptedPrivateKey : option string;
  publicKey : option string;
}.
End KeysBody.

Module PasswordBody.
Record t := mk { masterPasswordHash : option string }.
End PasswordBody.

Module Accounts.

Definition handleRegister (now : Z) (body : option RegisterBody.t)
    (uuid1 uuid2 : string) : M Response :=
  (* Check if already registered *)
  let* isRegistered := Storage.isRegistered now in
  if isRegistered then ret (errorResponse "Registration is closed" 403)
  else
    match body with
    | None => ret (errorResponse "Invalid JSON" 400)
    | Some body =>
        let email := JS.toLowerCase <$> RegisterBody.email body in
        let name := JS.or_else (RegisterBody.name body) email in
        let masterPasswordHash := RegisterBody.masterPasswordHash body in
        let key := RegisterBody.key body in
        let privateKey := RegisterBody.encryptedPrivateKey body in
        let publicKey := RegisterBody.publicKey body in
        if negb (JS.truthy email) || negb (JS.truthy masterPasswordHash)
           || negb (JS.truthy key) then
          ret (errorResponse "Email, masterPasswordHash, and key are required" 400)
        else if negb (JS.truthy privateKey) || negb (JS.truthy publicKey) then
          ret (errorResponse "Private key and public key are required" 400)
        else
          let user :=
            User.mk uuid1 (default "" email)
              (default "" (JS.or_else name email))
              (default "" masterPasswordHash) (default "" key)
              privateKey publicKey
              (JS.nullish (RegisterBody.kdf body) 0)
              (JS.nullish (RegisterBody.kdfIterations body) 600000)
              (RegisterBody.kdfMemory body)
              (RegisterBody.kdfParallelism body)
              uuid2 now now in
          Storage.saveUser now user ;;
          Storage.setRegistered now ;;
          ret (jsonResponse SuccessJson 200)
    end.

Definition profileOf (user : User.t) : ProfileResponse.t :=
  ProfileResponse.mk (User.id user) (User.name user) (User.email user)
    true true false false None "en-US" false
    (User.key user) (User.privateKey user)
    (if JS.truthy (Some (User.securityStamp user)) then User.securityStamp user
     else User.id user)
    [] [] [] false None (User.createdAt user) "profile".

Definition handleGetProfile (now : Z) (userId : string) : M Response :=
  let* user := Storage.getUserById now userId in
  match user with
  | None => ret (errorResponse "User not found" 404)
  | Some user => ret (jsonResponse (ProfileJson (profileOf user)) 200)
  end.

Definition handleUpdateProfile (now : Z) (body : option ProfileBody.t)
    (userId : string) : M Response :=
  let* user := Storage.getUserById now userId in
  match user with
  | None => ret (errorResponse "User not found" 404)
  | Some user =>
      match body with
      | None => ret (errorResponse "Invalid JSON" 400)
      | Some body =>
          let user :=
            if JS.truthy (ProfileBody.name body)
            then User.set_name (default "" (ProfileBody.name body)) user
            else user in
          let user := User.set_updatedAt now user in
          Storage.saveUser now user ;;
          handleGetProfile now userId
      end
  end.

Definition handleSetKeys (now : Z) (body : option KeysBody.t)
    (userId : string) : M Response :=
  let* user := Storage.getUserById now userId in
  match user with
  | None => ret (errorResponse "User not found" 404)
  | Some user =>
      match body with
      | None => ret (errorResponse "Invalid JSON" 400)
      | Some body =>
          let user :=
            if JS.truthy (KeysBody.key body)
            then User.set_key (default "" (KeysBody.key body)) user
            else user in
          let user :=
            if JS.truthy (KeysBody.encryptedPrivateKey body)
            then User.set_privateKey (KeysBody.encryptedPrivateKey body) user
            else user in
          let user :=
            if JS.truthy (KeysBody.publicKey body)
            then User.set_publicKey (KeysBody.publicKey body) user
            else user in
          let user := User.set_updatedAt now user in
          Storage.saveUser now user ;;
          handleGetProfile now userId
      end
  end.

Definition handleGetRevisionDate (now : Z) (userId : string) : M Response :=
  let* revisionDate := Storage.getRevisionDate now userId in
  let timestamp := revisionDate in
  ret (jsonResponse (NumberJson timestamp) 200).

Definition handleVerifyPassword (now : Z) (body : option PasswordBody.t)
    (userId : string) : M Response :=
  let* user := Storage.getUserById now userId in
  match user with
  | None => ret (errorResponse "User not found" 404)
  | Some user =>
      match body with
      | None => ret (errorResponse "Invalid JSON" 400)
      | Some body =>
          if negb (JS.truthy (PasswordBody.masterPasswordHash body)) then
            ret (errorResponse "masterPasswordHash is required" 400)
          else if negb (String.eqb
                          (default "" (PasswordBody.masterPasswordHash body))
                          (User.masterPasswordHash user)) then
            ret (errorResponse "Invalid password" 400)
          else ret (emptyResponse 200)
      end
  end.

End Accounts.

(** ** [handlers/folders.ts] *)

Module FolderBody.
Record t := mk { name : option string }.
End FolderBody.

Module Folders.

Definition folderToResponse (folder : Folder.t) : FolderResponse.t :=
  FolderResponse.mk (Folder.id folder) (Folder.name folder)
    (Folder.updatedAt folder) "folder".

Definition handleGetFolders (now : Z) (userId : string) : M Response :=
  let* folders := Storage.getAllFolders now userId in
  ret (jsonResponse (FolderListJson (folderToResponse <$> folders)) 200).

Definition handleGetFolder (now : Z) (userId id : string) : M Response :=
  let* folder := Storage.getFolder now id in
  match folder with
  | Some folder =>
      if negb (String.eqb (Folder.userId folder) userId)
      then ret (errorResponse "Folder not found" 404)
      else ret (jsonResponse (FolderJson (folderToResponse folder)) 200)
  | None => ret (errorResponse "Folder not found" 404)
  end.

Definition handleCreateFolder (now : Z) (body : option FolderBody.t)
    (userId uuid : string) : M Response :=
  match body with
  | None => ret (errorResponse "Invalid JSON" 400)
  | Some body =>
      if negb (JS.truthy (FolderBody.name body))
      then ret (errorResponse "Name is required" 400)
      else
        let folder :=
          Folder.mk uuid userId (default "" (FolderBody.name body)) now now in
        Storage.saveFolder now folder ;;
        ret (jsonResponse (FolderJson (folderToResponse folder)) 200)
  end.

Definition handleUpdateFolder (now : Z) (body : option FolderBody.t)
    (userId id : string) : M Response :=
  let* folder := Storage.getFolder now id in
  match folder with
  | Some folder =>
      if negb (String.eqb (Folder.userId folder) userId)
      then ret (errorResponse "Folder not found" 404)
      else
        match body with
        | None => ret (errorResponse "Invalid JSON" 400)
        | Some body =>
            let folder :=
              if JS.truthy (FolderBody.name body)
              then Folder.set_name (default "" (FolderBody.name body)) folder
              else folder in
            let folder := Folder.set_updatedAt now folder in
            Storage.saveFolder now folder ;;
            ret (jsonResponse (FolderJson (folderToResponse folder)) 200)
        end
  | None => ret (errorResponse "Folder not found" 404)
  end.

Definition handleDeleteFolder (now : Z) (userId id : string) : M Response :=
  let* folder := Storage.getFolder now id in
  match folder with
  | Some folder =>
      if negb (String.eqb (Folder.userId folder) userId)
      then ret (errorResponse "Folder not found" 404)
      else
        Storage.deleteFolder now id userId ;;
        ret (emptyResponse 204)
  | None => ret (errorResponse "Folder not found" 404)
  end.

End Folders.

(** ** [handlers/ciphers.ts] *)

Module PartialBody.
(** [folderId] is [None] when the member is absent ([undefined]) and
    [Some None] when it is [null]. *)
Record t := mk {
  folderId : option (option string);
  favorite : option bool;
}.
End PartialBody.

Module MoveBody.
(** [ids] is [None] when the member is missing or is not an array. *)
Record t := mk {
  ids : option (list string);
  folderId : option string;
}.
End MoveBody.

Module Ciphers.

(** [!cipher || cipher.userId !== userId] *)
Definition owned (cipher : option Cipher.t) (userId : string)
  : option Cipher.t :=
  match cipher with
  | Some c => if String.eqb (Cipher.userId c) userId then Some c else None
  | None => None
  end.

Definition handleGetCipher (now : Z) (userId id : string) : M Response :=
  let* cipher := Storage.getCipher now id in
  match owned cipher userId with
  | None => ret (errorResponse "Cipher not found" 404)
  | Some cipher =>
      let* attachments := Storage.getAttachmentsByCipher now (Cipher.id cipher) in
      ret (jsonResponse (CipherJson cipher attachments) 200)
  end.

Definition handleDeleteCipher (now : Z) (userId id : string) : M Response :=
  let* cipher := Storage.getCipher now id in
  match owned cipher userId with
  | None => ret (errorResponse "Cipher not found" 404)
  | Some cipher =>
      (* Soft delete *)
      let cipher := Cipher.set_deletedAt (Some now) cipher in
      let cipher := Cipher.set_updatedAt now cipher in
      Storage.saveCipher now cipher ;;
      Storage.updateRevisionDate now userId ;;
      ret (jsonResponse (CipherJson cipher []) 200)
  end.

Definition handleRestoreCipher (now : Z) (userId id : string) : M Response :=
  let* cipher := Storage.getCipher now id in
  match owned cipher userId with
  | None => ret (errorResponse "Cipher not found" 404)
  | Some cipher =>
      let cipher := Cipher.set_deletedAt None cipher in
      let cipher := Cipher.set_updatedAt now cipher in
      Storage.saveCipher now cipher ;;
      Storage.updateRevisionDate now userId ;;
      ret (jsonResponse (CipherJson cipher []) 200)
  end.

Definition handlePartialUpdateCipher (now : Z) (body : option PartialBody.t)
    (userId id : string) : M Response :=
  let* cipher := Storage.getCipher now id in
  match owned cipher userId with
  | None => ret (errorResponse "Cipher not found" 404)
  | Some cipher =>
      match body with
      | None => ret (errorResponse "Invalid JSON" 400)
      | Some body =>
          let cipher :=
            match PartialBody.folderId body with
            | Some folderId => Cipher.set_folderId folderId cipher
            | None => cipher
            end in
          let cipher :=
            match PartialBody.favorite body with
            | Some favorite => Cipher.set_favorite favorite cipher
            | None => cipher
            end in
          let cipher := Cipher.set_updatedAt now cipher in
          Storage.saveCipher now cipher ;;
          Storage.updateRevisionDate now userId ;;
          ret (jsonResponse (CipherJson cipher []) 200)
      end
  end.

Definition handleBulkMoveCiphers (now : Z) (body : option MoveBody.t)
    (userId : string) : M Response :=
  match body with
  | None => ret (errorResponse "Invalid JSON" 400)
  | Some body =>
      match MoveBody.ids body with
      | None => ret (errorResponse "ids array is required" 400)
      | Some ids =>
          Storage.bulkMoveCiphers now ids
            (JS.or_else (MoveBody.folderId body) None) userId ;;
          ret (emptyResponse 204)
      end
  end.

End Ciphers.

(** ** [router.ts] and [index.ts] *)

Definition console_warn (msg : string) : M unit := λ s, (tt, s, [ConsoleWarn msg]).

(** The rate-limit step of [handleRequest]: [None] lets the request through.
    [now] is the instant of the check and [later] that of the increment. *)
Definition apiRateLimitGate (now later : Z) (request : Request)
    (userId : string) : M (option Response) :=
  let clientId := getClientIdentifier request in
  let* rateLimitCheck :=
    RateLimit.checkApiRateLimit now (userId +:+ ":" +:+ clientId) in
  if negb (ApiCheck.allowed rateLimitCheck) then
    ret (Some (mkResponse 429
                 (RateLimitedJson (ApiCheck.retryAfterSeconds rateLimitCheck))
                 [("Content-Type", "application/json");
                  ("Retry-After",
                   JS.toString
                     (default 0 (ApiCheck.retryAfterSeconds rateLimitCheck)));
                  ("X-RateLimit-Remaining", "0")]))
  else
    (* Increment rate limit counter *)
    RateLimit.incrementApiCount later (userId +:+ ":" +:+ clientId) ;;
    ret None.

Record Env := mkEnv {
  JWT_SECRET : option string;
}.

Section Router.

(** The route tables and the token check live in modules that stay outside
    this development; the router is stated over them.
    - [publicRoutes]: the routes tried before authentication, [None] when no
      such route matches;
    - [verifyAccessToken]: [AuthService.verifyAccessToken], giving the
      subject of a valid token;
    - [privateRoutes]: the routes tried after the rate-limit step, down to
      the final 404. *)
Variable publicRoutes : Z → Request → Env → option (M Response).
Variable verifyAccessToken : Z → Env → option string → M (option string).
Variable privateRoutes : Z → Request → Env → string → M Response.

Definition handleRequest (now : Z) (request : Request) (env : Env)
  : M Response :=
  (* Handle CORS preflight *)
  if String.eqb (method request) "OPTIONS" then ret handleCors
  else
    match publicRoutes now request env with
    | Some handler => handler
    | None =>
        (* All other API endpoints require authentication *)
        let* payload := verifyAccessToken now env (authorization request) in
        match payload with
        | None => ret (errorResponse "Unauthorized" 401)
        | Some userId =>
            (* API rate limiting for authenticated requests *)
            let* limited := apiRateLimitGate now now request userId in
            match limited with
            | Some response => ret response
            | None => privateRoutes now request env userId
            end
        end
    end.

(** [fetch] of [index.ts] *)
Definition fetch (now : Z) (request : Request) (env : Env) : M Response :=
  (* Security check: JWT_SECRET must be set *)
  if negb (JS.truthy (JWT_SECRET env)) then
    ret (mkResponse 500
           (Text "Server configuration error: JWT_SECRET is not set") [])
  else
    (* Security check: warn if JWT_SECRET is too weak *)
    (if (String.length (default "" (JWT_SECRET env)) <? 32)%nat then
       console_warn
         "[SECURITY WARNING] JWT_SECRET should be at least 32 characters for adequate security"
     else ret tt) ;;
    handleRequest now request env.

End Router.

(** ** Notions used to state the properties *)

(** The computation leaves the entry under [k] as it found it. *)
Definition keeps {A} (k : string) (m : M A) : Prop :=
  ∀ s, store_of (m s) !! k = s !! k.

(** The computation only reads: same namespace, no [put], no [delete]. *)
Definition read_only {A} (m : M A) : Prop :=
  ∀ s, store_of (m s) = s ∧ Forall (λ e, is_write e = false) (trace_of (m s)).

(** The computation never calls [put] on [k]. *)
Definition never_puts {A} (k : string) (m : M A) : Prop :=
  ∀ s, puts_to k (trace_of (m s)) = 0%nat.

(** The cipher, folder and index a reader sees in namespace [s] at [now]. *)
Definition cipher_at (now : Z) (s : gmap string entry) (id : string)
  : option Cipher.t :=
  result (Storage.getCipher now id s).

Definition folder_at (now : Z) (s : gmap string entry) (id : string)
  : option Folder.t :=
  result (Storage.getFolder now id s).

Definition cipher_ids_at (now : Z) (s : gmap string entry) (userId : string)
  : list string :=
  result (Storage.getCipherIds now userId s).

Definition folder_ids_at (now : Z) (s : gmap string entry) (userId : string)
  : list string :=
  result (Storage.getFolderIds now userId s).

(** The revision stamp as stored, if any. *)
Definition stored_revision (now : Z) (s : gmap string entry) (userId : string)
  : option isodate :=
  nonempty (read now s (Storage.revision_key userId)) ≫= as_date.

(** The cipher readable under [id], if any, carries that id, as every record
    written by [saveCipher] does. *)
Definition filed (now : Z) (s : gmap string entry) (id : string) : bool :=
  match cipher_at now s id with
  | Some c => String.eqb (Cipher.id c) id
  | None => true
  end.

(** What [bulkMoveCiphers] does to one cipher. *)
Definition moved (stamp : isodate) (folderId : option string) (c : Cipher.t)
  : Cipher.t :=
  Cipher.set_updatedAt stamp (Cipher.set_folderId folderId c).

(** The attempt record a reader sees for [email] at [now], if any. *)
Definition login_record_at (now : Z) (s : gmap string entry) (email : string)
  : option LoginRecord.t :=
  nonempty (read now s (RateLimit.login_key email)) ≫= as_login.

(** The record of [email] carries a lock whose end has been reached. *)
Definition lock_expired (now : Z) (s : gmap string entry) (email : string)
  : bool :=
  match login_record_at now s email with
  | Some r => JS.and_then (LoginRecord.lockedUntil r) (λ u, u <=? now)
  | None => false
  end.

(** The entry of [email], if there is one, holds a count of at most [n]
    failures and no lock. *)
Definition open_with (n : Z) (s : gmap string entry) (email : string) : Prop :=
  match s !! RateLimit.login_key email with
  | None => True
  | Some e => ∃ a, e_value e = VLogin (LoginRecord.mk a None) ∧ a ≤ n
  end.

(** The [put] and [delete] calls of a trace. *)
Definition writes (tr : list event) : list event :=
  filter (λ e, is_write e = true) tr.

(** Successive failed logins for one e-mail, at the given instants. *)
Fixpoint failures (times : list Z) (email : string) : M unit :=
  match times with
  | [] => ret tt
  | t :: rest => RateLimit.recordFailedLogin t email ;; failures rest email
  end.

(** Each instant of the list comes less than [ttl] milliseconds after the
    one before it. *)
Fixpoint spaced (ttl : Z) (times : list Z) : bool :=
  match times with
  | t1 :: (t2 :: _) as rest => (t2 <? t1 + ttl) && spaced ttl rest
  | _ => true
  end.

(** Successive authenticated requests of one user and client, as the
    router serves them: the rate-limit step, then, when it lets the request
    through, the handler the request is routed to. Each request comes with
    the instant of its check, that of its increment, and its handler. The
    result tells, per request, whether it was let through. *)
Fixpoint gate_run (requests : list (Z * Z * M unit)) (request : Request)
    (userId : string) : M (list bool) :=
  match requests with
  | [] => ret []
  | (t, t', handler) :: rest =>
      let* limited := apiRateLimitGate t t' request userId in
      match limited with None => handler | Some _ => ret tt end ;;
      let* others := gate_run rest request userId in
      ret (match limited with None => true | Some _ => false end :: others)
  end.

(** The instant [t] (ms) falls in the 60-second window starting at second
    [w]. *)
Definition in_window (w t : Z) : Prop := w * 1000 ≤ t < (w + 60) * 1000.

(** Every read of the counter of [identifier] for the window starting at
    second [w], made within that window, sees the count [k]. *)
Definition counted (w : Z) (identifier : string) (k : Z)
    (s : gmap string entry) : Prop :=
  ∀ t, in_window w t →
    RateLimit.parse_count (read t s (RateLimit.api_key identifier w)) = Some k.

(** The registered flag as [setRegistered] leaves it. *)
Definition registered (s : gmap string entry) : Prop :=
  s !! Storage.CONFIG_REGISTERED = Some (Entry (VText "true") None).

Definition void {A} (m : M A) : M unit := m ;; ret tt.

(** The methods of [StorageService] and [RateLimitService], and the
    handlers of this development, as calls with their arguments. *)
Inductive call :=
| IsRegistered
| SetRegistered
| GetUser (email : string)
| GetUserById (id : string)
| SaveUser (user : User.t)
| GetCipher (id : string)
| SaveCipher (cipher : Cipher.t)
| DeleteCipher (id userId : string)
| GetCipherIds (userId : string)
| GetAllCiphers (userId : string)
| GetFolder (id : string)
| SaveFolder (folder : Folder.t)
| DeleteFolder (id userId : string)
| GetFolderIds (userId : string)
| GetAllFolders (userId : string)
| SaveRefreshToken (token userId : string)
| GetRefreshTokenUserId (token : string)
| DeleteRefreshToken (token : string)
| GetRevisionDate (userId : string)
| UpdateRevisionDate (userId : string)
| GetCiphersByIds (ids : list string) (userId : string)
| BulkMoveCiphers (ids : list string) (folderId : option string) (userId : string)
| GetAttachment (id : string)
| SaveAttachment (attachment : Attachment.t)
| DeleteAttachment (id : string)
| GetAttachmentIdsByCipher (cipherId : string)
| GetAttachmentsByCipher (cipherId : string)
| AddAttachmentToCipher (cipherId attachmentId : string)
| RemoveAttachmentFromCipher (cipherId attachmentId : string)
| DeleteAllAttachmentsByCipher (cipherId : string)
| UpdateCipherRevisionDate (cipherId : string)
| CheckLoginAttempt (email : string)
| RecordFailedLogin (email : string)
| ClearLoginAttempts (email : string)
| CheckApiRateLimit (identifier : string)
| IncrementApiCount (identifier : string)
| HandleRegister (body : option RegisterBody.t) (uuid1 uuid2 : string)
| HandleGetProfile (userId : string)
| HandleUpdateProfile (body : option ProfileBody.t) (userId : string)
| HandleSetKeys (body : option KeysBody.t) (userId : string)
| HandleGetRevisionDate (userId : string)
| HandleVerifyPassword (body : option PasswordBody.t) (userId : string)
| HandleGetFolders (userId : string)
| HandleGetFolder (userId id : string)
| HandleCreateFolder (body : option FolderBody.t) (userId uuid : string)
| HandleUpdateFolder (body : option FolderBody.t) (userId id : string)
| HandleDeleteFolder (userId id : string)
| HandleGetCipher (userId id : string)
| HandleDeleteCipher (userId id : string)
| HandleRestoreCipher (userId id : string)
| HandlePartialUpdateCipher (body : option PartialBody.t) (userId id : string)
| HandleBulkMoveCiphers (body : option MoveBody.t) (userId : string).

Definition perform (now : Z) (c : call) : M unit :=
  match c with
  | IsRegistered => void (Storage.isRegistered now)
  | SetRegistered => Storage.setRegistered now
  | GetUser email => void (Storage.getUser now email)
  | GetUserById id => void (Storage.getUserById now id)
  | SaveUser user => Storage.saveUser now user
  | GetCipher id => void (Storage.getCipher now id)
  | SaveCipher cipher => Storage.saveCipher now cipher
  | DeleteCipher id userId => Storage.deleteCipher now id userId
  | GetCipherIds userId => void (Storage.getCipherIds now userId)
  | GetAllCiphers userId => void (Storage.getAllCiphers now userId)
  | GetFolder id => void (Storage.getFolder now id)
  | SaveFolder folder => Storage.saveFolder now folder
  | DeleteFolder id userId => Storage.deleteFolder now id userId
  | GetFolderIds userId => void (Storage.getFolderIds now userId)
  | GetAllFolders userId => void (Storage.getAllFolders now userId)
  | SaveRefreshToken token userId => Storage.saveRefreshToken now token userId
  | GetRefreshTokenUserId token => void (Storage.getRefreshTokenUserId now token)
  | DeleteRefreshToken token => Storage.deleteRefreshToken token
  | GetRevisionDate userId => void (Storage.getRevisionDate now userId)
  | UpdateRevisionDate userId => void (Storage.updateRevisionDate now userId)
  | GetCiphersByIds ids userId => void (Storage.getCiphersByIds now ids userId)
  | BulkMoveCiphers ids folderId userId =>
      Storage.bulkMoveCiphers now ids folderId userId
  | GetAttachment id => void (Storage.getAttachment now id)
  | SaveAttachment attachment => Storage.saveAttachment now attachment
  | DeleteAttachment id => Storage.deleteAttachment id
  | GetAttachmentIdsByCipher cipherId =>
      void (Storage.getAttachmentIdsByCipher now cipherId)
  | GetAttachmentsByCipher cipherId =>
      void (Storage.getAttachmentsByCipher now cipherId)
  | AddAttachmentToCipher cipherId attachmentId =>
      Storage.addAttachmentToCipher now cipherId attachmentId
  | RemoveAttachmentFromCipher cipherId attachmentId =>
      Storage.removeAttachmentFromCipher now cipherId attachmentId
  | DeleteAllAttachmentsByCipher cipherId =>
      Storage.deleteAllAttachmentsByCipher now cipherId
  | UpdateCipherRevisionDate cipherId =>
      Storage.updateCipherRevisionDate now cipherId
  | CheckLoginAttempt email => void (RateLimit.checkLoginAttempt now email)
  | RecordFailedLogin email => void (RateLimit.recordFailedLogin now email)
  | ClearLoginAttempts email => RateLimit.clearLoginAttempts email
  | CheckApiRateLimit identifier =>
      void (RateLimit.checkApiRateLimit now identifier)
  | IncrementApiCount identifier => RateLimit.incrementApiCount now identifier
  | HandleRegister body uuid1 uuid2 =>
      void (Accounts.handleRegister now body uuid1 uuid2)
  | HandleGetProfile userId => void (Accounts.handleGetProfile now userId)
  | HandleUpdateProfile body userId =>
      void (Accounts.handleUpdateProfile now body userId)
  | HandleSetKeys body userId => void (Accounts.handleSetKeys now body userId)
  | HandleGetRevisionDate userId =>
      void (Accounts.handleGetRevisionDate now userId)
  | HandleVerifyPassword body userId =>
      void (Accounts.handleVerifyPassword now body userId)
  | HandleGetFolders userId => void (Folders.handleGetFolders now userId)
  | HandleGetFolder userId id => void (Folders.handleGetFolder now userId id)
  | HandleCreateFolder body userId uuid =>
      void (Folders.handleCreateFolder now body userId uuid)
  | HandleUpdateFolder body userId id =>
      void (Folders.handleUpdateFolder now body userId id)
  | HandleDeleteFolder userId id =>
      void (Folders.handleDeleteFolder now userId id)
  | HandleGetCipher userId id => void (Ciphers.handleGetCipher now userId id)
  | HandleDeleteCipher userId id =>
      void (Ciphers.handleDeleteCipher now userId id)
  | HandleRestoreCipher userId id =>
      void (Ciphers.handleRestoreCipher now userId id)
  | HandlePartialUpdateCipher body userId id =>
      void (Ciphers.handlePartialUpdateCipher now body userId id)
  | HandleBulkMoveCiphers body userId =>
      void (Ciphers.handleBulkMoveCiphers now body userId)
  end.

(** A history: calls with the instants at which they run. *)
Fixpoint perform_all (history : list (Z * call)) : M unit :=
  match history with
  | [] => ret tt
  | (now, c) :: rest => perform now c ;; perform_all rest
  end.

(** ** Sample data *)

Definition sample_user : User.t :=
  User.mk "u1" "a@example.com" "Old" "hash" "key" (Some "priv") (Some "pub")
    0 600000 None None "stamp" 1000 1000.

Definition sample_folder : Folder.t := Folder.mk "f1" "u1" "Work" 1000 1000.

Definition sample_cipher : Cipher.t :=
  Cipher.mk "c1" "u1" 1 (Some "f1") "site" None false None None None None None
    None 0 1000 1000 None.

Definition other_cipher : Cipher.t :=
  Cipher.mk "c2" "u2" 1 None "theirs" None false None None None None None
    None 0 1000 1000 None.

Definition sample_register_body : RegisterBody.t :=
  RegisterBody.mk (Some "A@Example.com") (Some "Old") (Some "hash") None
    (Some "key") None None None None (Some "pub") (Some "priv").

Definition sample_request : Request :=
  mkRequest "GET" "/api/sync" (Some "Bearer token") (Some "203.0.113.7") None.

(** A namespace with one user, one folder, two ciphers and a revision stamp
    written at instant 1000. *)
Definition sample_store : gmap string entry :=
  <["config:registered" := Entry (VText "true") None]>
  (<["user:a@example.com" := Entry (VUser sample_user) None]>
  (<["userid:u1" := Entry (VText "a@example.com") None]>
  (<["folder:f1" := Entry (VFolder sample_folder) None]>
  (<["index:folders:u1" := Entry (VIds ["f1"]) None]>
  (<["cipher:c1" := Entry (VCipher sample_cipher) None]>
  (<["cipher:c2" := Entry (VCipher other_cipher) None]>
  (<["index:ciphers:u1" := Entry (VIds ["c1"]) None]>
  (<["index:ciphers:u2" := Entry (VIds ["c2"]) None]>
  (<["revision:u1" := Entry (VDate 1000) None]> ∅))))))))).

(** ** Further handlers ([handlers/ciphers.ts], [handlers/sync.ts],
    [handlers/setup.ts]) *)

(** [jsonResponse(data, status)] for the documents that are lists or
    aggregates, kept at their type. A cipher is paired with its attachments,
    as [cipherToResponse(cipher, attachments)] is. *)
Record Reply (A : Type) := mkReply {
  reply_status : Z;
  reply_data : A;
}.
Arguments mkReply {A} _ _.
Arguments reply_status {A} _.
Arguments reply_data {A} _.

Module CipherData.
(** The cipher members of an update body. A member read with [??] is
    [None] when it is [undefined] or [null]; a member tested with
    [!== undefined] is [None] when absent and [Some None] when [null]. *)
Record t := mk {
  type : option Z;
  folderId : option (option string);
  name : option string;
  notes : option (option string);
  favorite : option bool;
  login : option (option json);
  card : option (option json);
  identity : option (option json);
  secureNote : option (option json);
  fields : option (option json);
  passwordHistory : option (option json);
  reprompt : option Z;
}.
End CipherData.

Module UpdateBody.
(** [cipher] is the nested [body.cipher] object, when there is one; [own]
    holds the cipher members of the body itself. *)
Record t := mk {
  cipher : option CipherData.t;
  own : CipherData.t;
}.
End UpdateBody.

Module CipherHandlers.

(** [x !== undefined ? x : old] *)
Definition defined_or {A} (x : option A) (old : A) : A :=
  match x with Some v => v | None => old end.

(** [x ?? old] *)
Definition nullish_or {A} (x : option A) (old : A) : A :=
  match x with Some v => v | None => old end.

(** The cipher built by [handleUpdateCipher] from the stored one. *)
Definition updated (now : Z) (cipherData : CipherData.t)
    (existingCipher : Cipher.t) : Cipher.t :=
  Cipher.mk
    (Cipher.id existingCipher)
    (Cipher.userId existingCipher)
    (nullish_or (CipherData.type cipherData) (Cipher.type existingCipher))
    (defined_or (CipherData.folderId cipherData) (Cipher.folderId existingCipher))
    (nullish_or (CipherData.name cipherData) (Cipher.name existingCipher))
    (defined_or (CipherData.notes cipherData) (Cipher.notes existingCipher))
    (nullish_or (CipherData.favorite cipherData) (Cipher.favorite existingCipher))
    (defined_or (CipherData.login cipherData) (Cipher.login existingCipher))
    (defined_or (CipherData.card cipherData) (Cipher.card existingCipher))
    (defined_or (CipherData.identity cipherData) (Cipher.identity existingCipher))
    (defined_or (CipherData.secureNote cipherData) (Cipher.secureNote existingCipher))
    (defined_or (CipherData.fields cipherData) (Cipher.fields existingCipher))
    (defined_or (CipherData.passwordHistory cipherData)
       (Cipher.passwordHistory existingCipher))
    (nullish_or (CipherData.reprompt cipherData) (Cipher.reprompt existingCipher))
    (Cipher.createdAt existingCipher)
    now
    (Cipher.deletedAt existingCipher).

Definition handleUpdateCipher (now : Z) (body : option UpdateBody.t)
    (userId id : string) : M Response :=
  let* existingCipher := Storage.getCipher now id in
  match Ciphers.owned existingCipher userId with
  | None => ret (errorResponse "Cipher not found" 404)
  | Some existingCipher =>
      match body with
      | None => ret (errorResponse "Invalid JSON" 400)
      | Some body =>
          (* Handle nested cipher object *)
          let cipherData :=
            match UpdateBody.cipher body with
            | Some nested => nested
            | None => UpdateBody.own body
            end in
          let cipher := updated now cipherData existingCipher in
          Storage.saveCipher now cipher ;;
          Storage.updateRevisionDate now userId ;;
          ret (jsonResponse (CipherJson cipher []) 200)
      end
  end.

(** The loop that pairs each cipher with its attachments, in
    [handleGetCiphers] and in [handleSync]. *)
Fixpoint cipherResponses_loop (now : Z) (ciphers : list Cipher.t)
    (cipherResponses : list (Cipher.t * list Attachment.t))
  : M (list (Cipher.t * list Attachment.t)) :=
  match ciphers with
  | [] => ret cipherResponses
  | cipher :: rest =>
      let* attachments :=
        Storage.getAttachmentsByCipher now (Cipher.id cipher) in
      cipherResponses_loop now rest (cipherResponses ++ [(cipher, attachments)])
  end.

(** [deleted] is the [deleted] parameter of the query string. *)
Definition handleGetCiphers (now : Z) (deleted : option string)
    (userId : string) : M (Reply (list (Cipher.t * list Attachment.t))) :=
  let* ciphers := Storage.getAllCiphers now userId in
  (* Filter out soft-deleted ciphers unless specifically requested *)
  let includeDeleted :=
    match deleted with Some v => String.eqb v "true" | None => false end in
  let filteredCiphers :=
    if includeDeleted then ciphers
    else filter (λ c, Cipher.deletedAt c = None) ciphers in
  let* cipherResponses := cipherResponses_loop now filteredCiphers [] in
  ret (mkReply 200 cipherResponses).

Section PermanentDelete.

(** [deleteAllAttachmentsForCipher] of [handlers/attachments.ts], which
    stays outside this development. *)
Variable deleteAllAttachmentsForCipher : Z → string → M unit.

Definition handlePermanentDeleteCipher (now : Z) (userId id : string)
  : M Response :=
  let* cipher := Storage.getCipher now id in
  match Ciphers.owned cipher userId with
  | None => ret (errorResponse "Cipher not found" 404)
  | Some _ =>
      (* Delete all attachments first *)
      deleteAllAttachmentsForCipher now id ;;
      Storage.deleteCipher now id userId ;;
      Storage.updateRevisionDate now userId ;;
      ret (emptyResponse 204)
  end.

End PermanentDelete.

End CipherHandlers.

Module Sync.

(** The answer of [handleSync]: an error, or the aggregate with the
    profile, the folders and the ciphers (the other members are constant
    and empty). *)
Inductive reply :=
| Refused (r : Response)
| SyncJson (profile : ProfileResponse.t) (folders : list FolderResponse.t)
    (ciphers : list (Cipher.t * list Attachment.t)).

Definition handleSync (now : Z) (userId : string) : M reply :=
  let* user := Storage.getUserById now userId in
  match user with
  | None => ret (Refused (errorResponse "User not found" 404))
  | Some user =>
      let* ciphers := Storage.getAllCiphers now userId in
      let* folders := Storage.getAllFolders now userId in
      let profile := Accounts.profileOf user in
      let* cipherResponses :=
        CipherHandlers.cipherResponses_loop now ciphers [] in
      let folderResponses := Folders.folderToResponse <$> folders in
      ret (SyncJson profile folderResponses cipherResponses)
  end.

End Sync.

Module Setup.

(** [GET /setup/status]: the document [{ registered }]. *)
Definition handleSetupStatus (now : Z) : M (Reply bool) :=
  let* registered := Storage.isRegistered now in
  ret (mkReply 200 registered).

End Setup.

(** ** Notions used by the further properties *)

(** The attachment ids and attachments a reader sees for a cipher. *)
Definition attachment_ids_at (now : Z) (s : gmap string entry)
    (cipherId : string) : list string :=
  result (Storage.getAttachmentIdsByCipher now cipherId s).

Definition attachment_at (now : Z) (s : gmap string entry) (id : string)
  : option Attachment.t :=
  result (Storage.getAttachment now id s).

Definition attachments_at (now : Z) (s : gmap string entry)
    (cipherId : string) : list Attachment.t :=
  omap (attachment_at now s) (attachment_ids_at now s cipherId).

(** The user a reader reaches through an id. *)
Definition user_at (now : Z) (s : gmap string entry) (id : string)
  : option User.t :=
  result (Storage.getUserById now id s).

(** The second of the window in which the instant [t] (ms) falls, as the
    rate limiter computes it. *)
Definition window_of (t : Z) : Z := t / 1000 - JS.rem (t / 1000) 60.

(** No colon in a string. *)
Fixpoint colon_free (s : string) : bool :=
  match s with
  | EmptyString => true
  | String c r => negb (Ascii.eqb c ":") && colon_free r
  end.

(** The cipher [handlePartialUpdateCipher] builds. *)
Definition partially_updated (now : Z) (body : PartialBody.t) (c : Cipher.t)
  : Cipher.t :=
  Cipher.set_updatedAt now
    (match PartialBody.favorite body with
     | Some favorite => Cipher.set_favorite favorite
     | None => id
     end
       (match PartialBody.folderId body with
        | Some folderId => Cipher.set_folderId folderId c
        | None => c
        end)).

(** * Properties *)

(** ** Printing and reading integers *)

Lemma digits_prefix_acc d acc :
  JS.digits_prefix (NilEmpty.string_of_uint d) (Some (Z.pos acc))
  = Some (Z.pos (Pos.of_uint_acc d acc)).
Proof.
  revert acc. induction d as [| d IH | d IH | d IH | d IH | d IH | d IH | d IH
                              | d IH | d IH | d IH]; intros acc;
    [reflexivity | ..];
    cbn [NilEmpty.string_of_uint JS.digits_prefix Pos.of_uint_acc];
    (etrans; [| apply IH]); apply (f_equal (JS.digits_prefix _));
    cbn -[Z.mul Z.add Pos.mul Pos.add]; f_equal; cbn [default from_option id]; unfold id;
    try match goal with
        | |- context [Z.of_nat (nat_of_ascii ?c) - 48] =>
            let v := eval vm_compute in (Z.of_nat (nat_of_ascii c) - 48) in
            change (Z.of_nat (nat_of_ascii c) - 48) with v
        end; lia.
Qed.

Lemma digits_prefix_zero d :
  JS.digits_prefix (NilEmpty.string_of_uint d) (Some 0)
  = Some (Z.of_N (Pos.of_uint d)).
Proof.
  induction d as [| d IH | d IH | d IH | d IH | d IH | d IH | d IH
                  | d IH | d IH | d IH];
    [reflexivity | exact IH | ..];
    cbn [NilEmpty.string_of_uint JS.digits_prefix Pos.of_uint Z.of_N];
    (etrans; [| apply digits_prefix_acc]); reflexivity.
Qed.

Lemma digits_prefix_none d :
  d ≠ Decimal.Nil →
  JS.digits_prefix (NilEmpty.string_of_uint d) None
  = Some (Z.of_N (Pos.of_uint d)).
Proof.
  intros Hd. rewrite <- digits_prefix_zero.
  destruct d; [done | reflexivity ..].
Qed.

Lemma parseInt_digits d :
  d ≠ Decimal.Nil →
  JS.parseInt (NilEmpty.string_of_uint d) = Some (Z.of_N (Pos.of_uint d)).
Proof.
  intros Hd. rewrite <- (digits_prefix_none d Hd).
  destruct d; [done | reflexivity ..].
Qed.

Lemma parseInt_minus s :
  JS.parseInt (String "-" s) = Z.opp <$> JS.digits_prefix s None.
Proof. reflexivity. Qed.

Lemma string_of_uint_nonnil d :
  d ≠ Decimal.Nil → NilZero.string_of_uint d = NilEmpty.string_of_uint d.
Proof. by destruct d. Qed.

(** Reading back a printed integer gives the integer. *)
Lemma parseInt_toString n : JS.parseInt (JS.toString n) = Some n.
Proof.
  unfold JS.toString. destruct n as [| p | p]; [reflexivity | |];
    cbn [Z.to_int NilZero.string_of_int];
    rewrite (string_of_uint_nonnil _ (Unsigned.to_uint_nonnil p)).
  - rewrite parseInt_digits by apply Unsigned.to_uint_nonnil.
    by rewrite Unsigned.of_to.
  - rewrite parseInt_minus, digits_prefix_none by apply Unsigned.to_uint_nonnil.
    by rewrite Unsigned.of_to.
Qed.

Lemma toString_nonempty n : JS.toString n ≠ "".
Proof.
  intros H. pose proof (parseInt_toString n) as Hp. rewrite H in Hp.
  discriminate.
Qed.

Lemma nonempty_text e : e ≠ "" → nonempty (Some (VText e)) = Some (VText e).
Proof. by destruct e. Qed.


(** ** The monad and the KV primitives *)

Section MonadFacts.
Context {A B : Type}.

Lemma bind_run (m : M A) (f : A → M B) s :
  bind m f s =
  (result (f (result (m s)) (store_of (m s))),
   store_of (f (result (m s)) (store_of (m s))),
   trace_of (m s) ++ trace_of (f (result (m s)) (store_of (m s)))).
Proof.
  unfold bind, result, store_of, trace_of.
  destruct (m s) as [[x s1] t1]; simpl.
  by destruct (f x s1) as [[y s2] t2].
Qed.

Lemma result_bind (m : M A) (f : A → M B) s :
  result (bind m f s) = result (f (result (m s)) (store_of (m s))).
Proof. by rewrite bind_run. Qed.

Lemma store_bind (m : M A) (f : A → M B) s :
  store_of (bind m f s) = store_of (f (result (m s)) (store_of (m s))).
Proof. by rewrite bind_run. Qed.

Lemma trace_bind (m : M A) (f : A → M B) s :
  trace_of (bind m f s) =
  trace_of (m s) ++ trace_of (f (result (m s)) (store_of (m s))).
Proof. by rewrite bind_run. Qed.

Lemma keeps_bind k (m : M A) (f : A → M B) :
  keeps k m → (∀ x, keeps k (f x)) → keeps k (bind m f).
Proof.
  intros Hm Hf s. rewrite store_bind. by rewrite Hf, Hm.
Qed.

Lemma read_only_bind (m : M A) (f : A → M B) :
  read_only m → (∀ x, read_only (f x)) → read_only (bind m f).
Proof.
  intros Hm Hf s. rewrite store_bind, trace_bind.
  destruct (Hm s) as [Hs Ht]. rewrite Hs.
  destruct (Hf (result (m s)) s) as [Hs' Ht'].
  split; [done | by apply Forall_app].
Qed.

Lemma never_puts_bind k (m : M A) (f : A → M B) :
  never_puts k m → (∀ x, never_puts k (f x)) → never_puts k (bind m f).
Proof.
  unfold never_puts, puts_to. intros Hm Hf s.
  rewrite trace_bind, filter_app, length_app. by rewrite Hm, Hf.
Qed.

End MonadFacts.

Lemma keeps_ret {A} k (x : A) : keeps k (ret x).
Proof. done. Qed.

Lemma keeps_get {A} k now k' (f : option value → M A) :
  (∀ x, keeps k (f x)) → keeps k (bind (kv_get now k') f).
Proof. intros. by apply keeps_bind. Qed.

Lemma keeps_put k now k' v ttl : k' ≠ k → keeps k (kv_put now k' v ttl).
Proof. intros Hne s. unfold kv_put, store_of; simpl. by rewrite lookup_insert_ne. Qed.

Lemma keeps_delete k k' : k' ≠ k → keeps k (kv_delete k').
Proof. intros Hne s. unfold kv_delete, store_of; simpl. by rewrite lookup_delete_ne. Qed.

Lemma keeps_warn k msg : keeps k (console_warn msg).
Proof. done. Qed.

Lemma read_only_ret {A} (x : A) : read_only (ret x).
Proof. intros s. split; [done | constructor]. Qed.

Lemma read_only_get now k : read_only (kv_get now k).
Proof. intros s. split; [done | by repeat constructor]. Qed.

Lemma never_puts_ret {A} k (x : A) : never_puts k (ret x).
Proof. done. Qed.

Lemma never_puts_get k now k' : never_puts k (kv_get now k').
Proof. done. Qed.

Lemma never_puts_delete k k' : never_puts k (kv_delete k').
Proof. done. Qed.

Lemma never_puts_put k now k' v ttl : k' ≠ k → never_puts k (kv_put now k' v ttl).
Proof.
  intros Hne s. unfold puts_to, kv_put, trace_of; simpl.
  rewrite filter_cons_False; [done |].
  simpl. rewrite (proj2 (String.eqb_neq k' k)); [done | exact Hne].
Qed.

Lemma read_only_keeps {A} k (m : M A) : read_only m → keeps k m.
Proof. intros H s. by rewrite (proj1 (H s)). Qed.

Lemma puts_to_app k t1 t2 :
  puts_to k (t1 ++ t2) = (puts_to k t1 + puts_to k t2)%nat.
Proof. unfold puts_to. by rewrite filter_app, length_app. Qed.

(** The key families are told apart by their first characters. *)
Ltac unfold_keys :=
  cbv [Storage.user_key Storage.userid_key Storage.cipher_key
       Storage.folder_key Storage.attachment_key Storage.ciphers_index_key
       Storage.folders_index_key Storage.attachments_index_key
       Storage.refresh_key Storage.revision_key
       Storage.CONFIG_REGISTERED Storage.USER_PREFIX Storage.CIPHER_PREFIX
       Storage.FOLDER_PREFIX Storage.ATTACHMENT_PREFIX Storage.CIPHERS_INDEX
       Storage.FOLDERS_INDEX Storage.ATTACHMENTS_INDEX
       Storage.REFRESH_TOKEN_PREFIX Storage.REVISION_DATE_PREFIX
       RateLimit.login_key RateLimit.api_key RateLimit.LOGIN_ATTEMPTS
       RateLimit.API_RATE String.append] in *.

Ltac key_neq :=
  let H := fresh "Hkey" in
  intros H; unfold_keys; congruence.

Lemma cipher_key_inj a b : Storage.cipher_key a = Storage.cipher_key b → a = b.
Proof. unfold_keys. congruence. Qed.

Lemma folder_key_inj a b : Storage.folder_key a = Storage.folder_key b → a = b.
Proof. unfold_keys. congruence. Qed.

Lemma revision_key_inj a b :
  Storage.revision_key a = Storage.revision_key b → a = b.
Proof. unfold_keys. congruence. Qed.

Create HintDb frame discriminated.

#[local] Hint Resolve keeps_ret keeps_warn read_only_ret read_only_get
  never_puts_ret never_puts_get never_puts_delete : frame.
#[local] Hint Extern 2 (keeps _ (bind _ _)) =>
  (apply keeps_bind; [| intros ?]) : frame.
#[local] Hint Extern 2 (keeps _ (kv_get _ _)) =>
  (apply read_only_keeps, read_only_get) : frame.
#[local] Hint Extern 2 (keeps _ (kv_put _ _ _ _)) =>
  (apply keeps_put; key_neq) : frame.
#[local] Hint Extern 2 (keeps _ (kv_delete _)) =>
  (apply keeps_delete; key_neq) : frame.
#[local] Hint Extern 2 (read_only (bind _ _)) =>
  (apply read_only_bind; [| intros ?]) : frame.
#[local] Hint Extern 2 (never_puts _ (bind _ _)) =>
  (apply never_puts_bind; [| intros ?]) : frame.
#[local] Hint Extern 2 (never_puts _ (kv_put _ _ _ _)) =>
  (apply never_puts_put; key_neq) : frame.
#[local] Hint Extern 3 (keeps _ (match ?x with _ => _ end)) =>
  destruct x : frame.
#[local] Hint Extern 3 (read_only (match ?x with _ => _ end)) =>
  destruct x : frame.
#[local] Hint Extern 3 (never_puts _ (match ?x with _ => _ end)) =>
  destruct x : frame.

(** ** Reads of the storage service *)

Lemma getCipher_read_only now id : read_only (Storage.getCipher now id).
Proof. unfold Storage.getCipher. auto with frame. Qed.

Lemma getFolder_read_only now id : read_only (Storage.getFolder now id).
Proof. unfold Storage.getFolder. auto with frame. Qed.

Lemma getCipherIds_read_only now u : read_only (Storage.getCipherIds now u).
Proof. unfold Storage.getCipherIds. auto with frame. Qed.

Lemma getFolderIds_read_only now u : read_only (Storage.getFolderIds now u).
Proof. unfold Storage.getFolderIds. auto with frame. Qed.

Lemma getCipher_run now id s :
  Storage.getCipher now id s =
  (cipher_at now s id, s, [KvGet (Storage.cipher_key id)]).
Proof. reflexivity. Qed.

Lemma getFolder_run now id s :
  Storage.getFolder now id s =
  (folder_at now s id, s, [KvGet (Storage.folder_key id)]).
Proof. reflexivity. Qed.

Lemma getCipherIds_run now u s :
  Storage.getCipherIds now u s =
  (cipher_ids_at now s u, s, [KvGet (Storage.ciphers_index_key u)]).
Proof. reflexivity. Qed.

Lemma getFolderIds_run now u s :
  Storage.getFolderIds now u s =
  (folder_ids_at now s u, s, [KvGet (Storage.folders_index_key u)]).
Proof. reflexivity. Qed.

(** The loop of [getAllCiphers] appends, in index order, the ciphers that
    are found, and issues one [get] per id. *)
Lemma getAllCiphers_loop_run now ids acc s :
  Storage.getAllCiphers_loop now ids acc s =
  (acc ++ omap (cipher_at now s) ids, s,
   (λ id, KvGet (Storage.cipher_key id)) <$> ids).
Proof.
  revert acc. induction ids as [| id rest IH]; intros acc.
  - simpl. unfold ret. by rewrite app_nil_r.
  - cbn [Storage.getAllCiphers_loop]. rewrite bind_run, getCipher_run.
    unfold result, store_of, trace_of; cbn [fst snd].
    rewrite IH. cbn [fst snd omap list_omap fmap list_fmap app].
    destruct (cipher_at now s id); [| done].
    by rewrite <- app_assoc.
Qed.

Lemma getAllFolders_loop_run now ids acc s :
  Storage.getAllFolders_loop now ids acc s =
  (acc ++ omap (folder_at now s) ids, s,
   (λ id, KvGet (Storage.folder_key id)) <$> ids).
Proof.
  revert acc. induction ids as [| id rest IH]; intros acc.
  - simpl. unfold ret. by rewrite app_nil_r.
  - cbn [Storage.getAllFolders_loop]. rewrite bind_run, getFolder_run.
    unfold result, store_of, trace_of; cbn [fst snd].
    rewrite IH. cbn [fst snd omap list_omap fmap list_fmap app].
    destruct (folder_at now s id); [| done].
    by rewrite <- app_assoc.
Qed.

Lemma getAllCiphers_run now u s :
  Storage.getAllCiphers now u s =
  (omap (cipher_at now s) (cipher_ids_at now s u), s,
   KvGet (Storage.ciphers_index_key u)
   :: ((λ id, KvGet (Storage.cipher_key id)) <$> cipher_ids_at now s u)).
Proof.
  unfold Storage.getAllCiphers. rewrite bind_run, getCipherIds_run.
  unfold result, store_of, trace_of; cbn [fst snd].
  by rewrite getAllCiphers_loop_run.
Qed.

Lemma getAllFolders_run now u s :
  Storage.getAllFolders now u s =
  (omap (folder_at now s) (folder_ids_at now s u), s,
   KvGet (Storage.folders_index_key u)
   :: ((λ id, KvGet (Storage.folder_key id)) <$> folder_ids_at now s u)).
Proof.
  unfold Storage.getAllFolders. rewrite bind_run, getFolderIds_run.
  unfold result, store_of, trace_of; cbn [fst snd].
  by rewrite getAllFolders_loop_run.
Qed.

Lemma gets_are_not_writes {X} (f : X → string) (l : list X) :
  Forall (λ e, is_write e = false) ((λ x, KvGet (f x)) <$> l).
Proof. induction l; by constructor. Qed.


(** ** What the folder operations touch *)

Lemma read_agree now (s s' : gmap string entry) k :
  s' !! k = s !! k → read now s' k = read now s k.
Proof. unfold read. by intros ->. Qed.

Lemma cipher_at_agree now (s s' : gmap string entry) id :
  s' !! Storage.cipher_key id = s !! Storage.cipher_key id →
  cipher_at now s' id = cipher_at now s id.
Proof.
  intros H. unfold cipher_at, Storage.getCipher.
  rewrite !bind_run. unfold kv_get, ret, result, store_of; cbn [fst snd].
  by rewrite (read_agree _ _ _ _ H).
Qed.

Lemma cipher_ids_at_agree now (s s' : gmap string entry) u :
  s' !! Storage.ciphers_index_key u = s !! Storage.ciphers_index_key u →
  cipher_ids_at now s' u = cipher_ids_at now s u.
Proof.
  intros H. unfold cipher_ids_at, Storage.getCipherIds.
  rewrite !bind_run. unfold kv_get, ret, result, store_of; cbn [fst snd].
  by rewrite (read_agree _ _ _ _ H).
Qed.

(** [getAllCiphers] only depends on the cipher records and on the cipher
    index. *)
Lemma getAllCiphers_agree now (s s' : gmap string entry) u :
  (∀ id, s' !! Storage.cipher_key id = s !! Storage.cipher_key id) →
  s' !! Storage.ciphers_index_key u = s !! Storage.ciphers_index_key u →
  result (Storage.getAllCiphers now u s') = result (Storage.getAllCiphers now u s).
Proof.
  intros Hc Hi. rewrite !getAllCiphers_run. unfold result; cbn [fst].
  rewrite (cipher_ids_at_agree _ _ _ _ Hi).
  apply list_omap_ext, Forall2_same_length_lookup_2; [done |].
  intros i x y Hx Hy. assert (x = y) as -> by congruence.
  by apply cipher_at_agree.
Qed.

Ltac frame :=
  unfold Folders.handleCreateFolder, Folders.handleUpdateFolder,
    Folders.handleDeleteFolder, Folders.handleGetFolder,
    Storage.saveFolder, Storage.deleteFolder, Storage.getFolder,
    Storage.getFolderIds, Storage.saveCipher, Storage.deleteCipher,
    Storage.getCipher, Storage.getCipherIds, Storage.updateRevisionDate,
    Storage.saveUser, Storage.getUserById, Storage.getUser,
    Storage.isRegistered, Storage.setRegistered;
  auto 20 with frame.

Lemma saveFolder_keeps k now folder :
  k ≠ Storage.folder_key (Folder.id folder) →
  k ≠ Storage.folders_index_key (Folder.userId folder) →
  keeps k (Storage.saveFolder now folder).
Proof.
  intros H1 H2. unfold Storage.saveFolder, Storage.getFolderIds.
  apply keeps_bind; [by apply keeps_put |]. intros _.
  apply keeps_bind; [auto with frame |]. intros index.
  destruct (includes _ _); [apply keeps_ret | by apply keeps_put].
Qed.

Lemma deleteFolder_keeps k now id userId :
  k ≠ Storage.folder_key id →
  k ≠ Storage.folders_index_key userId →
  keeps k (Storage.deleteFolder now id userId).
Proof.
  intros H1 H2. unfold Storage.deleteFolder, Storage.getFolderIds.
  apply keeps_bind; [by apply keeps_delete |]. intros _.
  apply keeps_bind; [auto with frame |]. intros index.
  by apply keeps_put.
Qed.

Lemma handleDeleteFolder_keeps k now userId id :
  k ≠ Storage.folder_key id →
  k ≠ Storage.folders_index_key userId →
  keeps k (Folders.handleDeleteFolder now userId id).
Proof.
  intros H1 H2. unfold Folders.handleDeleteFolder.
  apply keeps_bind; [apply read_only_keeps, getFolder_read_only |].
  intros [folder |]; [| apply keeps_ret].
  destruct (negb _); [apply keeps_ret |].
  apply keeps_bind; [by apply deleteFolder_keeps | intros; apply keeps_ret].
Qed.

(** What a successful [handleDeleteFolder] answers and leaves behind. *)
Lemma handleDeleteFolder_run now userId id s f :
  folder_at now s id = Some f →
  Folder.userId f = userId →
  Folders.handleDeleteFolder now userId id s =
  (emptyResponse 204,
   <[Storage.folders_index_key userId :=
       Entry (VIds (without id (folder_ids_at now (delete (Storage.folder_key id) s) userId))) None]>
     (delete (Storage.folder_key id) s),
   [KvGet (Storage.folder_key id); KvDelete (Storage.folder_key id);
    KvGet (Storage.folders_index_key userId);
    KvPut (Storage.folders_index_key userId)
      (VIds (without id (folder_ids_at now (delete (Storage.folder_key id) s) userId)))
      None]).
Proof.
  intros Hf Hu. unfold Folders.handleDeleteFolder.
  rewrite bind_run, getFolder_run. unfold result, store_of, trace_of; cbn [fst snd].
  rewrite Hf, Hu, String.eqb_refl. cbn [negb].
  reflexivity.
Qed.

(** C10. Deleting a folder that its user owns answers 204, removes the
    folder, and leaves every cipher entry exactly as it was: [getAllCiphers]
    returns the same records afterwards, so a cipher whose [folderId] names
    the deleted folder is still returned with that [folderId]. *)
Theorem handleDeleteFolder_leaves_ciphers now userId id s f :
  folder_at now s id = Some f →
  Folder.userId f = userId →
  let r := Folders.handleDeleteFolder now userId id s in
  status (result r) = 204 ∧
  folder_at now (store_of r) id = None ∧
  (∀ cid, store_of r !! Storage.cipher_key cid = s !! Storage.cipher_key cid) ∧
  (∀ now' u, result (Storage.getAllCiphers now' u (store_of r)) =
             result (Storage.getAllCiphers now' u s)) ∧
  (∀ now' u c, c ∈ result (Storage.getAllCiphers now' u s) →
               Cipher.folderId c = Some id →
               c ∈ result (Storage.getAllCiphers now' u (store_of r))).
Proof.
  intros Hf Hu r.
  assert (Hc : ∀ cid, store_of r !! Storage.cipher_key cid
                      = s !! Storage.cipher_key cid).
  { intros cid. apply handleDeleteFolder_keeps; key_neq. }
  assert (Hi : ∀ u, store_of r !! Storage.ciphers_index_key u
                    = s !! Storage.ciphers_index_key u).
  { intros u. apply handleDeleteFolder_keeps; key_neq. }
  assert (Hall : ∀ now' u, result (Storage.getAllCiphers now' u (store_of r)) =
                           result (Storage.getAllCiphers now' u s)).
  { intros now' u. by apply getAllCiphers_agree. }
  repeat split; try done.
  - subst r. by rewrite (handleDeleteFolder_run _ _ _ _ _ Hf Hu).
  - subst r. rewrite (handleDeleteFolder_run _ _ _ _ _ Hf Hu).
    unfold store_of; cbn [fst snd].
    unfold folder_at. rewrite getFolder_run. unfold result; cbn [fst].
    unfold folder_at, Storage.getFolder. rewrite bind_run.
    unfold kv_get, ret, result, store_of; cbn [fst snd]. unfold read.
    rewrite lookup_insert_ne by key_neq. by rewrite lookup_delete_eq.
  - intros now' u c Hin _. by rewrite Hall.
Qed.

Lemma handleDeleteFolder_leaves_ciphers_witness :
  let r := Folders.handleDeleteFolder 2000 "u1" "f1" sample_store in
  status (result r) = 204 ∧
  folder_at 2000 (store_of r) "f1" = None ∧
  (∀ cid, store_of r !! Storage.cipher_key cid
          = sample_store !! Storage.cipher_key cid) ∧
  (∀ now' u, result (Storage.getAllCiphers now' u (store_of r)) =
             result (Storage.getAllCiphers now' u sample_store)) ∧
  (∀ now' u c, c ∈ result (Storage.getAllCiphers now' u sample_store) →
               Cipher.folderId c = Some "f1" →
               c ∈ result (Storage.getAllCiphers now' u (store_of r))).
Proof.
  apply (handleDeleteFolder_leaves_ciphers 2000 "u1" "f1" sample_store
           sample_folder); reflexivity.
Defined.

(** After the deletion the sample cipher is still listed, pointing at the
    folder that no longer exists. *)
Example dangling_folderId_after_delete :
  let s' := store_of (Folders.handleDeleteFolder 2000 "u1" "f1" sample_store) in
  result (Storage.getAllCiphers 3000 "u1" s') = [sample_cipher] ∧
  Cipher.folderId sample_cipher = Some "f1" ∧
  result (Storage.getFolder 3000 "f1" s') = None.
Proof. vm_compute. done. Qed.

(** ** The revision stamp *)

Lemma folder_handlers_keep_revision now body userId uuid id u :
  keeps (Storage.revision_key u) (Folders.handleCreateFolder now body userId uuid) ∧
  keeps (Storage.revision_key u) (Folders.handleUpdateFolder now body userId id) ∧
  keeps (Storage.revision_key u) (Folders.handleDeleteFolder now userId id).
Proof. repeat split; frame. Qed.

Lemma folder_handlers_never_put_revision now body userId uuid id u :
  never_puts (Storage.revision_key u) (Folders.handleCreateFolder now body userId uuid) ∧
  never_puts (Storage.revision_key u) (Folders.handleUpdateFolder now body userId id) ∧
  never_puts (Storage.revision_key u) (Folders.handleDeleteFolder now userId id).
Proof. repeat split; frame. Qed.

(** C1 (where the code departs from it). None of the three folder handlers
    updates the revision stamp: whatever the request and the namespace, the
    entry under [revision:<user>] is the same after the call as before, for
    every user, and the call issues no [put] on that key. *)
Theorem folder_handlers_leave_revision_stamp now body userId uuid id u s :
  (let r := Folders.handleCreateFolder now body userId uuid s in
   store_of r !! Storage.revision_key u = s !! Storage.revision_key u ∧
   puts_to (Storage.revision_key u) (trace_of r) = 0%nat) ∧
  (let r := Folders.handleUpdateFolder now body userId id s in
   store_of r !! Storage.revision_key u = s !! Storage.revision_key u ∧
   puts_to (Storage.revision_key u) (trace_of r) = 0%nat) ∧
  (let r := Folders.handleDeleteFolder now userId id s in
   store_of r !! Storage.revision_key u = s !! Storage.revision_key u ∧
   puts_to (Storage.revision_key u) (trace_of r) = 0%nat).
Proof.
  destruct (folder_handlers_keep_revision now body userId uuid id u)
    as (K1 & K2 & K3).
  destruct (folder_handlers_never_put_revision now body userId uuid id u)
    as (N1 & N2 & N3).
  repeat split; cbv zeta; auto.
Qed.

(** The three folder mutations succeed on the sample namespace at instant
    2000 and the stored stamp stays at 1000. *)
Example folder_mutations_keep_stale_stamp :
  let create :=
    Folders.handleCreateFolder 2000 (Some (FolderBody.mk (Some "Home"))) "u1"
      "f2" sample_store in
  let update :=
    Folders.handleUpdateFolder 2000 (Some (FolderBody.mk (Some "Office"))) "u1"
      "f1" sample_store in
  let delete :=
    Folders.handleDeleteFolder 2000 "u1" "f1" sample_store in
  (status (result create) = 200 ∧
   folder_at 2000 (store_of create) "f2" = Some (Folder.mk "f2" "u1" "Home" 2000 2000) ∧
   stored_revision 2000 (store_of create) "u1" = Some 1000) ∧
  (status (result update) = 200 ∧
   folder_at 2000 (store_of update) "f1" = Some (Folder.mk "f1" "u1" "Office" 1000 2000) ∧
   stored_revision 2000 (store_of update) "u1" = Some 1000) ∧
  (status (result delete) = 204 ∧
   folder_at 2000 (store_of delete) "f1" = None ∧
   stored_revision 2000 (store_of delete) "u1" = Some 1000).
Proof. vm_compute. done. Qed.

Lemma updateRevisionDate_run now u s :
  Storage.updateRevisionDate now u s =
  (now, <[Storage.revision_key u := Entry (VDate now) None]> s,
   [KvPut (Storage.revision_key u) (VDate now) None]).
Proof. reflexivity. Qed.

Lemma stored_revision_insert now t u s :
  stored_revision now (<[Storage.revision_key u := Entry (VDate t) None]> s) u
  = Some t.
Proof.
  unfold stored_revision, read.
  by rewrite (lookup_insert_eq s).
Qed.

(** A computation that ends with [updateRevisionDate] leaves the stamp of
    that user at [now]. *)
Lemma ends_with_updateRevisionDate {A B} (m : M A) now u (x : B) s :
  let r := (m ;; Storage.updateRevisionDate now u ;; ret x) s in
  stored_revision now (store_of r) u = Some now ∧
  store_of r !! Storage.revision_key u = Some (Entry (VDate now) None).
Proof.
  cbv zeta. rewrite !store_bind. cbn beta. rewrite updateRevisionDate_run.
  unfold ret, store_of; cbn [fst snd].
  rewrite stored_revision_insert.
  by rewrite (lookup_insert_eq _ (Storage.revision_key u)).
Qed.

(** The cipher mutations, by contrast, set the stamp to the instant of the
    call whenever they go through. *)
Lemma cipher_handlers_update_revision now userId id s c :
  cipher_at now s id = Some c →
  Cipher.userId c = userId →
  stored_revision now (store_of (Ciphers.handleDeleteCipher now userId id s)) userId
    = Some now ∧
  stored_revision now (store_of (Ciphers.handleRestoreCipher now userId id s)) userId
    = Some now ∧
  (∀ body, stored_revision now
     (store_of (Ciphers.handlePartialUpdateCipher now (Some body) userId id s)) userId
    = Some now) ∧
  (∀ ids folderId, stored_revision now
     (store_of (Ciphers.handleBulkMoveCiphers now
                  (Some (MoveBody.mk (Some ids) folderId)) userId s)) userId
    = Some now).
Proof.
  intros Hc Hu.
  assert (Ho : Ciphers.owned (Some c) userId = Some c).
  { unfold Ciphers.owned. by rewrite Hu, String.eqb_refl. }
  repeat split.
  - unfold Ciphers.handleDeleteCipher. rewrite store_bind, getCipher_run.
    unfold result at 1, store_of at 2; cbn [fst snd]. rewrite Hc, Ho.
    apply ends_with_updateRevisionDate.
  - unfold Ciphers.handleRestoreCipher. rewrite store_bind, getCipher_run.
    unfold result at 1, store_of at 2; cbn [fst snd]. rewrite Hc, Ho.
    apply ends_with_updateRevisionDate.
  - intros body. unfold Ciphers.handlePartialUpdateCipher.
    rewrite store_bind, getCipher_run.
    unfold result at 1, store_of at 2; cbn [fst snd]. rewrite Hc, Ho.
    apply ends_with_updateRevisionDate.
  - intros ids folderId. unfold Ciphers.handleBulkMoveCiphers; cbn [MoveBody.ids].
    rewrite store_bind. unfold ret at 1. unfold store_of at 1; cbn [fst snd].
    unfold Storage.bulkMoveCiphers. apply ends_with_updateRevisionDate.
Qed.

Lemma getAllCiphers_loop_read_only now ids acc :
  read_only (Storage.getAllCiphers_loop now ids acc).
Proof.
  intros s. rewrite getAllCiphers_loop_run.
  split; [done | apply gets_are_not_writes].
Qed.

Lemma getAllFolders_loop_read_only now ids acc :
  read_only (Storage.getAllFolders_loop now ids acc).
Proof.
  intros s. rewrite getAllFolders_loop_run.
  split; [done | apply gets_are_not_writes].
Qed.

Lemma getAttachmentsByCipher_loop_read_only now ids acc :
  read_only (Storage.getAttachmentsByCipher_loop now ids acc).
Proof.
  revert acc. induction ids as [| id rest IH]; intros acc;
    [apply read_only_ret |].
  cbn [Storage.getAttachmentsByCipher_loop]. unfold Storage.getAttachment.
  apply read_only_bind; [auto with frame | intros; apply IH].
Qed.

(** The handlers that only look things up are read-only: they leave the
    whole namespace, the revision stamp included, as it was and issue no
    [put] or [delete]. *)
Lemma read_handlers_are_read_only now userId id :
  read_only (Folders.handleGetFolders now userId) ∧
  read_only (Folders.handleGetFolder now userId id) ∧
  read_only (Ciphers.handleGetCipher now userId id) ∧
  read_only (Accounts.handleGetProfile now userId) ∧
  read_only (Accounts.handleGetRevisionDate now userId) ∧
  read_only (Storage.getAllCiphers now userId) ∧
  read_only (Storage.getRevisionDate now userId).
Proof.
  pose proof getAllCiphers_loop_read_only.
  pose proof getAllFolders_loop_read_only.
  pose proof getAttachmentsByCipher_loop_read_only.
  repeat (match goal with |- _ ∧ _ => split end);
    unfold Folders.handleGetFolders, Folders.handleGetFolder,
      Ciphers.handleGetCipher, Accounts.handleGetProfile,
      Accounts.handleGetRevisionDate, Storage.getAllCiphers,
      Storage.getAllFolders, Storage.getAttachmentsByCipher,
      Storage.getAttachmentIdsByCipher, Storage.getRevisionDate,
      Storage.getFolder, Storage.getFolderIds, Storage.getCipher,
      Storage.getCipherIds, Storage.getUserById, Storage.getUser;
    auto 20 with frame.
Qed.

(** ** Bulk move *)

Lemma cipher_at_lookup now s id :
  cipher_at now s id = nonempty (read now s (Storage.cipher_key id)) ≫= as_cipher.
Proof. reflexivity. Qed.

Lemma cipher_at_entry now (s : gmap string entry) id c :
  s !! Storage.cipher_key id = Some (Entry (VCipher c) None) →
  cipher_at now s id = Some c.
Proof. intros H. rewrite cipher_at_lookup. unfold read. by rewrite H. Qed.

Lemma saveCipher_keeps k now c :
  k ≠ Storage.cipher_key (Cipher.id c) →
  k ≠ Storage.ciphers_index_key (Cipher.userId c) →
  keeps k (Storage.saveCipher now c).
Proof.
  intros H1 H2. unfold Storage.saveCipher, Storage.getCipherIds.
  apply keeps_bind; [by apply keeps_put |]. intros _.
  apply keeps_bind; [auto with frame |]. intros index.
  destruct (includes _ _); [apply keeps_ret | by apply keeps_put].
Qed.

Lemma saveCipher_files now c s :
  store_of (Storage.saveCipher now c s) !! Storage.cipher_key (Cipher.id c)
  = Some (Entry (VCipher c) None).
Proof.
  unfold Storage.saveCipher. rewrite store_bind.
  unfold kv_put at 1 2. unfold result, store_of at 2; cbn [fst snd].
  rewrite store_bind, getCipherIds_run.
  unfold result, store_of at 2; cbn [fst snd].
  destruct (includes _ _).
  - unfold ret, store_of; cbn [fst snd]. by rewrite (lookup_insert_eq s).
  - unfold kv_put, store_of; cbn [fst snd].
    rewrite lookup_insert_ne by key_neq. by rewrite (lookup_insert_eq s).
Qed.

Lemma saveCipher_never_puts_revision now c u :
  never_puts (Storage.revision_key u) (Storage.saveCipher now c).
Proof. frame. Qed.

Lemma moved_id stamp folderId c : Cipher.id (moved stamp folderId c) = Cipher.id c.
Proof. reflexivity. Qed.

Lemma moved_userId stamp folderId c :
  Cipher.userId (moved stamp folderId c) = Cipher.userId c.
Proof. reflexivity. Qed.

Lemma moved_idem stamp folderId c :
  moved stamp folderId (moved stamp folderId c) = moved stamp folderId c.
Proof. reflexivity. Qed.

(** One turn of the loop: an owned, existing cipher is rewritten under its
    own key; anything else leaves the namespace alone. *)
Lemma bulkMoveCiphers_body_store now stamp folderId userId a s :
  filed now s a = true →
  let s1 := store_of (Storage.bulkMoveCiphers_body now stamp folderId userId a s) in
  ∀ id, s1 !! Storage.cipher_key id =
        match cipher_at now s a with
        | Some c =>
            if String.eqb (Cipher.userId c) userId && bool_decide (id = a)
            then Some (Entry (VCipher (moved stamp folderId c)) None)
            else s !! Storage.cipher_key id
        | None => s !! Storage.cipher_key id
        end.
Proof.
  unfold filed. intros Hfiled. cbv zeta. unfold Storage.bulkMoveCiphers_body.
  rewrite store_bind, getCipher_run. unfold result, store_of at 2; cbn [fst snd].
  destruct (cipher_at now s a) as [c |] eqn:Hc; [| done].
  destruct (String.eqb (Cipher.userId c) userId) eqn:Ho; [| done].
  apply String.eqb_eq in Hfiled as Hid.
  intros id. cbn [andb]. case_bool_decide as Hia.
  - subst id. rewrite <- Hid at 1.
    rewrite <- (moved_id stamp folderId c). apply saveCipher_files.
  - apply saveCipher_keeps; [| key_neq].
    fold (moved stamp folderId c). rewrite moved_id, Hid.
    intros Hk. by apply cipher_key_inj in Hk.
Qed.

Lemma bulkMoveCiphers_body_never_puts_revision now stamp folderId userId a u :
  never_puts (Storage.revision_key u)
    (Storage.bulkMoveCiphers_body now stamp folderId userId a).
Proof.
  unfold Storage.bulkMoveCiphers_body.
  apply never_puts_bind; [unfold Storage.getCipher; auto with frame |].
  intros [c |]; [| apply never_puts_ret].
  destruct (String.eqb _ _); [| apply never_puts_ret].
  apply saveCipher_never_puts_revision.
Qed.

Lemma bulkMoveCiphers_loop_never_puts_revision now stamp ids folderId userId u :
  never_puts (Storage.revision_key u)
    (Storage.bulkMoveCiphers_loop now stamp ids folderId userId).
Proof.
  induction ids as [| a rest IH]; [apply never_puts_ret |].
  cbn [Storage.bulkMoveCiphers_loop].
  apply never_puts_bind; [apply bulkMoveCiphers_body_never_puts_revision |].
  intros _. exact IH.
Qed.

Lemma includes_cons a rest id :
  includes (a :: rest) id = bool_decide (id = a) || includes rest id.
Proof.
  unfold includes. rewrite <- bool_decide_or.
  apply bool_decide_ext, elem_of_cons.
Qed.

(** The loop rewrites the listed ciphers that exist and belong to the user,
    and no other cipher entry. *)
Lemma bulkMoveCiphers_loop_store now stamp folderId userId ids :
  ∀ s, forallb (filed now s) ids = true →
  ∀ id, store_of (Storage.bulkMoveCiphers_loop now stamp ids folderId userId s)
          !! Storage.cipher_key id =
        match cipher_at now s id with
        | Some c =>
            if String.eqb (Cipher.userId c) userId && includes ids id
            then Some (Entry (VCipher (moved stamp folderId c)) None)
            else s !! Storage.cipher_key id
        | None => s !! Storage.cipher_key id
        end.
Proof.
  induction ids as [| a rest IH]; intros s Hfiled id.
  - cbn [Storage.bulkMoveCiphers_loop]. unfold ret, store_of; cbn [fst snd].
    destruct (cipher_at now s id); [| done].
    by rewrite andb_false_r.
  - cbn [forallb] in Hfiled. apply andb_prop in Hfiled as [Ha Hrest].
    cbn [Storage.bulkMoveCiphers_loop]. rewrite store_bind.
    pose proof (bulkMoveCiphers_body_store now stamp folderId userId a s Ha)
      as Hbody. cbv zeta in Hbody.
    set (s1 := store_of (Storage.bulkMoveCiphers_body now stamp folderId userId a s))
      in *.
    assert (Hrest1 : forallb (filed now s1) rest = true).
    { apply forallb_forall. intros x Hx.
      pose proof (proj1 (forallb_forall _ _) Hrest x Hx) as Hfx.
      unfold filed in *. specialize (Hbody x).
      destruct (cipher_at now s a) as [ca |] eqn:Hca.
      - destruct (String.eqb (Cipher.userId ca) userId && bool_decide (x = a))
          eqn:Hcond.
        + rewrite (cipher_at_entry _ _ _ _ Hbody).
          apply andb_prop in Hcond as [_ Hxa].
          apply bool_decide_eq_true in Hxa. subst x.
          rewrite moved_id. exact Ha.
        + by rewrite (cipher_at_agree _ _ _ _ Hbody).
      - by rewrite (cipher_at_agree _ _ _ _ Hbody). }
    rewrite (IH s1 Hrest1 id). rewrite includes_cons.
    specialize (Hbody id).
    destruct (cipher_at now s a) as [ca |] eqn:Hca.
    + destruct (String.eqb (Cipher.userId ca) userId) eqn:Ho; cbn [andb] in Hbody.
      * case_bool_decide as Hia.
        -- subst id. rewrite (cipher_at_entry _ _ _ _ Hbody), Hca.
           rewrite moved_userId, Ho, moved_idem. cbn [andb orb].
           by destruct (includes rest a).
        -- rewrite (cipher_at_agree _ _ _ _ Hbody), Hbody. by cbn [orb].
      * rewrite (cipher_at_agree _ _ _ _ Hbody), Hbody.
        case_bool_decide as Hia; [| done].
        subst id. rewrite Hca, Ho. by cbn [andb].
    + rewrite (cipher_at_agree _ _ _ _ Hbody), Hbody.
      case_bool_decide as Hia; [| done].
      subst id. by rewrite Hca.
Qed.

Lemma bulkMoveCiphers_run now ids folderId userId s :
  let l := Storage.bulkMoveCiphers_loop now now ids folderId userId s in
  Storage.bulkMoveCiphers now ids folderId userId s =
  (tt,
   <[Storage.revision_key userId := Entry (VDate now) None]> (store_of l),
   trace_of l ++ [KvPut (Storage.revision_key userId) (VDate now) None]).
Proof.
  cbv zeta. unfold Storage.bulkMoveCiphers. rewrite bind_run.
  rewrite bind_run, updateRevisionDate_run.
  unfold ret, result, store_of, trace_of; cbn [fst snd].
  by rewrite app_nil_r.
Qed.

Lemma puts_to_single k v ttl : puts_to k [KvPut k v ttl] = 1%nat.
Proof.
  unfold puts_to. rewrite filter_cons_True; [done |].
  simpl. apply String.eqb_refl.
Qed.



(** On the sample namespace: the user's cipher moves, the foreign cipher and
    the missing id do not, and an empty list still stamps the revision. *)
Example bulkMoveCiphers_on_sample :
  let r := Storage.bulkMoveCiphers 2000 ["c1"; "c2"; "c3"] (Some "f9") "u1"
             sample_store in
  let r0 := Storage.bulkMoveCiphers 2000 [] (Some "f9") "u1" sample_store in
  cipher_at 2000 (store_of r) "c1" = Some (moved 2000 (Some "f9") sample_cipher) ∧
  cipher_at 2000 (store_of r) "c2" = Some other_cipher ∧
  cipher_at 2000 (store_of r) "c3" = None ∧
  stored_revision 2000 (store_of r) "u1" = Some 2000 ∧
  puts_to (Storage.revision_key "u1") (trace_of r) = 1%nat ∧
  stored_revision 2000 (store_of r0) "u1" = Some 2000 ∧
  trace_of r0 = [KvPut "revision:u1" (VDate 2000) None].
Proof. vm_compute. done. Qed.

(** ** Login lockout *)

Lemma checkLoginAttempt_run now email s :
  RateLimit.checkLoginAttempt now email s =
  match login_record_at now s email with
  | None =>
      (LoginCheck.mk true 5 None, s, [KvGet (RateLimit.login_key email)])
  | Some record =>
      if JS.and_then (LoginRecord.lockedUntil record) (λ u, now <? u) then
        (LoginCheck.mk false 0
           (Some (JS.ceil_div
                    (default 0 (LoginRecord.lockedUntil record) - now) 1000)),
         s, [KvGet (RateLimit.login_key email)])
      else if JS.and_then (LoginRecord.lockedUntil record) (λ u, u <=? now) then
        (LoginCheck.mk true 5 None, delete (RateLimit.login_key email) s,
         [KvGet (RateLimit.login_key email);
          KvDelete (RateLimit.login_key email)])
      else
        (LoginCheck.mk true (5 - LoginRecord.attempts record) None, s,
         [KvGet (RateLimit.login_key email)])
  end.
Proof.
  unfold RateLimit.checkLoginAttempt, bind, kv_get. cbv beta iota zeta.
  fold (login_record_at now s email).
  destruct (login_record_at now s email) as [record |]; [| done].
  destruct (JS.and_then _ (λ u, now <? u)); [done |].
  destruct (JS.and_then _ (λ u, u <=? now)); done.
Qed.

Lemma and_then_exclusive o now :
  JS.and_then o (λ u, u <=? now) = true → JS.and_then o (λ u, now <? u) = false.
Proof.
  destruct o as [u |]; [| done]. unfold JS.and_then.
  intros [_ H]%andb_prop. apply Z.leb_le in H.
  apply andb_false_iff. right. apply Z.ltb_ge. lia.
Qed.



Lemma recordFailedLogin_run now email s :
  RateLimit.recordFailedLogin now email s =
  let record :=
    match login_record_at now s email with
    | Some r =>
        LoginRecord.mk (LoginRecord.attempts r + 1) (LoginRecord.lockedUntil r)
    | None => LoginRecord.mk 1 None
    end in
  if 5 <=? LoginRecord.attempts record then
    let locked :=
      LoginRecord.mk (LoginRecord.attempts record) (Some (now + 900000)) in
    (FailedLogin.mk true (Some 900),
     <[RateLimit.login_key email := Entry (VLogin locked) (Some (now + 960 * 1000))]> s,
     [KvGet (RateLimit.login_key email);
      KvPut (RateLimit.login_key email) (VLogin locked) (Some 960)])
  else
    (FailedLogin.mk false None,
     <[RateLimit.login_key email := Entry (VLogin record) (Some (now + 900 * 1000))]> s,
     [KvGet (RateLimit.login_key email);
      KvPut (RateLimit.login_key email) (VLogin record) (Some 900)]).
Proof.
  unfold RateLimit.recordFailedLogin, bind, kv_get. cbv beta iota zeta.
  fold (login_record_at now s email).
  change RateLimit.LOGIN_MAX_ATTEMPTS with 5.
  destruct (5 <=? _); reflexivity.
Qed.

Lemma login_record_at_none now (s : gmap string entry) email :
  s !! RateLimit.login_key email = None → login_record_at now s email = None.
Proof. intros H. unfold login_record_at, read. by rewrite H. Qed.

Lemma login_record_at_live now (s : gmap string entry) email r exp :
  s !! RateLimit.login_key email = Some (Entry (VLogin r) (Some exp)) →
  now < exp → login_record_at now s email = Some r.
Proof.
  intros H Hlt. unfold login_record_at, read, live. rewrite H. cbn.
  by rewrite (proj2 (Z.ltb_lt now exp) Hlt).
Qed.

Lemma login_record_at_gone now (s : gmap string entry) email r exp :
  s !! RateLimit.login_key email = Some (Entry (VLogin r) (Some exp)) →
  exp ≤ now → login_record_at now s email = None.
Proof.
  intros H Hge. unfold login_record_at, read, live. rewrite H. cbn.
  by rewrite (proj2 (Z.ltb_ge now exp) Hge).
Qed.

(** A first failure opens a record with count 1. *)
Lemma recordFailedLogin_first t email (s : gmap string entry) :
  s !! RateLimit.login_key email = None →
  result (RateLimit.recordFailedLogin t email s) = FailedLogin.mk false None ∧
  store_of (RateLimit.recordFailedLogin t email s) !! RateLimit.login_key email
  = Some (Entry (VLogin (LoginRecord.mk 1 None)) (Some (t + 900000))).
Proof.
  intros H. rewrite recordFailedLogin_run, (login_record_at_none _ _ _ H).
  cbv zeta. cbn [LoginRecord.attempts LoginRecord.lockedUntil].
  change (5 <=? 1) with false.
  unfold result, store_of; cbn [fst snd]. split; [done |].
  rewrite lookup_insert_eq. reflexivity.
Qed.

(** A further failure, recorded while the record is still stored, adds one
    to the count. *)
Lemma recordFailedLogin_next t email (s : gmap string entry) a t0 :
  s !! RateLimit.login_key email
    = Some (Entry (VLogin (LoginRecord.mk a None)) (Some (t0 + 900000))) →
  t < t0 + 900000 → a + 1 < 5 →
  result (RateLimit.recordFailedLogin t email s) = FailedLogin.mk false None ∧
  store_of (RateLimit.recordFailedLogin t email s) !! RateLimit.login_key email
  = Some (Entry (VLogin (LoginRecord.mk (a + 1) None)) (Some (t + 900000))).
Proof.
  intros H Hlt Ha.
  rewrite recordFailedLogin_run, (login_record_at_live _ _ _ _ _ H Hlt).
  cbn [LoginRecord.attempts LoginRecord.lockedUntil]. cbv zeta.
  rewrite (proj2 (Z.leb_gt 5 (a + 1))) by lia.
  unfold result, store_of; cbn [fst snd]. split; [done |].
  rewrite lookup_insert_eq. reflexivity.
Qed.

(** The failure that brings the count to 5 locks the record for 15
    minutes. *)
Lemma recordFailedLogin_locks t email (s : gmap string entry) t0 :
  s !! RateLimit.login_key email
    = Some (Entry (VLogin (LoginRecord.mk 4 None)) (Some (t0 + 900000))) →
  t < t0 + 900000 →
  result (RateLimit.recordFailedLogin t email s) = FailedLogin.mk true (Some 900) ∧
  store_of (RateLimit.recordFailedLogin t email s) !! RateLimit.login_key email
  = Some (Entry (VLogin (LoginRecord.mk 5 (Some (t + 900000))))
            (Some (t + 960000))).
Proof.
  intros H Hlt.
  rewrite recordFailedLogin_run, (login_record_at_live _ _ _ _ _ H Hlt).
  cbv zeta. cbn [LoginRecord.attempts LoginRecord.lockedUntil].
  change (5 <=? 4 + 1) with true.
  unfold result, store_of; cbn [fst snd]. split; [done |].
  rewrite lookup_insert_eq. reflexivity.
Qed.

Lemma recordFailedLogin_keeps_open t email s n :
  0 ≤ n → n < 4 → open_with n s email →
  open_with (n + 1) (store_of (RateLimit.recordFailedLogin t email s)) email.
Proof.
  intros Hn0 Hn Hopen. rewrite recordFailedLogin_run.
  assert (Hrec : login_record_at t s email = None ∨
                 ∃ a, login_record_at t s email = Some (LoginRecord.mk a None)
                      ∧ a ≤ n).
  { unfold open_with in Hopen. unfold login_record_at, read.
    destruct (s !! RateLimit.login_key email) as [e |]; [| by left].
    destruct Hopen as (a & Hv & Ha).
    destruct (live t e); [| by left].
    right. exists a. by rewrite Hv. }
  unfold open_with.
  destruct Hrec as [-> | (a & -> & Ha)]; cbv zeta;
    cbn [LoginRecord.attempts LoginRecord.lockedUntil].
  - change (5 <=? 1) with false. unfold store_of; cbn [fst snd].
    rewrite (lookup_insert_eq s). exists 1. split; [done | lia].
  - rewrite (proj2 (Z.leb_gt 5 (a + 1))) by lia.
    unfold store_of; cbn [fst snd].
    rewrite (lookup_insert_eq s). exists (a + 1). split; [done | lia].
Qed.

Lemma failures_keep_open email times :
  ∀ s n, 0 ≤ n → open_with n s email → n + Z.of_nat (length times) < 5 →
  open_with (n + Z.of_nat (length times)) (store_of (failures times email s)) email.
Proof.
  induction times as [| t rest IH]; intros s n Hn0 Hopen Hlen.
  - cbn [length failures]. unfold ret, store_of; cbn [fst snd].
    by rewrite Z.add_0_r.
  - cbn [length failures] in *. rewrite store_bind.
    replace (n + Z.of_nat (S (length rest)))
      with ((n + 1) + Z.of_nat (length rest)) by lia.
    apply IH; [lia | | lia].
    apply recordFailedLogin_keeps_open; [lia | lia | done].
Qed.

Lemma checkLoginAttempt_open t email s n :
  open_with n s email →
  LoginCheck.allowed (result (RateLimit.checkLoginAttempt t email s)) = true.
Proof.
  intros Hopen. rewrite checkLoginAttempt_run.
  unfold open_with in Hopen. unfold login_record_at, read.
  destruct (s !! RateLimit.login_key email) as [e |]; [| done].
  destruct Hopen as (a & Hv & _).
  destruct (live t e); [| done].
  by rewrite Hv.
Qed.

Lemma ceil_div_pos d : 0 < d → 0 < JS.ceil_div d 1000.
Proof.
  intros Hd. unfold JS.ceil_div.
  assert ((- d) / 1000 < 0); [| lia].
  apply Z.div_lt_upper_bound; lia.
Qed.

(** C2, as the code has it. Starting with no attempt record for the e-mail:
    after fewer than five failed logins, whenever they happen, a check is
    allowed; when five failures follow one another, each recorded less than
    15 minutes (the record's time to live) after the one before, the fifth
    one reports [locked] with [retryAfterSeconds = 900] and stores
    [lockedUntil = now + 15 min]; from then on a check is refused, with a
    positive [retryAfterSeconds] (900 at the instant of the lock), as long
    as [lockedUntil] lies ahead, and is allowed again from [lockedUntil]
    on. *)
Theorem lockout_after_five_failures email (s : gmap string entry) t1 t2 t3 t4 t5 :
  s !! RateLimit.login_key email = None →
  t2 < t1 + 900000 → t3 < t2 + 900000 → t4 < t3 + 900000 → t5 < t4 + 900000 →
  0 ≤ t5 →
  (∀ times t, (length times < 5)%nat →
     LoginCheck.allowed
       (result (RateLimit.checkLoginAttempt t email
                  (store_of (failures times email s)))) = true) ∧
  let s4 := store_of (failures [t1; t2; t3; t4] email s) in
  let r5 := RateLimit.recordFailedLogin t5 email s4 in
  result r5 = FailedLogin.mk true (Some 900) ∧
  login_record_at t5 (store_of r5) email
    = Some (LoginRecord.mk 5 (Some (t5 + 15 * 60 * 1000))) ∧
  result (RateLimit.checkLoginAttempt t5 email (store_of r5))
    = LoginCheck.mk false 0 (Some 900) ∧
  (∀ t, t < t5 + 15 * 60 * 1000 →
     let c := result (RateLimit.checkLoginAttempt t email (store_of r5)) in
     LoginCheck.allowed c = false ∧
     LoginCheck.retryAfterSeconds c
       = Some (JS.ceil_div (t5 + 15 * 60 * 1000 - t) 1000) ∧
     0 < JS.ceil_div (t5 + 15 * 60 * 1000 - t) 1000) ∧
  (∀ t, t5 + 15 * 60 * 1000 ≤ t →
     LoginCheck.allowed
       (result (RateLimit.checkLoginAttempt t email (store_of r5))) = true).
Proof.
  intros Hnone H2 H3 H4 H5 Hpos. split.
  { intros times t Hlen.
    apply (checkLoginAttempt_open _ _ _ (0 + Z.of_nat (length times))).
    apply failures_keep_open; [lia | | lia].
    unfold open_with. by rewrite Hnone. }
  cbv zeta. cbn [failures]. rewrite !store_bind.
  unfold ret at 1. unfold store_of at 1; cbn [fst snd].
  destruct (recordFailedLogin_first t1 email s Hnone) as [_ E1].
  destruct (recordFailedLogin_next t2 email _ 1 t1 E1 H2 ltac:(lia)) as [_ E2].
  destruct (recordFailedLogin_next t3 email _ 2 t2 E2 H3 ltac:(lia)) as [_ E3].
  destruct (recordFailedLogin_next t4 email _ 3 t3 E3 H4 ltac:(lia)) as [_ E4].
  destruct (recordFailedLogin_locks t5 email _ t4 E4 H5) as [R5 E5].
  set (s5 := store_of (RateLimit.recordFailedLogin t5 email _)) in *.
  change (15 * 60 * 1000) with 900000.
  assert (Hlive : ∀ t, t < t5 + 960000 →
            login_record_at t s5 email
            = Some (LoginRecord.mk 5 (Some (t5 + 900000)))).
  { intros t Ht. by apply (login_record_at_live _ _ _ _ _ E5). }
  assert (Hlocked : ∀ t, t < t5 + 900000 →
            result (RateLimit.checkLoginAttempt t email s5)
            = LoginCheck.mk false 0 (Some (JS.ceil_div (t5 + 900000 - t) 1000))).
  { intros t Ht. rewrite checkLoginAttempt_run, Hlive by lia.
    cbn [LoginRecord.lockedUntil JS.and_then JS.truthy_num default].
    rewrite (proj2 (Z.eqb_neq (t5 + 900000) 0)) by lia.
    by rewrite (proj2 (Z.ltb_lt t (t5 + 900000)) Ht). }
  split; [exact R5 |]. split; [apply Hlive; lia |]. split; [| split].
  - rewrite Hlocked by lia.
    by replace (t5 + 900000 - t5) with 900000 by lia.
  - intros t Ht. cbv zeta. rewrite Hlocked by done.
    cbn [LoginCheck.allowed LoginCheck.retryAfterSeconds].
    split; [done | split; [done |]]. apply ceil_div_pos. lia.
  - intros t Ht. rewrite checkLoginAttempt_run.
    destruct (Z.lt_ge_cases t (t5 + 960000)) as [Hl | Hg].
    + rewrite Hlive by done.
      cbn [LoginRecord.lockedUntil JS.and_then JS.truthy_num default].
      rewrite (proj2 (Z.eqb_neq (t5 + 900000) 0)) by lia.
      rewrite (proj2 (Z.ltb_ge t (t5 + 900000)) Ht).
      by rewrite (proj2 (Z.leb_le (t5 + 900000) t) Ht).
    + by rewrite (login_record_at_gone _ _ _ _ _ E5 Hg).
Qed.

Lemma lockout_after_five_failures_witness :
  let email := "a@example.com" in
  let s : gmap string entry := ∅ in
  (∀ times t, (length times < 5)%nat →
     LoginCheck.allowed
       (result (RateLimit.checkLoginAttempt t email
                  (store_of (failures times email s)))) = true) ∧
  let s4 := store_of (failures [0; 1000; 2000; 3000] email s) in
  let r5 := RateLimit.recordFailedLogin 4000 email s4 in
  result r5 = FailedLogin.mk true (Some 900) ∧
  login_record_at 4000 (store_of r5) email
    = Some (LoginRecord.mk 5 (Some (4000 + 15 * 60 * 1000))) ∧
  result (RateLimit.checkLoginAttempt 4000 email (store_of r5))
    = LoginCheck.mk false 0 (Some 900) ∧
  (∀ t, t < 4000 + 15 * 60 * 1000 →
     let c := result (RateLimit.checkLoginAttempt t email (store_of r5)) in
     LoginCheck.allowed c = false ∧
     LoginCheck.retryAfterSeconds c
       = Some (JS.ceil_div (4000 + 15 * 60 * 1000 - t) 1000) ∧
     0 < JS.ceil_div (4000 + 15 * 60 * 1000 - t) 1000) ∧
  (∀ t, 4000 + 15 * 60 * 1000 ≤ t →
     LoginCheck.allowed
       (result (RateLimit.checkLoginAttempt t email (store_of r5))) = true).
Proof.
  apply (lockout_after_five_failures "a@example.com" ∅ 0 1000 2000 3000 4000);
    [reflexivity | lia | lia | lia | lia | lia].
Defined.

(** Four failures at instant 0 and a fifth one 15 minutes later: the record
    of the first four has expired, the fifth failure opens a new record with
    count 1, reports [locked: false], and the next check is allowed. *)
Lemma fifth_failure_after_expiry_does_not_lock :
  let email := "a@example.com" in
  let s4 := store_of (failures [0; 0; 0; 0] email ∅) in
  let r5 := RateLimit.recordFailedLogin 900000 email s4 in
  login_record_at 0 s4 email = Some (LoginRecord.mk 4 None) ∧
  result r5 = FailedLogin.mk false None ∧
  login_record_at 900000 (store_of r5) email = Some (LoginRecord.mk 1 None) ∧
  result (RateLimit.checkLoginAttempt 900001 email (store_of r5))
    = LoginCheck.mk true 4 None.
Proof. vm_compute. done. Qed.

(** ** API rate limit *)

Lemma parse_count_toString n :
  RateLimit.parse_count (Some (VText (JS.toString n))) = Some n.
Proof.
  unfold RateLimit.parse_count.
  rewrite (nonempty_text _ (toString_nonempty n)).
  apply parseInt_toString.
Qed.

(** Within the window that starts at second [w], the window start computed
    by the service is [w] and the remainder is the offset into the
    window. *)
Lemma window_of_instant w t :
  0 ≤ w → w mod 60 = 0 → in_window w t →
  let now := t / 1000 in
  JS.rem now 60 = now mod 60 ∧
  now - JS.rem now 60 = w ∧
  0 ≤ now mod 60 < 60.
Proof.
  intros Hw Hmod [Hlo Hhi]. cbv zeta.
  assert (Hn : w ≤ t / 1000 < w + 60).
  { split; [apply Z.div_le_lower_bound; lia | apply Z.div_lt_upper_bound; lia]. }
  unfold JS.rem. rewrite Z.rem_mod_nonneg by lia.
  pose proof (Z.mod_pos_bound (t / 1000) 60 ltac:(lia)) as Hb.
  repeat split; try lia.
  pose proof (Z.div_mod (t / 1000) 60 ltac:(lia)) as Hdm.
  pose proof (Z.div_mod w 60 ltac:(lia)) as Hdw. rewrite Hmod in Hdw.
  assert (t / 1000 / 60 = w / 60); [| lia].
  assert (w / 60 ≤ t / 1000 / 60) by (apply Z.div_le_mono; lia).
  assert (t / 1000 / 60 < w / 60 + 1); [| lia].
  apply Z.div_lt_upper_bound; lia.
Qed.

Lemma checkApiRateLimit_run t identifier s :
  RateLimit.checkApiRateLimit t identifier s =
  let now := t / 1000 in
  let key := RateLimit.api_key identifier (now - JS.rem now 60) in
  let count := RateLimit.parse_count (read t s key) in
  (if RateLimit.at_least count 60
   then ApiCheck.mk false (Some 0) (Some (60 - JS.rem now 60))
   else ApiCheck.mk true ((λ c, 60 - c) <$> count) None,
   s, [KvGet key]).
Proof.
  unfold RateLimit.checkApiRateLimit, bind, kv_get. cbv beta iota zeta.
  change RateLimit.API_WINDOW_SECONDS with 60.
  change RateLimit.API_REQUESTS_PER_MINUTE with 60.
  by destruct (RateLimit.at_least _ 60).
Qed.

Lemma incrementApiCount_run t identifier s :
  RateLimit.incrementApiCount t identifier s =
  let now := t / 1000 in
  let key := RateLimit.api_key identifier (now - JS.rem now 60) in
  let text :=
    VText (match RateLimit.parse_count (read t s key) with
           | Some c => JS.toString (c + 1)
           | None => "NaN"
           end) in
  (tt, <[key := Entry text (Some (t + 70 * 1000))]> s,
   [KvGet key; KvPut key text (Some 70)]).
Proof. reflexivity. Qed.

(** One request below the cap goes through and is counted. *)
Lemma apiRateLimitGate_below_cap w request userId k s t t' :
  let identifier := userId +:+ ":" +:+ getClientIdentifier request in
  0 ≤ w → w mod 60 = 0 → 0 ≤ k < 60 →
  in_window w t → in_window w t' →
  counted w identifier k s →
  result (apiRateLimitGate t t' request userId s) = None ∧
  counted w identifier (k + 1)
    (store_of (apiRateLimitGate t t' request userId s)).
Proof.
  cbv zeta. intros Hw Hmod Hk Ht Ht' Hcount.
  destruct (window_of_instant w t Hw Hmod Ht) as (_ & Hwt & _).
  destruct (window_of_instant w t' Hw Hmod Ht') as (_ & Hwt' & _).
  cbv zeta in Hwt, Hwt'.
  set (identifier := userId +:+ ":" +:+ getClientIdentifier request) in *.
  set (key := RateLimit.api_key identifier w).
  assert (Hcheck : RateLimit.checkApiRateLimit t identifier s
                   = (ApiCheck.mk true (Some (60 - k)) None, s, [KvGet key])).
  { rewrite checkApiRateLimit_run. cbv zeta. rewrite Hwt, (Hcount t Ht).
    unfold RateLimit.at_least. by rewrite (proj2 (Z.leb_gt 60 k)) by lia. }
  assert (Hincr : RateLimit.incrementApiCount t' identifier s
                  = (tt,
                     <[key := Entry (VText (JS.toString (k + 1)))
                                (Some (t' + 70 * 1000))]> s,
                     [KvGet key;
                      KvPut key (VText (JS.toString (k + 1))) (Some 70)])).
  { rewrite incrementApiCount_run. cbv zeta. by rewrite Hwt', (Hcount t' Ht'). }
  unfold apiRateLimitGate. fold identifier.
  rewrite bind_run, Hcheck.
  cbn [result store_of trace_of fst snd ApiCheck.allowed negb].
  rewrite bind_run, Hincr.
  cbn [ret result store_of trace_of fst snd]. split; [done |].
  intros t'' Ht''. unfold read, live. fold key.
  rewrite lookup_insert_eq. cbn [e_expiration e_value].
  destruct Ht' as [Hlo' _], Ht'' as [_ Hhi''].
  rewrite (proj2 (Z.ltb_lt t'' (t' + 70 * 1000))) by lia.
  apply parse_count_toString.
Qed.

Lemma counted_keeps w identifier k (h : M unit) s :
  keeps (RateLimit.api_key identifier w) h →
  counted w identifier k s → counted w identifier k (store_of (h s)).
Proof.
  intros Hkeep Hcount t Ht. rewrite <- (Hcount t Ht).
  f_equal. apply read_agree, Hkeep.
Qed.

Lemma gate_run_below_cap w request userId requests :
  let identifier := userId +:+ ":" +:+ getClientIdentifier request in
  0 ≤ w → w mod 60 = 0 →
  ∀ k s, 0 ≤ k → k + Z.of_nat (length requests) ≤ 60 →
  Forall (λ p, in_window w p.1.1 ∧ in_window w p.1.2 ∧
               keeps (RateLimit.api_key identifier w) p.2) requests →
  counted w identifier k s →
  result (gate_run requests request userId s)
    = replicate (length requests) true ∧
  counted w identifier (k + Z.of_nat (length requests))
    (store_of (gate_run requests request userId s)).
Proof.
  cbv zeta. intros Hw Hmod.
  induction requests as [| [[t t'] h] rest IH]; intros k s Hk Hlen Hall Hcount.
  - cbn [length gate_run replicate]. unfold ret, result, store_of; cbn [fst snd].
    by rewrite Z.add_0_r.
  - cbn [length] in *. apply Forall_cons in Hall as [(Ht & Ht' & Hh) Hrest].
    cbn [fst snd] in Ht, Ht', Hh.
    destruct (apiRateLimitGate_below_cap w request userId k s t t'
                Hw Hmod ltac:(lia) Ht Ht' Hcount) as [Hres Hnext].
    pose proof (counted_keeps _ _ _ h _ Hh Hnext) as Hnext'.
    destruct (IH (k + 1) _ ltac:(lia) ltac:(lia) Hrest Hnext') as [Hr Hc].
    cbn [gate_run]. rewrite !bind_run.
    cbn [ret result store_of trace_of fst snd].
    rewrite Hres. rewrite Hr. split; [done |].
    by replace (k + Z.of_nat (S (length rest)))
      with (k + 1 + Z.of_nat (length rest)) by lia.
Qed.

(** C3. With the counter of the window not yet written, sixty requests of
    one user and client whose check and increment all fall in that
    60-second window are all let through, whatever their handlers do to the
    rest of the namespace; any further check in the same window is refused
    with [retryAfterSeconds = 60 - (now mod 60)], a value in (0, 60], and
    the router answers 429 without counting the request. *)
Theorem api_rate_limit_rejects_the_61st request userId w
    (s : gmap string entry) requests :
  let identifier := userId +:+ ":" +:+ getClientIdentifier request in
  0 ≤ w → w mod 60 = 0 →
  s !! RateLimit.api_key identifier w = None →
  length requests = 60%nat →
  Forall (λ p, in_window w p.1.1 ∧ in_window w p.1.2 ∧
               keeps (RateLimit.api_key identifier w) p.2) requests →
  let r := gate_run requests request userId s in
  result r = replicate 60 true ∧
  ∀ t, in_window w t →
    let now := t / 1000 in
    result (RateLimit.checkApiRateLimit t identifier (store_of r))
      = ApiCheck.mk false (Some 0) (Some (60 - now mod 60)) ∧
    0 < 60 - now mod 60 ≤ 60 ∧
    ∀ t', ∃ response,
      result (apiRateLimitGate t t' request userId (store_of r)) = Some response ∧
      status response = 429 ∧
      store_of (apiRateLimitGate t t' request userId (store_of r)) = store_of r.
Proof.
  cbv zeta. intros Hw Hmod Hnone Hlen Hall.
  set (identifier := userId +:+ ":" +:+ getClientIdentifier request) in *.
  assert (H0 : counted w identifier 0 s).
  { intros t _. unfold read. by rewrite Hnone. }
  destruct (gate_run_below_cap w request userId requests Hw Hmod 0 s
              ltac:(lia) ltac:(lia) Hall H0) as [Hres Hcount].
  fold identifier in Hcount. rewrite Hlen in Hres, Hcount.
  split; [exact Hres |]. intros t Ht.
  destruct (window_of_instant w t Hw Hmod Ht) as (Hrem & Hwt & Hbound).
  cbv zeta in Hrem, Hwt, Hbound.
  assert (Hcheck : RateLimit.checkApiRateLimit t identifier
                     (store_of (gate_run requests request userId s))
                   = (ApiCheck.mk false (Some 0) (Some (60 - (t / 1000) mod 60)),
                      store_of (gate_run requests request userId s),
                      [KvGet (RateLimit.api_key identifier w)])).
  { rewrite checkApiRateLimit_run. cbv zeta. rewrite Hwt, (Hcount t Ht).
    by rewrite Hrem. }
  split; [by rewrite Hcheck |]. split; [lia |].
  intros t'. unfold apiRateLimitGate. fold identifier.
  rewrite bind_run, Hcheck.
  cbn [ret result store_of trace_of fst snd ApiCheck.allowed negb].
  eexists. repeat split.
Qed.

Lemma handleGetFolders_keeps_api_counter now userId identifier w :
  keeps (RateLimit.api_key identifier w)
    (void (Folders.handleGetFolders now userId)).
Proof.
  unfold void, Folders.handleGetFolders, Storage.getAllFolders,
    Storage.getFolderIds.
  apply keeps_bind; [| intros; apply keeps_ret].
  apply keeps_bind; [| intros; apply keeps_ret].
  apply keeps_bind; [auto with frame |].
  intros ids. intros s. by rewrite getAllFolders_loop_run.
Qed.

Lemma api_rate_limit_rejects_the_61st_witness :
  let request := sample_request in
  let requests :=
    replicate 60 (1000, 2000, void (Folders.handleGetFolders 2000 "u1")) in
  let identifier := "u1" +:+ ":" +:+ getClientIdentifier request in
  let r := gate_run requests request "u1" sample_store in
  result r = replicate 60 true ∧
  ∀ t, in_window 0 t →
    let now := t / 1000 in
    result (RateLimit.checkApiRateLimit t identifier (store_of r))
      = ApiCheck.mk false (Some 0) (Some (60 - now mod 60)) ∧
    0 < 60 - now mod 60 ≤ 60 ∧
    ∀ t', ∃ response,
      result (apiRateLimitGate t t' request "u1" (store_of r)) = Some response ∧
      status response = 429 ∧
      store_of (apiRateLimitGate t t' request "u1" (store_of r)) = store_of r.
Proof.
  apply (api_rate_limit_rejects_the_61st sample_request "u1" 0 sample_store
           (replicate 60 (1000, 2000, void (Folders.handleGetFolders 2000 "u1"))));
    [lia | reflexivity | reflexivity | reflexivity |].
  apply Forall_replicate. cbn [fst snd]. unfold in_window.
  split; [lia | split; [lia |]].
  apply handleGetFolders_keeps_api_counter.
Defined.

(** The sixty-first request of the sample client, 59.5 s into the window,
    is told to retry after one second. *)
Example sixty_first_request_on_sample :
  let requests :=
    replicate 60 (1000, 2000, void (Folders.handleGetFolders 2000 "u1")) in
  let s60 := store_of (gate_run requests sample_request "u1" sample_store) in
  read 59500 s60 "ratelimit:api:u1:203.0.113.7:0" = Some (VText "60") ∧
  result (RateLimit.checkApiRateLimit 59500 "u1:203.0.113.7" s60)
    = ApiCheck.mk false (Some 0) (Some 1).
Proof. vm_compute. done. Qed.

(** ** Registration *)

Ltac unfold_services :=
  unfold void,
    Accounts.handleUpdateProfile, Accounts.handleSetKeys,
    Accounts.handleVerifyPassword, Accounts.handleGetProfile,
    Accounts.handleGetRevisionDate,
    Folders.handleCreateFolder, Folders.handleUpdateFolder,
    Folders.handleDeleteFolder, Folders.handleGetFolder,
    Folders.handleGetFolders,
    Ciphers.handleGetCipher, Ciphers.handleDeleteCipher,
    Ciphers.handleRestoreCipher, Ciphers.handlePartialUpdateCipher,
    Ciphers.handleBulkMoveCiphers,
    Storage.getAllCiphers, Storage.getAllFolders, Storage.getCiphersByIds,
    Storage.bulkMoveCiphers, Storage.bulkMoveCiphers_body,
    Storage.getAttachmentsByCipher, Storage.deleteAllAttachmentsByCipher,
    Storage.updateCipherRevisionDate,
    Storage.addAttachmentToCipher, Storage.removeAttachmentFromCipher,
    Storage.getAttachmentIdsByCipher, Storage.getAttachment,
    Storage.saveAttachment, Storage.deleteAttachment,
    Storage.saveRefreshToken, Storage.getRefreshTokenUserId,
    Storage.deleteRefreshToken, Storage.getRevisionDate,
    Storage.saveFolder, Storage.deleteFolder, Storage.getFolder,
    Storage.getFolderIds, Storage.saveCipher, Storage.deleteCipher,
    Storage.getCipher, Storage.getCipherIds, Storage.updateRevisionDate,
    Storage.saveUser, Storage.getUserById, Storage.getUser,
    Storage.isRegistered,
    RateLimit.checkLoginAttempt, RateLimit.recordFailedLogin,
    RateLimit.clearLoginAttempts, RateLimit.checkApiRateLimit,
    RateLimit.incrementApiCount.

Lemma getAllCiphers_loop_keeps k now ids acc :
  keeps k (Storage.getAllCiphers_loop now ids acc).
Proof. intros s. by rewrite getAllCiphers_loop_run. Qed.

Lemma getAllFolders_loop_keeps k now ids acc :
  keeps k (Storage.getAllFolders_loop now ids acc).
Proof. intros s. by rewrite getAllFolders_loop_run. Qed.

Lemma getCiphersByIds_loop_keeps k now ids userId acc :
  keeps k (Storage.getCiphersByIds_loop now ids userId acc).
Proof.
  revert acc. induction ids as [| id rest IH]; intros acc; [apply keeps_ret |].
  cbn [Storage.getCiphersByIds_loop].
  apply keeps_bind; [apply read_only_keeps, getCipher_read_only |].
  intros c. apply IH.
Qed.

Lemma getAttachmentsByCipher_loop_keeps k now ids acc :
  keeps k (Storage.getAttachmentsByCipher_loop now ids acc).
Proof.
  revert acc. induction ids as [| id rest IH]; intros acc; [apply keeps_ret |].
  cbn [Storage.getAttachmentsByCipher_loop]. unfold Storage.getAttachment.
  apply keeps_bind; [auto with frame |].
  intros c. apply IH.
Qed.

Lemma deleteAttachments_loop_keeps_registered ids :
  keeps Storage.CONFIG_REGISTERED (Storage.deleteAttachments_loop ids).
Proof.
  induction ids as [| id rest IH]; [apply keeps_ret |].
  cbn [Storage.deleteAttachments_loop]. unfold Storage.deleteAttachment.
  apply keeps_bind; [auto with frame | intros _; apply IH].
Qed.

Lemma bulkMoveCiphers_loop_keeps_registered now stamp ids folderId userId :
  keeps Storage.CONFIG_REGISTERED
    (Storage.bulkMoveCiphers_loop now stamp ids folderId userId).
Proof.
  induction ids as [| id rest IH]; [apply keeps_ret |].
  cbn [Storage.bulkMoveCiphers_loop].
  apply keeps_bind; [| intros _; apply IH].
  unfold_services. auto 20 with frame.
Qed.

#[local] Hint Resolve getAllCiphers_loop_keeps getAllFolders_loop_keeps
  getCiphersByIds_loop_keeps getAttachmentsByCipher_loop_keeps
  deleteAttachments_loop_keeps_registered
  bulkMoveCiphers_loop_keeps_registered : frame.

Lemma isRegistered_run now s :
  Storage.isRegistered now s =
  (match read now s Storage.CONFIG_REGISTERED ≫= as_text with
   | Some v => String.eqb v "true"
   | None => false
   end, s, [KvGet Storage.CONFIG_REGISTERED]).
Proof. reflexivity. Qed.

Lemma isRegistered_registered now s :
  registered s →
  Storage.isRegistered now s = (true, s, [KvGet Storage.CONFIG_REGISTERED]).
Proof.
  intros H. rewrite isRegistered_run. unfold read. by rewrite H.
Qed.

(** Once the flag is set, [handleRegister] stops at its first test. *)
Lemma handleRegister_closed now body uuid1 uuid2 s :
  registered s →
  Accounts.handleRegister now body uuid1 uuid2 s =
  (errorResponse "Registration is closed" 403, s,
   [KvGet Storage.CONFIG_REGISTERED]).
Proof.
  intros H. unfold Accounts.handleRegister.
  rewrite bind_run, (isRegistered_registered _ _ H).
  by cbn [ret result store_of trace_of fst snd app].
Qed.

(** No call clears the flag: the only write to [config:registered] is the
    one of [setRegistered], which sets it. *)
Lemma perform_keeps_registered now c s :
  registered s → registered (store_of (perform now c s)).
Proof.
  intros H.
  destruct c;
    try (unfold registered; etrans; [| exact H];
         revert s H; cbn [perform]; intros s _;
         lazymatch goal with
         | |- store_of (?m s) !! ?k = s !! ?k => change (store_of (m s) !! k = s !! k);
             generalize s; change (keeps k m)
         end;
         unfold_services; auto 30 with frame; fail).
  - (* setRegistered *)
    cbn [perform]. unfold registered, Storage.setRegistered, kv_put.
    cbn [store_of fst snd]. apply lookup_insert_eq.
  - (* handleRegister *)
    cbn [perform]. unfold void. rewrite store_bind.
    rewrite (handleRegister_closed _ _ _ _ _ H).
    by cbn [ret result store_of fst snd].
Qed.

Lemma perform_all_keeps_registered history :
  ∀ s, registered s → registered (store_of (perform_all history s)).
Proof.
  induction history as [| [now c] rest IH]; intros s H; [done |].
  cbn [perform_all]. rewrite store_bind.
  apply IH. by apply perform_keeps_registered.
Qed.

(** A registration that answers 200 has set the flag. *)
Lemma handleRegister_success_sets_flag now body uuid1 uuid2 s :
  status (result (Accounts.handleRegister now body uuid1 uuid2 s)) = 200 →
  registered (store_of (Accounts.handleRegister now body uuid1 uuid2 s)).
Proof.
  unfold Accounts.handleRegister. rewrite bind_run, isRegistered_run.
  cbn [ret result store_of trace_of fst snd].
  destruct (match read now s Storage.CONFIG_REGISTERED ≫= as_text with
            | Some v => String.eqb v "true" | None => false end);
    [discriminate |].
  destruct body as [body |]; [| discriminate].
  destruct (_ || _); [discriminate |].
  destruct (_ || _); [discriminate |].
  intros _. rewrite !store_bind. unfold Storage.setRegistered, kv_put.
  cbn [ret result store_of trace_of fst snd].
  apply lookup_insert_eq.
Qed.

(** C9. Once the registered flag is set, every call of [handleRegister]
    answers 403, leaves the namespace as it is and issues no write; and
    after any history of calls (every method of the storage and rate-limit
    services and every handler of this development, with any arguments, at
    any instants) the flag is still set, so registration stays closed. *)
Theorem registration_is_one_shot s :
  registered s →
  (∀ now body uuid1 uuid2,
     Accounts.handleRegister now body uuid1 uuid2 s =
     (errorResponse "Registration is closed" 403, s,
      [KvGet Storage.CONFIG_REGISTERED])) ∧
  (∀ history, registered (store_of (perform_all history s))) ∧
  (∀ history now body uuid1 uuid2,
     let s' := store_of (perform_all history s) in
     let r := Accounts.handleRegister now body uuid1 uuid2 s' in
     status (result r) = 403 ∧ store_of r = s' ∧ writes (trace_of r) = []).
Proof.
  intros H. split; [| split].
  - intros. by apply handleRegister_closed.
  - intros. by apply perform_all_keeps_registered.
  - intros history now body uuid1 uuid2. cbv zeta.
    rewrite (handleRegister_closed now body uuid1 uuid2 _
               (perform_all_keeps_registered history s H)).
    done.
Qed.

Lemma registration_is_one_shot_witness :
  let s := store_of (Accounts.handleRegister 1000 (Some sample_register_body)
                       "u1" "stamp" ∅) in
  (∀ now body uuid1 uuid2,
     Accounts.handleRegister now body uuid1 uuid2 s =
     (errorResponse "Registration is closed" 403, s,
      [KvGet Storage.CONFIG_REGISTERED])) ∧
  (∀ history, registered (store_of (perform_all history s))) ∧
  (∀ history now body uuid1 uuid2,
     let s' := store_of (perform_all history s) in
     let r := Accounts.handleRegister now body uuid1 uuid2 s' in
     status (result r) = 403 ∧ store_of r = s' ∧ writes (trace_of r) = []).
Proof.
  apply (registration_is_one_shot
           (store_of (Accounts.handleRegister 1000 (Some sample_register_body)
                        "u1" "stamp" ∅))).
  vm_compute. reflexivity.
Defined.

(** The first registration goes through and files the user; the second one
    is refused. *)
Example register_twice :
  let r1 := Accounts.handleRegister 1000 (Some sample_register_body) "u1" "stamp" ∅ in
  let r2 := Accounts.handleRegister 2000 (Some sample_register_body) "u2" "stamp2"
              (store_of r1) in
  status (result r1) = 200 ∧
  result (Storage.getUserById 1500 "u1" (store_of r1))
    = Some (User.mk "u1" "a@example.com" "Old" "hash" "key" (Some "priv")
              (Some "pub") 0 600000 None None "stamp" 1000 1000) ∧
  status (result r2) = 403 ∧
  result (Storage.getUserById 2500 "u2" (store_of r2)) = None.
Proof. vm_compute. done. Qed.

(** ** Profile update *)

Lemma lower_ascii_idem c : JS.lower_ascii (JS.lower_ascii c) = JS.lower_ascii c.
Proof. by destruct c as [[] [] [] [] [] [] [] []]. Qed.

Lemma toLowerCase_idem s :
  JS.toLowerCase (JS.toLowerCase s) = JS.toLowerCase s.
Proof.
  induction s as [| c r IH]; [done |].
  cbn [JS.toLowerCase]. by rewrite lower_ascii_idem, IH.
Qed.

Lemma toLowerCase_nonempty s : s ≠ "" → JS.toLowerCase s ≠ "".
Proof. by destruct s. Qed.

Lemma toLowerCase_nonempty_inv s : JS.toLowerCase s ≠ "" → s ≠ "".
Proof. by destruct s. Qed.

Lemma truthy_Some e : e ≠ "" → JS.truthy (Some e) = true.
Proof. by destruct e. Qed.

Lemma getUserById_run now userId s e user :
  read now s (Storage.userid_key userId) = Some (VText e) → e ≠ "" →
  read now s (Storage.user_key e) = Some (VUser user) →
  Storage.getUserById now userId s =
  (Some user, s,
   [KvGet (Storage.userid_key userId); KvGet (Storage.user_key e)]).
Proof.
  intros H1 He H2. unfold Storage.getUserById, Storage.getUser, bind, kv_get.
  cbv beta iota zeta. rewrite H1, (nonempty_text _ He). cbn [mbind option_bind as_text].
  by rewrite H2.
Qed.

Lemma getUserById_read_only now userId :
  read_only (Storage.getUserById now userId).
Proof. unfold Storage.getUserById, Storage.getUser. auto 10 with frame. Qed.

Lemma read_insert now (s : gmap string entry) k v :
  read now (<[k := Entry v None]> s) k = Some v.
Proof. unfold read. by rewrite lookup_insert_eq. Qed.

Lemma read_insert_ne now (s : gmap string entry) k k' e :
  k ≠ k' → read now (<[k := e]> s) k' = read now s k'.
Proof. intros H. unfold read. by rewrite lookup_insert_ne. Qed.

Lemma saveUser_run now user s :
  Storage.saveUser now user s =
  (tt,
   <[Storage.userid_key (User.id user) :=
       Entry (VText (JS.toLowerCase (User.email user))) None]>
     (<[Storage.user_key (User.email user) := Entry (VUser user) None]> s),
   [KvPut (Storage.user_key (User.email user)) (VUser user) None;
    KvPut (Storage.userid_key (User.id user))
      (VText (JS.toLowerCase (User.email user))) None]).
Proof. reflexivity. Qed.

(** After [saveUser], a user that was filed under its own e-mail is read
    back, as saved, through the id it was reached by. *)
Lemma getUserById_after_saveUser now userId s e user user' :
  read now s (Storage.userid_key userId) = Some (VText e) → e ≠ "" →
  JS.toLowerCase (User.email user) = JS.toLowerCase e →
  User.email user' = User.email user →
  User.id user' = User.id user →
  result (Storage.getUserById now userId
            (store_of (Storage.saveUser now user' s))) = Some user'.
Proof.
  intros H1 He H3 Hemail Hid. rewrite saveUser_run.
  cbn [store_of fst snd]. rewrite Hemail, Hid.
  set (s1 := <[Storage.user_key (User.email user) := Entry (VUser user') None]> s).
  destruct (decide (User.id user = userId)) as [<- | Hne].
  - erewrite getUserById_run; [done | apply read_insert | |].
    + rewrite H3. by apply toLowerCase_nonempty.
    + rewrite read_insert_ne by key_neq.
      unfold Storage.user_key. rewrite toLowerCase_idem. apply read_insert.
  - erewrite getUserById_run; [done | | exact He |].
    + rewrite read_insert_ne.
      * subst s1. rewrite read_insert_ne by key_neq. exact H1.
      * intros Hk. apply Hne. unfold_keys. congruence.
    + rewrite read_insert_ne by key_neq.
      unfold Storage.user_key. rewrite <- H3. apply read_insert.
Qed.

(** Neither account handler that saves the user touches the revision
    stamp. *)
Lemma account_handlers_keep_revision now body userId u :
  keeps (Storage.revision_key u) (Accounts.handleUpdateProfile now body userId) ∧
  never_puts (Storage.revision_key u) (Accounts.handleUpdateProfile now body userId).
Proof. split; unfold_services; auto 30 with frame. Qed.

Lemma handleSetKeys_keeps_revision now body userId u :
  keeps (Storage.revision_key u) (Accounts.handleSetKeys now body userId) ∧
  never_puts (Storage.revision_key u) (Accounts.handleSetKeys now body userId).
Proof. split; unfold_services; auto 30 with frame. Qed.




(** ** The signing secret *)

Section Fetch.
Variable publicRoutes : Z → Request → Env → option (M Response).
Variable verifyAccessToken : Z → Env → option string → M (option string).
Variable privateRoutes : Z → Request → Env → string → M Response.

Lemma fetch_run now request env s :
  fetch publicRoutes verifyAccessToken privateRoutes now request env s =
  if negb (JS.truthy (JWT_SECRET env)) then
    (mkResponse 500 (Text "Server configuration error: JWT_SECRET is not set") [],
     s, [])
  else
    let r := handleRequest publicRoutes verifyAccessToken privateRoutes
               now request env s in
    (result r, store_of r,
     (if (String.length (default "" (JWT_SECRET env)) <? 32)%nat
      then [ConsoleWarn "[SECURITY WARNING] JWT_SECRET should be at least 32 characters for adequate security"]
      else []) ++ trace_of r).
Proof.
  unfold fetch. destruct (negb _); [done |].
  rewrite bind_run. cbv zeta.
  by destruct (_ <? _)%nat.
Qed.

End Fetch.



(** * Further properties of the code *)

(** ** Reading the namespace after a write *)

Lemma read_delete now (s : gmap string entry) k : read now (delete k s) k = None.
Proof. unfold read. by rewrite lookup_delete_eq. Qed.

Lemma read_delete_ne now (s : gmap string entry) k k' :
  k ≠ k' → read now (delete k s) k' = read now s k'.
Proof. intros H. unfold read. by rewrite lookup_delete_ne. Qed.

Lemma cipher_ids_at_lookup now s u :
  cipher_ids_at now s u
  = default [] (nonempty (read now s (Storage.ciphers_index_key u)) ≫= as_ids).
Proof. reflexivity. Qed.

Lemma folder_ids_at_lookup now s u :
  folder_ids_at now s u
  = default [] (nonempty (read now s (Storage.folders_index_key u)) ≫= as_ids).
Proof. reflexivity. Qed.

Lemma folder_at_lookup now s id :
  folder_at now s id = nonempty (read now s (Storage.folder_key id)) ≫= as_folder.
Proof. reflexivity. Qed.

Lemma folder_at_agree now (s s' : gmap string entry) id :
  s' !! Storage.folder_key id = s !! Storage.folder_key id →
  folder_at now s' id = folder_at now s id.
Proof. intros H. rewrite !folder_at_lookup. by rewrite (read_agree _ _ _ _ H). Qed.

Lemma folder_ids_at_agree now (s s' : gmap string entry) u :
  s' !! Storage.folders_index_key u = s !! Storage.folders_index_key u →
  folder_ids_at now s' u = folder_ids_at now s u.
Proof.
  intros H. rewrite !folder_ids_at_lookup. by rewrite (read_agree _ _ _ _ H).
Qed.

Lemma includes_elem ids id : includes ids id = true ↔ id ∈ ids.
Proof. unfold includes. apply bool_decide_eq_true. Qed.

Lemma includes_not_elem ids id : includes ids id = false ↔ id ∉ ids.
Proof. unfold includes. apply bool_decide_eq_false. Qed.

Lemma without_not_elem id ids : id ∉ without id ids.
Proof. unfold without. rewrite list_elem_of_filter. tauto. Qed.

Lemma without_elem id x ids : x ∈ without id ids ↔ x ≠ id ∧ x ∈ ids.
Proof. unfold without. by rewrite list_elem_of_filter. Qed.

Lemma without_fresh id ids : id ∉ ids → without id ids = ids.
Proof.
  intros H. unfold without. induction ids as [| x r IH]; [done |].
  apply not_elem_of_cons in H as [Hx Hr].
  rewrite filter_cons_True by congruence. by rewrite IH.
Qed.

Lemma without_app_self id ids : id ∉ ids → without id (ids ++ [id]) = ids.
Proof.
  intros H. unfold without. rewrite filter_app.
  fold (without id ids). rewrite (without_fresh _ _ H).
  rewrite filter_cons_False by tauto. by rewrite app_nil_r.
Qed.

(** ** Cipher records and the cipher index *)

Lemma saveCipher_store now c s :
  store_of (Storage.saveCipher now c s) =
  let s1 := <[Storage.cipher_key (Cipher.id c) := Entry (VCipher c) None]> s in
  let index := cipher_ids_at now s (Cipher.userId c) in
  if includes index (Cipher.id c) then s1
  else <[Storage.ciphers_index_key (Cipher.userId c) :=
           Entry (VIds (index ++ [Cipher.id c])) None]> s1.
Proof.
  cbv zeta. unfold Storage.saveCipher. rewrite store_bind.
  unfold kv_put at 1 2. cbn [result store_of fst snd].
  rewrite store_bind, getCipherIds_run. cbn [result store_of fst snd].
  rewrite (cipher_ids_at_agree now s) by (apply lookup_insert_ne; key_neq).
  by destruct (includes _ _).
Qed.

Lemma saveCipher_index now c s :
  cipher_ids_at now (store_of (Storage.saveCipher now c s)) (Cipher.userId c) =
  let index := cipher_ids_at now s (Cipher.userId c) in
  if includes index (Cipher.id c) then index else index ++ [Cipher.id c].
Proof.
  cbv zeta. rewrite saveCipher_store. cbv zeta.
  destruct (includes _ _).
  - apply cipher_ids_at_agree, lookup_insert_ne. key_neq.
  - rewrite cipher_ids_at_lookup, read_insert. reflexivity.
Qed.

Lemma saveCipher_record now now' c s :
  cipher_at now' (store_of (Storage.saveCipher now c s)) (Cipher.id c) = Some c.
Proof. apply cipher_at_entry, saveCipher_files. Qed.

Lemma saveCipher_listed now c s :
  Cipher.id c ∈ cipher_ids_at now (store_of (Storage.saveCipher now c s))
                  (Cipher.userId c).
Proof.
  rewrite saveCipher_index. cbv zeta.
  destruct (includes _ _) eqn:E.
  - by apply includes_elem.
  - apply elem_of_app. right. by apply list_elem_of_singleton.
Qed.

(** X1. [saveCipher] files the cipher under its id and makes sure the id is
    in the owner's index: the record is read back as saved at any later
    instant, the index gains the id at its end unless it already lists it,
    [getAllCiphers] of the owner returns the cipher, and no key other than
    the record and the owner's index is touched. *)
Theorem saveCipher_round_trip now now' c s :
  let s' := store_of (Storage.saveCipher now c s) in
  let index := cipher_ids_at now s (Cipher.userId c) in
  cipher_at now' s' (Cipher.id c) = Some c ∧
  cipher_ids_at now s' (Cipher.userId c)
    = (if includes index (Cipher.id c) then index else index ++ [Cipher.id c]) ∧
  Cipher.id c ∈ cipher_ids_at now s' (Cipher.userId c) ∧
  c ∈ result (Storage.getAllCiphers now (Cipher.userId c) s') ∧
  (∀ k, k ≠ Storage.cipher_key (Cipher.id c) →
        k ≠ Storage.ciphers_index_key (Cipher.userId c) → s' !! k = s !! k).
Proof.
  cbv zeta. split; [apply saveCipher_record |].
  split; [apply saveCipher_index |].
  split; [apply saveCipher_listed |]. split.
  - rewrite getAllCiphers_run. cbn [result fst].
    apply list_elem_of_omap. exists (Cipher.id c).
    split; [apply saveCipher_listed | apply saveCipher_record].
  - intros k H1 H2. by apply saveCipher_keeps.
Qed.

(** X2. Saving the same cipher a second time changes nothing: the namespace
    after two saves is the namespace after one. *)
Theorem saveCipher_idempotent now c s :
  store_of (Storage.saveCipher now c (store_of (Storage.saveCipher now c s)))
  = store_of (Storage.saveCipher now c s).
Proof.
  set (s' := store_of (Storage.saveCipher now c s)).
  rewrite (saveCipher_store now c s'). cbv zeta.
  assert (Hin : includes (cipher_ids_at now s' (Cipher.userId c)) (Cipher.id c)
                = true).
  { apply includes_elem. apply saveCipher_listed. }
  rewrite Hin. apply insert_id. apply saveCipher_files.
Qed.

Lemma deleteCipher_store now id u s :
  store_of (Storage.deleteCipher now id u s) =
  <[Storage.ciphers_index_key u :=
      Entry (VIds (without id (cipher_ids_at now s u))) None]>
    (delete (Storage.cipher_key id) s).
Proof.
  unfold Storage.deleteCipher. rewrite store_bind.
  unfold kv_delete. cbn [result store_of fst snd].
  rewrite store_bind, getCipherIds_run. cbn [result store_of fst snd].
  rewrite (cipher_ids_at_agree now s) by (apply lookup_delete_ne; key_neq).
  reflexivity.
Qed.

Lemma deleteCipher_index now id u s :
  cipher_ids_at now (store_of (Storage.deleteCipher now id u s)) u
  = without id (cipher_ids_at now s u).
Proof.
  rewrite deleteCipher_store, cipher_ids_at_lookup, read_insert. reflexivity.
Qed.

Lemma deleteCipher_other_records now id u s id' :
  id' ≠ id →
  store_of (Storage.deleteCipher now id u s) !! Storage.cipher_key id'
  = s !! Storage.cipher_key id'.
Proof.
  intros Hne. rewrite deleteCipher_store.
  rewrite lookup_insert_ne by key_neq.
  apply lookup_delete_ne. intros Hk. by apply cipher_key_inj in Hk.
Qed.

(** X3. [deleteCipher] removes the record and strikes the id from the index
    of the user it is given: the record reads as absent at any later
    instant, that index is the old one without the id (no other id is
    dropped or reordered), [getAllCiphers] only returns records that were
    stored under other ids, and the records under other ids and the indexes
    of other users are untouched. *)
Theorem deleteCipher_removes_record_and_id now now' id userId s :
  let s' := store_of (Storage.deleteCipher now id userId s) in
  cipher_at now' s' id = None ∧
  cipher_ids_at now s' userId = without id (cipher_ids_at now s userId) ∧
  id ∉ cipher_ids_at now s' userId ∧
  (∀ c, c ∈ result (Storage.getAllCiphers now userId s') →
        ∃ id', id' ≠ id ∧ id' ∈ cipher_ids_at now s userId ∧
               cipher_at now s id' = Some c) ∧
  (∀ id', id' ≠ id →
          s' !! Storage.cipher_key id' = s !! Storage.cipher_key id') ∧
  (∀ u, u ≠ userId →
        s' !! Storage.ciphers_index_key u = s !! Storage.ciphers_index_key u).
Proof.
  cbv zeta. split_and!.
  - rewrite cipher_at_lookup, deleteCipher_store.
    rewrite read_insert_ne by key_neq. by rewrite read_delete.
  - apply deleteCipher_index.
  - rewrite deleteCipher_index. apply without_not_elem.
  - intros c Hc. rewrite getAllCiphers_run in Hc. cbn [result fst] in Hc.
    apply list_elem_of_omap in Hc as (id' & Hin & Hat).
    rewrite deleteCipher_index in Hin. apply without_elem in Hin as [Hne Hin].
    exists id'. split; [done |]. split; [done |].
    rewrite <- Hat. symmetry.
    by apply cipher_at_agree, deleteCipher_other_records.
  - intros id' Hne. by apply deleteCipher_other_records.
  - intros u Hne. rewrite deleteCipher_store.
    rewrite lookup_insert_ne.
    + apply lookup_delete_ne. key_neq.
    + intros Hk. apply Hne. unfold_keys. congruence.
Qed.

(** X4. Deleting a cipher that was just saved under a new id undoes the
    save for the owner: the index is again the one before the save and
    [getAllCiphers] returns what it returned before. *)
Theorem deleteCipher_undoes_saveCipher now c s :
  Cipher.id c ∉ cipher_ids_at now s (Cipher.userId c) →
  let s' := store_of (Storage.deleteCipher now (Cipher.id c) (Cipher.userId c)
                        (store_of (Storage.saveCipher now c s))) in
  cipher_ids_at now s' (Cipher.userId c) = cipher_ids_at now s (Cipher.userId c) ∧
  cipher_at now s' (Cipher.id c) = None ∧
  result (Storage.getAllCiphers now (Cipher.userId c) s')
  = result (Storage.getAllCiphers now (Cipher.userId c) s).
Proof.
  intros Hfresh. cbv zeta.
  assert (Hidx : cipher_ids_at now
            (store_of (Storage.deleteCipher now (Cipher.id c) (Cipher.userId c)
                         (store_of (Storage.saveCipher now c s))))
            (Cipher.userId c) = cipher_ids_at now s (Cipher.userId c)).
  { rewrite deleteCipher_index, saveCipher_index. cbv zeta.
    rewrite (proj2 (includes_not_elem _ _) Hfresh).
    by apply without_app_self. }
  split; [exact Hidx |]. split.
  - rewrite cipher_at_lookup, deleteCipher_store.
    rewrite read_insert_ne by key_neq. by rewrite read_delete.
  - rewrite !getAllCiphers_run. cbn [result fst]. rewrite Hidx.
    apply list_omap_ext, Forall2_same_length_lookup_2; [done |].
    intros i x y Hx Hy. assert (x = y) as -> by congruence.
    assert (Hne : y ≠ Cipher.id c).
    { intros ->. apply Hfresh. by eapply list_elem_of_lookup_2. }
    apply cipher_at_agree.
    rewrite deleteCipher_other_records by done.
    apply saveCipher_keeps; [| key_neq].
    intros Hk. by apply cipher_key_inj in Hk.
Qed.

Lemma deleteCipher_undoes_saveCipher_witness :
  let c := Cipher.mk "c9" "u1" 1 None "new" None false
             None None None None None None 0 2000 2000 None in
  let s' := store_of (Storage.deleteCipher 2000 (Cipher.id c) (Cipher.userId c)
                        (store_of (Storage.saveCipher 2000 c sample_store))) in
  cipher_ids_at 2000 s' (Cipher.userId c)
    = cipher_ids_at 2000 sample_store (Cipher.userId c) ∧
  cipher_at 2000 s' (Cipher.id c) = None ∧
  result (Storage.getAllCiphers 2000 (Cipher.userId c) s')
  = result (Storage.getAllCiphers 2000 (Cipher.userId c) sample_store).
Proof.
  apply (deleteCipher_undoes_saveCipher 2000
           (Cipher.mk "c9" "u1" 1 None "new" None false
              None None None None None None 0 2000 2000 None) sample_store).
  vm_compute. intros H. by repeat (apply elem_of_cons in H as [H | H]; [discriminate |]); inversion H.
Defined.

Lemma NoDup_without id ids : NoDup ids → NoDup (without id ids).
Proof. intros H. unfold without. by apply NoDup_filter. Qed.

Lemma NoDup_snoc_fresh (id : string) ids : NoDup ids → id ∉ ids → NoDup (ids ++ [id]).
Proof.
  intros H Hf. apply NoDup_app. split; [done |]. split.
  - intros x Hx Hx'. apply list_elem_of_singleton in Hx'. by subst.
  - apply NoDup_singleton.
Qed.

Lemma cipher_ids_at_other_user now c s u :
  u ≠ Cipher.userId c →
  cipher_ids_at now (store_of (Storage.saveCipher now c s)) u
  = cipher_ids_at now s u.
Proof.
  intros Hne. apply cipher_ids_at_agree, saveCipher_keeps; [key_neq |].
  intros Hk. apply Hne. unfold_keys. congruence.
Qed.

Lemma saveCipher_NoDup now c s u :
  NoDup (cipher_ids_at now s u) →
  NoDup (cipher_ids_at now (store_of (Storage.saveCipher now c s)) u).
Proof.
  intros H. destruct (decide (u = Cipher.userId c)) as [-> | Hne].
  - rewrite saveCipher_index. cbv zeta.
    destruct (includes _ _) eqn:E; [done |].
    apply NoDup_snoc_fresh; [done | by apply includes_not_elem].
  - by rewrite cipher_ids_at_other_user.
Qed.

Lemma deleteCipher_NoDup now id u' s u :
  NoDup (cipher_ids_at now s u) →
  NoDup (cipher_ids_at now (store_of (Storage.deleteCipher now id u' s)) u).
Proof.
  intros H. destruct (decide (u = u')) as [-> | Hne].
  - rewrite deleteCipher_index. by apply NoDup_without.
  - rewrite (cipher_ids_at_agree now s); [done |].
    rewrite deleteCipher_store. rewrite lookup_insert_ne.
    + apply lookup_delete_ne. key_neq.
    + intros Hk. apply Hne. unfold_keys. congruence.
Qed.

Lemma bulkMoveCiphers_loop_NoDup now stamp folderId u' u ids :
  ∀ s, NoDup (cipher_ids_at now s u) →
  NoDup (cipher_ids_at now
           (store_of (Storage.bulkMoveCiphers_loop now stamp ids folderId u' s)) u).
Proof.
  induction ids as [| a rest IH]; intros s H; [done |].
  cbn [Storage.bulkMoveCiphers_loop]. rewrite store_bind. apply IH.
  unfold Storage.bulkMoveCiphers_body. rewrite store_bind, getCipher_run.
  cbn [result store_of fst snd].
  destruct (cipher_at now s a) as [c |]; [| done].
  destruct (String.eqb _ _); [| done].
  by apply saveCipher_NoDup.
Qed.

(** X5. The cipher index never comes to list an id twice: when the index of
    a user has no repetition, it has none after any [saveCipher], any
    [deleteCipher] and any [bulkMoveCiphers], whoever these are for. *)
Theorem cipher_index_stays_duplicate_free now c id ids folderId other userId s :
  NoDup (cipher_ids_at now s userId) →
  NoDup (cipher_ids_at now (store_of (Storage.saveCipher now c s)) userId) ∧
  NoDup (cipher_ids_at now (store_of (Storage.deleteCipher now id other s)) userId) ∧
  NoDup (cipher_ids_at now
           (store_of (Storage.bulkMoveCiphers now ids folderId other s)) userId).
Proof.
  intros H. split_and!.
  - by apply saveCipher_NoDup.
  - by apply deleteCipher_NoDup.
  - rewrite bulkMoveCiphers_run. cbv zeta. cbn [store_of fst snd].
    rewrite (cipher_ids_at_agree now
               (store_of (Storage.bulkMoveCiphers_loop now now ids folderId other s)))
      by (apply lookup_insert_ne; key_neq).
    by apply bulkMoveCiphers_loop_NoDup.
Qed.

Lemma cipher_index_stays_duplicate_free_witness :
  NoDup (cipher_ids_at 2000
           (store_of (Storage.saveCipher 2000 sample_cipher sample_store)) "u1") ∧
  NoDup (cipher_ids_at 2000
           (store_of (Storage.deleteCipher 2000 "c1" "u1" sample_store)) "u1") ∧
  NoDup (cipher_ids_at 2000
           (store_of (Storage.bulkMoveCiphers 2000 ["c1"; "c1"] None "u1"
                        sample_store)) "u1").
Proof.
  apply (cipher_index_stays_duplicate_free 2000 sample_cipher "c1" ["c1"; "c1"]
           None "u1" "u1" sample_store).
  vm_compute. apply NoDup_singleton.
Defined.

(** ** Folder records, the folder index and the folder handlers *)

Lemma saveFolder_store now f s :
  store_of (Storage.saveFolder now f s) =
  let s1 := <[Storage.folder_key (Folder.id f) := Entry (VFolder f) None]> s in
  let index := folder_ids_at now s (Folder.userId f) in
  if includes index (Folder.id f) then s1
  else <[Storage.folders_index_key (Folder.userId f) :=
           Entry (VIds (index ++ [Folder.id f])) None]> s1.
Proof.
  cbv zeta. unfold Storage.saveFolder. rewrite store_bind.
  unfold kv_put at 1 2. cbn [result store_of fst snd].
  rewrite store_bind, getFolderIds_run. cbn [result store_of fst snd].
  rewrite (folder_ids_at_agree now s) by (apply lookup_insert_ne; key_neq).
  by destruct (includes _ _).
Qed.

Lemma saveFolder_index now f s :
  folder_ids_at now (store_of (Storage.saveFolder now f s)) (Folder.userId f) =
  let index := folder_ids_at now s (Folder.userId f) in
  if includes index (Folder.id f) then index else index ++ [Folder.id f].
Proof.
  cbv zeta. rewrite saveFolder_store. cbv zeta.
  destruct (includes _ _).
  - apply folder_ids_at_agree, lookup_insert_ne. key_neq.
  - rewrite folder_ids_at_lookup, read_insert. reflexivity.
Qed.

Lemma saveFolder_record now now' f s :
  folder_at now' (store_of (Storage.saveFolder now f s)) (Folder.id f) = Some f.
Proof.
  rewrite folder_at_lookup, saveFolder_store. cbv zeta.
  destruct (includes _ _).
  - by rewrite read_insert.
  - rewrite read_insert_ne by key_neq. by rewrite read_insert.
Qed.

Lemma saveFolder_listed now f s :
  Folder.id f ∈ folder_ids_at now (store_of (Storage.saveFolder now f s))
                  (Folder.userId f).
Proof.
  rewrite saveFolder_index. cbv zeta.
  destruct (includes _ _) eqn:E.
  - by apply includes_elem.
  - apply elem_of_app. right. by apply list_elem_of_singleton.
Qed.

Lemma saveFolder_run now f s :
  Storage.saveFolder now f s =
  (tt, store_of (Storage.saveFolder now f s),
   trace_of (Storage.saveFolder now f s)).
Proof. by destruct (Storage.saveFolder now f s) as [[[] ?] ?]. Qed.

Lemma handleCreateFolder_run now name userId uuid s :
  name ≠ "" →
  let folder := Folder.mk uuid userId name now now in
  let r := Folders.handleCreateFolder now (Some (FolderBody.mk (Some name)))
             userId uuid s in
  result r = jsonResponse (FolderJson (Folders.folderToResponse folder)) 200 ∧
  store_of r = store_of (Storage.saveFolder now folder s).
Proof.
  intros Hname. cbv zeta. unfold Folders.handleCreateFolder.
  cbn [FolderBody.name]. rewrite (truthy_Some _ Hname). cbn [negb default].
  unfold id. rewrite bind_run. by cbn [ret result store_of fst snd].
Qed.

Lemma handleGetFolder_run now userId id s :
  Folders.handleGetFolder now userId id s =
  (match folder_at now s id with
   | Some folder =>
       if String.eqb (Folder.userId folder) userId
       then jsonResponse (FolderJson (Folders.folderToResponse folder)) 200
       else errorResponse "Folder not found" 404
   | None => errorResponse "Folder not found" 404
   end, s, [KvGet (Storage.folder_key id)]).
Proof.
  unfold Folders.handleGetFolder. rewrite bind_run, getFolder_run.
  cbn [result store_of trace_of fst snd].
  destruct (folder_at now s id) as [f |]; [| done].
  by destruct (String.eqb _ _).
Qed.

Lemma handleGetFolders_result now userId s :
  result (Folders.handleGetFolders now userId s)
  = jsonResponse
      (FolderListJson
         (Folders.folderToResponse
            <$> omap (folder_at now s) (folder_ids_at now s userId))) 200.
Proof.
  unfold Folders.handleGetFolders. rewrite bind_run, getAllFolders_run.
  by cbn [ret result store_of trace_of fst snd].
Qed.

(** X6. A folder created with a non-empty name is answered with its id, its
    name and the instant of the call as revision date; from then on its
    owner gets it from [handleGetFolder] and finds it in the list of
    [handleGetFolders], and any other user asking for it by id is answered
    404. *)
Theorem handleCreateFolder_then_read now now' name userId uuid s :
  name ≠ "" →
  let folder := Folder.mk uuid userId name now now in
  let r := Folders.handleCreateFolder now (Some (FolderBody.mk (Some name)))
             userId uuid s in
  result r = jsonResponse (FolderJson (FolderResponse.mk uuid name now "folder")) 200 ∧
  result (Folders.handleGetFolder now' userId uuid (store_of r))
    = jsonResponse (FolderJson (FolderResponse.mk uuid name now "folder")) 200 ∧
  (∃ listed,
     result (Folders.handleGetFolders now userId (store_of r))
       = jsonResponse (FolderListJson listed) 200 ∧
     FolderResponse.mk uuid name now "folder" ∈ listed) ∧
  (∀ other, other ≠ userId →
     result (Folders.handleGetFolder now' other uuid (store_of r))
       = errorResponse "Folder not found" 404).
Proof.
  intros Hname. cbv zeta.
  destruct (handleCreateFolder_run now name userId uuid s Hname) as [Hres Hstore].
  cbv zeta in Hres, Hstore. rewrite Hstore.
  set (folder := Folder.mk uuid userId name now now) in *.
  assert (Hat : ∀ t, folder_at t (store_of (Storage.saveFolder now folder s)) uuid
                     = Some folder).
  { intros t. apply (saveFolder_record now t folder s). }
  split_and!.
  - exact Hres.
  - rewrite handleGetFolder_run. cbn [result fst]. rewrite Hat.
    cbn [Folder.userId folder]. by rewrite String.eqb_refl.
  - eexists. split; [apply handleGetFolders_result |].
    apply (list_elem_of_fmap_2 Folders.folderToResponse _ folder).
    apply list_elem_of_omap. exists uuid. split; [| apply Hat].
    apply (saveFolder_listed now folder s).
  - intros other Hne. rewrite handleGetFolder_run. cbn [result fst].
    rewrite Hat. cbn [Folder.userId folder].
    by rewrite (proj2 (String.eqb_neq userId other)).
Qed.

Lemma handleCreateFolder_then_read_witness :
  let r := Folders.handleCreateFolder 2000 (Some (FolderBody.mk (Some "Home")))
             "u1" "f2" sample_store in
  result r = jsonResponse (FolderJson (FolderResponse.mk "f2" "Home" 2000 "folder")) 200 ∧
  result (Folders.handleGetFolder 3000 "u1" "f2" (store_of r))
    = jsonResponse (FolderJson (FolderResponse.mk "f2" "Home" 2000 "folder")) 200 ∧
  (∃ listed,
     result (Folders.handleGetFolders 2000 "u1" (store_of r))
       = jsonResponse (FolderListJson listed) 200 ∧
     FolderResponse.mk "f2" "Home" 2000 "folder" ∈ listed) ∧
  (∀ other, other ≠ "u1" →
     result (Folders.handleGetFolder 3000 other "f2" (store_of r))
       = errorResponse "Folder not found" 404).
Proof.
  apply (handleCreateFolder_then_read 2000 3000 "Home" "u1" "f2" sample_store).
  discriminate.
Defined.

Lemma deleteFolder_store now id u s :
  store_of (Storage.deleteFolder now id u s) =
  <[Storage.folders_index_key u :=
      Entry (VIds (without id (folder_ids_at now s u))) None]>
    (delete (Storage.folder_key id) s).
Proof.
  unfold Storage.deleteFolder. rewrite store_bind.
  unfold kv_delete. cbn [result store_of fst snd].
  rewrite store_bind, getFolderIds_run. cbn [result store_of fst snd].
  rewrite (folder_ids_at_agree now s) by (apply lookup_delete_ne; key_neq).
  reflexivity.
Qed.

Lemma handleUpdateFolder_run now body userId id s f :
  folder_at now s id = Some f →
  Folder.userId f = userId →
  let renamed :=
    Folder.set_updatedAt now
      (if JS.truthy (FolderBody.name body)
       then Folder.set_name (default "" (FolderBody.name body)) f else f) in
  let r := Folders.handleUpdateFolder now (Some body) userId id s in
  result r = jsonResponse (FolderJson (Folders.folderToResponse renamed)) 200 ∧
  store_of r = store_of (Storage.saveFolder now renamed s).
Proof.
  intros Hf Hu. cbv zeta. unfold Folders.handleUpdateFolder.
  rewrite bind_run, getFolder_run. cbn [result store_of trace_of fst snd].
  rewrite Hf, Hu, String.eqb_refl. cbn [negb].
  rewrite bind_run. by cbn [ret result store_of fst snd].
Qed.

(** X7. [handleUpdateFolder] on a folder of the caller, stored under its own
    id: a non-empty [name] renames it, a missing or empty one keeps the
    name; either way the revision date becomes the instant of the call, the
    id, the owner and the creation date stay, the answer shows the folder
    as then stored, and the id is (back) in the owner's index. *)
Theorem handleUpdateFolder_renames now now' name userId id s f :
  folder_at now s id = Some f →
  Folder.userId f = userId →
  Folder.id f = id →
  let newName := if JS.truthy name then default "" name else Folder.name f in
  let r := Folders.handleUpdateFolder now (Some (FolderBody.mk name)) userId id s in
  result r = jsonResponse (FolderJson (FolderResponse.mk id newName now "folder")) 200 ∧
  folder_at now' (store_of r) id
    = Some (Folder.mk id userId newName (Folder.createdAt f) now) ∧
  id ∈ folder_ids_at now (store_of r) userId.
Proof.
  intros Hf Hu Hid. cbv zeta.
  destruct (handleUpdateFolder_run now (FolderBody.mk name) userId id s f Hf Hu)
    as [Hres Hstore].
  cbv zeta in Hres, Hstore. cbn [FolderBody.name] in Hres, Hstore.
  rewrite Hres, Hstore. clear Hres Hstore.
  set (renamed := Folder.set_updatedAt now
         (if JS.truthy name then Folder.set_name (default "" name) f else f)).
  assert (Hren : renamed
                 = Folder.mk id userId
                     (if JS.truthy name then default "" name else Folder.name f)
                     (Folder.createdAt f) now).
  { subst renamed. destruct f as [fid fu fn fc fup]. cbn in Hu, Hid. subst.
    by destruct (JS.truthy name). }
  split_and!.
  - by rewrite Hren.
  - rewrite <- Hren.
    assert (Hrid : Folder.id renamed = id) by (by rewrite Hren).
    pose proof (saveFolder_record now now' renamed s) as H.
    by rewrite Hrid in H.
  - assert (Hrid : Folder.id renamed = id) by (by rewrite Hren).
    assert (Hru : Folder.userId renamed = userId) by (by rewrite Hren).
    pose proof (saveFolder_listed now renamed s) as H.
    by rewrite Hrid, Hru in H.
Qed.

Lemma handleUpdateFolder_renames_witness :
  let r := Folders.handleUpdateFolder 2000 (Some (FolderBody.mk None)) "u1" "f1"
             sample_store in
  result r = jsonResponse (FolderJson (FolderResponse.mk "f1" "Work" 2000 "folder")) 200 ∧
  folder_at 3000 (store_of r) "f1" = Some (Folder.mk "f1" "u1" "Work" 1000 2000) ∧
  "f1" ∈ folder_ids_at 2000 (store_of r) "u1".
Proof.
  apply (handleUpdateFolder_renames 2000 3000 None "u1" "f1" sample_store
           sample_folder); reflexivity.
Defined.

(** X8. A folder that is missing, or that belongs to someone else, is out of
    reach: [handleGetFolder], [handleUpdateFolder] and [handleDeleteFolder]
    all answer 404 after a single read, whatever the body, and leave the
    namespace exactly as it was. *)
Theorem folder_handlers_refuse_foreign_folders now body userId id s :
  match folder_at now s id with
  | Some f => Folder.userId f ≠ userId
  | None => True
  end →
  Folders.handleGetFolder now userId id s
    = (errorResponse "Folder not found" 404, s, [KvGet (Storage.folder_key id)]) ∧
  Folders.handleUpdateFolder now body userId id s
    = (errorResponse "Folder not found" 404, s, [KvGet (Storage.folder_key id)]) ∧
  Folders.handleDeleteFolder now userId id s
    = (errorResponse "Folder not found" 404, s, [KvGet (Storage.folder_key id)]).
Proof.
  intros H.
  unfold Folders.handleGetFolder, Folders.handleUpdateFolder,
    Folders.handleDeleteFolder.
  rewrite !bind_run, getFolder_run. cbn [result store_of trace_of fst snd].
  destruct (folder_at now s id) as [f |]; [| done].
  by rewrite (proj2 (String.eqb_neq _ _) H).
Qed.

Lemma folder_handlers_refuse_foreign_folders_witness :
  Folders.handleGetFolder 2000 "u2" "f1" sample_store
    = (errorResponse "Folder not found" 404, sample_store,
       [KvGet (Storage.folder_key "f1")]) ∧
  Folders.handleUpdateFolder 2000 (Some (FolderBody.mk (Some "Mine"))) "u2" "f1"
      sample_store
    = (errorResponse "Folder not found" 404, sample_store,
       [KvGet (Storage.folder_key "f1")]) ∧
  Folders.handleDeleteFolder 2000 "u2" "f1" sample_store
    = (errorResponse "Folder not found" 404, sample_store,
       [KvGet (Storage.folder_key "f1")]).
Proof.
  apply (folder_handlers_refuse_foreign_folders 2000
           (Some (FolderBody.mk (Some "Mine"))) "u2" "f1" sample_store).
  vm_compute. discriminate.
Defined.

(** X9. After [handleDeleteFolder] of a folder of the caller, the folder is
    gone for good: [handleGetFolder] answers 404 at any later instant, the
    owner's index is the old one without the id, and [handleGetFolders]
    lists what the remaining ids of the index fetched before the
    deletion. *)
Theorem handleDeleteFolder_then_read now now' userId id s f :
  folder_at now s id = Some f →
  Folder.userId f = userId →
  let s' := store_of (Folders.handleDeleteFolder now userId id s) in
  result (Folders.handleGetFolder now' userId id s')
    = errorResponse "Folder not found" 404 ∧
  folder_ids_at now s' userId = without id (folder_ids_at now s userId) ∧
  result (Folders.handleGetFolders now userId s')
    = jsonResponse
        (FolderListJson
           (Folders.folderToResponse
              <$> omap (folder_at now s) (without id (folder_ids_at now s userId))))
        200.
Proof.
  intros Hf Hu. cbv zeta.
  assert (Hs : store_of (Folders.handleDeleteFolder now userId id s)
               = store_of (Storage.deleteFolder now id userId s)).
  { rewrite (handleDeleteFolder_run _ _ _ _ _ Hf Hu), deleteFolder_store.
    cbn [store_of fst snd].
    by rewrite (folder_ids_at_agree now s) by (apply lookup_delete_ne; key_neq). }
  rewrite Hs, deleteFolder_store.
  set (s' := <[_ := _]> (delete _ s)).
  assert (Hidx : folder_ids_at now s' userId
                 = without id (folder_ids_at now s userId)).
  { subst s'. rewrite folder_ids_at_lookup, read_insert. reflexivity. }
  split_and!.
  - rewrite handleGetFolder_run. cbn [result fst].
    rewrite folder_at_lookup. subst s'.
    rewrite read_insert_ne by key_neq. by rewrite read_delete.
  - exact Hidx.
  - rewrite handleGetFolders_result, Hidx. do 3 f_equal.
    apply list_omap_ext, Forall2_same_length_lookup_2; [done |].
    intros i x y Hx Hy. assert (x = y) as -> by congruence.
    apply list_elem_of_lookup_2, without_elem in Hy as [Hne _].
    apply folder_at_agree. subst s'.
    rewrite lookup_insert_ne by key_neq.
    apply lookup_delete_ne. intros Hk. by apply folder_key_inj in Hk.
Qed.

Lemma handleDeleteFolder_then_read_witness :
  let s' := store_of (Folders.handleDeleteFolder 2000 "u1" "f1" sample_store) in
  result (Folders.handleGetFolder 3000 "u1" "f1" s')
    = errorResponse "Folder not found" 404 ∧
  folder_ids_at 2000 s' "u1" = without "f1" (folder_ids_at 2000 sample_store "u1") ∧
  result (Folders.handleGetFolders 2000 "u1" s')
    = jsonResponse
        (FolderListJson
           (Folders.folderToResponse
              <$> omap (folder_at 2000 sample_store)
                    (without "f1" (folder_ids_at 2000 sample_store "u1"))))
        200.
Proof.
  apply (handleDeleteFolder_then_read 2000 3000 "u1" "f1" sample_store
           sample_folder); reflexivity.
Defined.

(** ** Cipher handlers *)

Lemma owned_own c userId :
  Cipher.userId c = userId → Ciphers.owned (Some c) userId = Some c.
Proof. intros <-. unfold Ciphers.owned. by rewrite String.eqb_refl. Qed.

Lemma owned_foreign now s id userId :
  match cipher_at now s id with
  | Some c => Cipher.userId c ≠ userId
  | None => True
  end →
  Ciphers.owned (cipher_at now s id) userId = None.
Proof.
  destruct (cipher_at now s id) as [c |]; [| done].
  intros H. unfold Ciphers.owned. by rewrite (proj2 (String.eqb_neq _ _) H).
Qed.

(** The common tail of the cipher mutations: save, stamp, answer. *)
Lemma save_and_stamp_run now c u (x : Response) s :
  (Storage.saveCipher now c ;; Storage.updateRevisionDate now u ;; ret x) s
  = (x,
     <[Storage.revision_key u := Entry (VDate now) None]>
       (store_of (Storage.saveCipher now c s)),
     trace_of (Storage.saveCipher now c s)
       ++ [KvPut (Storage.revision_key u) (VDate now) None]).
Proof.
  rewrite bind_run, bind_run, updateRevisionDate_run.
  by cbn [ret result store_of trace_of fst snd app].
Qed.

Lemma cipher_at_stamped now (s : gmap string entry) u e id :
  cipher_at now (<[Storage.revision_key u := e]> s) id = cipher_at now s id.
Proof. apply cipher_at_agree, lookup_insert_ne. key_neq. Qed.

Lemma cipher_ids_at_stamped now (s : gmap string entry) u e u' :
  cipher_ids_at now (<[Storage.revision_key u := e]> s) u' = cipher_ids_at now s u'.
Proof. apply cipher_ids_at_agree, lookup_insert_ne. key_neq. Qed.

(** What a mutation that saves [c'] in place of the cipher under [id]
    leaves behind. *)
Lemma saved_and_stamped now now' c' u (x : Response) s :
  let r := (Storage.saveCipher now c' ;; Storage.updateRevisionDate now u ;; ret x) s in
  result r = x ∧
  cipher_at now' (store_of r) (Cipher.id c') = Some c' ∧
  stored_revision now' (store_of r) u = Some now.
Proof.
  cbv zeta. rewrite save_and_stamp_run. cbn [result store_of fst snd].
  split_and!; [done | |].
  - rewrite cipher_at_stamped. apply saveCipher_record.
  - apply stored_revision_insert.
Qed.

Lemma handleDeleteCipher_run now userId id s c :
  cipher_at now s id = Some c → Cipher.userId c = userId →
  let c' := Cipher.set_updatedAt now (Cipher.set_deletedAt (Some now) c) in
  Ciphers.handleDeleteCipher now userId id s
  = (let r := (Storage.saveCipher now c' ;; Storage.updateRevisionDate now userId ;;
               ret (jsonResponse (CipherJson c' []) 200)) s in
     (result r, store_of r, KvGet (Storage.cipher_key id) :: trace_of r)).
Proof.
  intros Hc Hu. cbv zeta. unfold Ciphers.handleDeleteCipher.
  rewrite bind_run, getCipher_run. cbn [result store_of trace_of fst snd].
  by rewrite Hc, (owned_own _ _ Hu).
Qed.

Lemma handleRestoreCipher_run now userId id s c :
  cipher_at now s id = Some c → Cipher.userId c = userId →
  let c' := Cipher.set_updatedAt now (Cipher.set_deletedAt None c) in
  Ciphers.handleRestoreCipher now userId id s
  = (let r := (Storage.saveCipher now c' ;; Storage.updateRevisionDate now userId ;;
               ret (jsonResponse (CipherJson c' []) 200)) s in
     (result r, store_of r, KvGet (Storage.cipher_key id) :: trace_of r)).
Proof.
  intros Hc Hu. cbv zeta. unfold Ciphers.handleRestoreCipher.
  rewrite bind_run, getCipher_run. cbn [result store_of trace_of fst snd].
  by rewrite Hc, (owned_own _ _ Hu).
Qed.

Lemma handlePartialUpdateCipher_run now body userId id s c :
  cipher_at now s id = Some c → Cipher.userId c = userId →
  let c' := partially_updated now body c in
  Ciphers.handlePartialUpdateCipher now (Some body) userId id s
  = (let r := (Storage.saveCipher now c' ;; Storage.updateRevisionDate now userId ;;
               ret (jsonResponse (CipherJson c' []) 200)) s in
     (result r, store_of r, KvGet (Storage.cipher_key id) :: trace_of r)).
Proof.
  intros Hc Hu. cbv zeta. unfold Ciphers.handlePartialUpdateCipher.
  rewrite bind_run, getCipher_run. cbn [result store_of trace_of fst snd].
  rewrite Hc, (owned_own _ _ Hu). unfold partially_updated.
  by destruct (PartialBody.favorite body).
Qed.

Lemma handleUpdateCipher_run now body userId id s c :
  cipher_at now s id = Some c → Cipher.userId c = userId →
  let c' := CipherHandlers.updated now
              (default (UpdateBody.own body) (UpdateBody.cipher body)) c in
  CipherHandlers.handleUpdateCipher now (Some body) userId id s
  = (let r := (Storage.saveCipher now c' ;; Storage.updateRevisionDate now userId ;;
               ret (jsonResponse (CipherJson c' []) 200)) s in
     (result r, store_of r, KvGet (Storage.cipher_key id) :: trace_of r)).
Proof.
  intros Hc Hu. cbv zeta. unfold CipherHandlers.handleUpdateCipher.
  rewrite bind_run, getCipher_run. cbn [result store_of trace_of fst snd].
  rewrite Hc, (owned_own _ _ Hu).
  by destruct (UpdateBody.cipher body).
Qed.

(** X10. A cipher that is missing, or that belongs to someone else, is out
    of reach of every per-cipher handler: each answers 404 after a single
    read and leaves the namespace exactly as it was, whatever the body; the
    permanent deletion does not even start on the attachments. *)
Theorem cipher_handlers_refuse_foreign_ciphers now userId id s
    (partial : option PartialBody.t) (update : option UpdateBody.t)
    (deleteAllAttachmentsForCipher : Z → string → M unit) :
  match cipher_at now s id with
  | Some c => Cipher.userId c ≠ userId
  | None => True
  end →
  let refused :=
    (errorResponse "Cipher not found" 404, s, [KvGet (Storage.cipher_key id)]) in
  Ciphers.handleGetCipher now userId id s = refused ∧
  CipherHandlers.handleUpdateCipher now update userId id s = refused ∧
  Ciphers.handleDeleteCipher now userId id s = refused ∧
  CipherHandlers.handlePermanentDeleteCipher deleteAllAttachmentsForCipher
    now userId id s = refused ∧
  Ciphers.handleRestoreCipher now userId id s = refused ∧
  Ciphers.handlePartialUpdateCipher now partial userId id s = refused.
Proof.
  intros H. apply owned_foreign in H. cbv zeta.
  unfold Ciphers.handleGetCipher, CipherHandlers.handleUpdateCipher,
    Ciphers.handleDeleteCipher, CipherHandlers.handlePermanentDeleteCipher,
    Ciphers.handleRestoreCipher, Ciphers.handlePartialUpdateCipher.
  rewrite !bind_run, getCipher_run. cbn [result store_of trace_of fst snd].
  by rewrite H.
Qed.

Lemma cipher_handlers_refuse_foreign_ciphers_witness :
  let refused :=
    (errorResponse "Cipher not found" 404, sample_store,
     [KvGet (Storage.cipher_key "c1")]) in
  Ciphers.handleGetCipher 2000 "u2" "c1" sample_store = refused ∧
  CipherHandlers.handleUpdateCipher 2000 None "u2" "c1" sample_store = refused ∧
  Ciphers.handleDeleteCipher 2000 "u2" "c1" sample_store = refused ∧
  CipherHandlers.handlePermanentDeleteCipher
    (λ now cipherId, Storage.deleteAllAttachmentsByCipher now cipherId)
    2000 "u2" "c1" sample_store = refused ∧
  Ciphers.handleRestoreCipher 2000 "u2" "c1" sample_store = refused ∧
  Ciphers.handlePartialUpdateCipher 2000
    (Some (PartialBody.mk (Some None) (Some true))) "u2" "c1" sample_store = refused.
Proof.
  apply (cipher_handlers_refuse_foreign_ciphers 2000 "u2" "c1" sample_store).
  vm_compute. discriminate.
Defined.



(** X12. [handleUpdateCipher] on a cipher of the caller, stored under its
    own id: the cipher then readable under that id is the one in the
    answer; its id, owner, creation date and deletion mark are those of the
    stored cipher whatever the body says; a body without any cipher member
    changes nothing but [updatedAt]; and the user's revision stamp is the
    instant of the call. *)
Theorem handleUpdateCipher_keeps_identity now now' body userId id s c :
  cipher_at now s id = Some c →
  Cipher.userId c = userId →
  Cipher.id c = id →
  let r := CipherHandlers.handleUpdateCipher now (Some body) userId id s in
  ∃ c',
    result r = jsonResponse (CipherJson c' []) 200 ∧
    cipher_at now' (store_of r) id = Some c' ∧
    Cipher.id c' = id ∧ Cipher.userId c' = userId ∧
    Cipher.createdAt c' = Cipher.createdAt c ∧
    Cipher.deletedAt c' = Cipher.deletedAt c ∧
    Cipher.updatedAt c' = now ∧
    (default (UpdateBody.own body) (UpdateBody.cipher body)
       = CipherData.mk None None None None None None None None None None None None →
     c' = Cipher.set_updatedAt now c) ∧
    stored_revision now' (store_of r) userId = Some now.
Proof.
  intros Hc Hu Hid. cbv zeta.
  rewrite (handleUpdateCipher_run _ _ _ _ _ _ Hc Hu). cbv zeta.
  set (c' := CipherHandlers.updated now _ c).
  exists c'.
  pose proof (saved_and_stamped now now' c' userId
                (jsonResponse (CipherJson c' []) 200) s) as H.
  cbv zeta in H. change (Cipher.id c') with (Cipher.id c) in H.
  rewrite Hid in H. destruct H as (H1 & H2 & H3).
  cbn [result store_of fst snd] in *.
  split_and!; try done.
  intros He. subst c'. rewrite He. by destruct c.
Qed.

Lemma handleUpdateCipher_keeps_identity_witness :
  let body :=
    UpdateBody.mk None
      (CipherData.mk None (Some None) (Some "renamed") None (Some true)
         None None None None None None None) in
  let r := CipherHandlers.handleUpdateCipher 2000 (Some body) "u1" "c1"
             sample_store in
  ∃ c',
    result r = jsonResponse (CipherJson c' []) 200 ∧
    cipher_at 3000 (store_of r) "c1" = Some c' ∧
    Cipher.id c' = "c1" ∧ Cipher.userId c' = "u1" ∧
    Cipher.createdAt c' = Cipher.createdAt sample_cipher ∧
    Cipher.deletedAt c' = Cipher.deletedAt sample_cipher ∧
    Cipher.updatedAt c' = 2000 ∧
    (default (UpdateBody.own body) (UpdateBody.cipher body)
       = CipherData.mk None None None None None None None None None None None None →
     c' = Cipher.set_updatedAt 2000 sample_cipher) ∧
    stored_revision 3000 (store_of r) "u1" = Some 2000.
Proof.
  apply (handleUpdateCipher_keeps_identity 2000 3000 _ "u1" "c1" sample_store
           sample_cipher); reflexivity.
Defined.

Lemma save_and_stamp_local now c' u (x : Response) s k :
  k ≠ Storage.cipher_key (Cipher.id c') →
  k ≠ Storage.ciphers_index_key (Cipher.userId c') →
  k ≠ Storage.revision_key u →
  store_of ((Storage.saveCipher now c' ;; Storage.updateRevisionDate now u ;;
             ret x) s) !! k = s !! k.
Proof.
  intros H1 H2 H3. rewrite save_and_stamp_run. cbn [store_of fst snd].
  rewrite lookup_insert_ne by done. by apply saveCipher_keeps.
Qed.

(** X13. The mutations of one cipher are local. When the record under [id]
    carries that id, [handleUpdateCipher], [handleDeleteCipher],
    [handleRestoreCipher] and [handlePartialUpdateCipher] leave every key of
    the namespace as it was, apart from the record of that cipher, the
    cipher index of the caller and the revision stamp of the caller: other
    ciphers, folders, users and counters are untouched. *)
Theorem cipher_mutations_are_local now userId id s k
    (update : option UpdateBody.t) (partial : option PartialBody.t) :
  filed now s id = true →
  k ≠ Storage.cipher_key id →
  k ≠ Storage.ciphers_index_key userId →
  k ≠ Storage.revision_key userId →
  store_of (CipherHandlers.handleUpdateCipher now update userId id s) !! k = s !! k ∧
  store_of (Ciphers.handleDeleteCipher now userId id s) !! k = s !! k ∧
  store_of (Ciphers.handleRestoreCipher now userId id s) !! k = s !! k ∧
  store_of (Ciphers.handlePartialUpdateCipher now partial userId id s) !! k = s !! k.
Proof.
  intros Hf H1 H2 H3. unfold filed in Hf.
  destruct (cipher_at now s id) as [c |] eqn:Hc; cycle 1.
  { unfold CipherHandlers.handleUpdateCipher, Ciphers.handleDeleteCipher,
      Ciphers.handleRestoreCipher, Ciphers.handlePartialUpdateCipher.
    rewrite !store_bind, getCipher_run. cbn [result store_of fst snd].
    by rewrite Hc. }
  apply String.eqb_eq in Hf.
  destruct (decide (Cipher.userId c = userId)) as [Hu | Hu]; cycle 1.
  { unfold CipherHandlers.handleUpdateCipher, Ciphers.handleDeleteCipher,
      Ciphers.handleRestoreCipher, Ciphers.handlePartialUpdateCipher.
    rewrite !store_bind, getCipher_run. cbn [result store_of fst snd].
    rewrite Hc. unfold Ciphers.owned.
    by rewrite (proj2 (String.eqb_neq _ _) Hu). }
  assert (Hloc : ∀ c' (x : Response), Cipher.id c' = id → Cipher.userId c' = userId →
            store_of ((Storage.saveCipher now c' ;;
                       Storage.updateRevisionDate now userId ;; ret x) s) !! k
            = s !! k).
  { intros c' x Hid' Hu'. apply save_and_stamp_local; by rewrite ?Hid', ?Hu'. }
  split_and!.
  - destruct update as [body |].
    + rewrite (handleUpdateCipher_run _ _ _ _ _ _ Hc Hu). cbv zeta.
      cbn [store_of fst snd]. by apply Hloc.
    + unfold CipherHandlers.handleUpdateCipher.
      rewrite store_bind, getCipher_run. cbn [result store_of fst snd].
      by rewrite Hc, (owned_own _ _ Hu).
  - rewrite (handleDeleteCipher_run _ _ _ _ _ Hc Hu). cbv zeta.
    cbn [store_of fst snd]. apply Hloc; by destruct c.
  - rewrite (handleRestoreCipher_run _ _ _ _ _ Hc Hu). cbv zeta.
    cbn [store_of fst snd]. apply Hloc; by destruct c.
  - destruct partial as [body |].
    + rewrite (handlePartialUpdateCipher_run _ _ _ _ _ _ Hc Hu). cbv zeta.
      cbn [store_of fst snd].
      apply Hloc; unfold partially_updated;
        destruct c, (PartialBody.favorite body), (PartialBody.folderId body);
        done.
    + unfold Ciphers.handlePartialUpdateCipher.
      rewrite store_bind, getCipher_run. cbn [result store_of fst snd].
      by rewrite Hc, (owned_own _ _ Hu).
Qed.

Lemma cipher_mutations_are_local_witness :
  store_of (CipherHandlers.handleUpdateCipher 2000 None "u1" "c1" sample_store)
    !! Storage.cipher_key "c2" = sample_store !! Storage.cipher_key "c2" ∧
  store_of (Ciphers.handleDeleteCipher 2000 "u1" "c1" sample_store)
    !! Storage.cipher_key "c2" = sample_store !! Storage.cipher_key "c2" ∧
  store_of (Ciphers.handleRestoreCipher 2000 "u1" "c1" sample_store)
    !! Storage.cipher_key "c2" = sample_store !! Storage.cipher_key "c2" ∧
  store_of (Ciphers.handlePartialUpdateCipher 2000
              (Some (PartialBody.mk (Some None) None)) "u1" "c1" sample_store)
    !! Storage.cipher_key "c2" = sample_store !! Storage.cipher_key "c2".
Proof.
  apply (cipher_mutations_are_local 2000 "u1" "c1" sample_store
           (Storage.cipher_key "c2") None
           (Some (PartialBody.mk (Some None) None)));
    [reflexivity | discriminate | discriminate | discriminate].
Defined.

(** X14. [handlePermanentDeleteCipher] on a cipher of the caller answers 204
    and, whatever the attachment clean-up does to the namespace, leaves no
    record readable under the id, an index of the caller without the id,
    and the revision stamp at the instant of the call. *)
Theorem handlePermanentDeleteCipher_removes now now' userId id s c
    (deleteAllAttachmentsForCipher : Z → string → M unit) :
  cipher_at now s id = Some c →
  Cipher.userId c = userId →
  let r := CipherHandlers.handlePermanentDeleteCipher
             deleteAllAttachmentsForCipher now userId id s in
  result r = emptyResponse 204 ∧
  cipher_at now' (store_of r) id = None ∧
  id ∉ cipher_ids_at now' (store_of r) userId ∧
  stored_revision now' (store_of r) userId = Some now.
Proof.
  intros Hc Hu. cbv zeta.
  unfold CipherHandlers.handlePermanentDeleteCipher.
  rewrite bind_run, getCipher_run. cbn [result store_of trace_of fst snd].
  rewrite Hc, (owned_own _ _ Hu).
  rewrite bind_run, bind_run, bind_run, updateRevisionDate_run.
  cbn [ret result store_of trace_of fst snd].
  set (s1 := store_of (deleteAllAttachmentsForCipher now id s)).
  rewrite deleteCipher_store.
  split_and!; [done | | |].
  - rewrite cipher_at_stamped, cipher_at_lookup.
    rewrite read_insert_ne by key_neq. by rewrite read_delete.
  - rewrite cipher_ids_at_stamped, cipher_ids_at_lookup, read_insert.
    apply without_not_elem.
  - apply stored_revision_insert.
Qed.

Lemma handlePermanentDeleteCipher_removes_witness :
  let r := CipherHandlers.handlePermanentDeleteCipher
             (λ now cipherId, Storage.deleteAllAttachmentsByCipher now cipherId)
             2000 "u1" "c1" sample_store in
  result r = emptyResponse 204 ∧
  cipher_at 3000 (store_of r) "c1" = None ∧
  "c1" ∉ cipher_ids_at 3000 (store_of r) "u1" ∧
  stored_revision 3000 (store_of r) "u1" = Some 2000.
Proof.
  apply (handlePermanentDeleteCipher_removes 2000 3000 "u1" "c1" sample_store
           sample_cipher); reflexivity.
Defined.

(** ** Listings: [handleGetCiphers] and [handleSync] *)

Lemma getAttachmentsByCipher_loop_run now ids acc s :
  Storage.getAttachmentsByCipher_loop now ids acc s =
  (acc ++ omap (attachment_at now s) ids, s,
   (λ id, KvGet (Storage.attachment_key id)) <$> ids).
Proof.
  revert acc. induction ids as [| id rest IH]; intros acc.
  - simpl. unfold ret. by rewrite app_nil_r.
  - cbn [Storage.getAttachmentsByCipher_loop]. rewrite bind_run.
    change (Storage.getAttachment now id s)
      with (attachment_at now s id, s, [KvGet (Storage.attachment_key id)]).
    unfold result, store_of, trace_of; cbn [fst snd].
    rewrite IH. cbn [fst snd omap list_omap fmap list_fmap app].
    destruct (attachment_at now s id); [| done].
    by rewrite <- app_assoc.
Qed.

Lemma getAttachmentsByCipher_run now cipherId s :
  Storage.getAttachmentsByCipher now cipherId s =
  (attachments_at now s cipherId, s,
   KvGet (Storage.attachments_index_key cipherId)
   :: ((λ id, KvGet (Storage.attachment_key id))
         <$> attachment_ids_at now s cipherId)).
Proof.
  unfold Storage.getAttachmentsByCipher. rewrite bind_run.
  change (Storage.getAttachmentIdsByCipher now cipherId s)
    with (attachment_ids_at now s cipherId, s,
          [KvGet (Storage.attachments_index_key cipherId)]).
  unfold result, store_of, trace_of; cbn [fst snd].
  by rewrite getAttachmentsByCipher_loop_run.
Qed.

Lemma cipherResponses_loop_run now ciphers acc s :
  let r := CipherHandlers.cipherResponses_loop now ciphers acc s in
  result r = acc ++ ((λ c, (c, attachments_at now s (Cipher.id c))) <$> ciphers) ∧
  store_of r = s ∧
  Forall (λ e, is_write e = false) (trace_of r).
Proof.
  cbv zeta. revert acc. induction ciphers as [| c rest IH]; intros acc.
  - cbn. rewrite app_nil_r. by split_and!.
  - cbn [CipherHandlers.cipherResponses_loop].
    rewrite bind_run, getAttachmentsByCipher_run.
    cbn [result store_of trace_of fst snd].
    destruct (IH (acc ++ [(c, attachments_at now s (Cipher.id c))]))
      as (H1 & H2 & H3).
    rewrite H1, H2. split_and!; [| done |].
    + by rewrite <- app_assoc.
    + constructor; [done |]. apply Forall_app. split; [| done].
      apply gets_are_not_writes.
Qed.

Lemma cipherResponses_loop_read_only now ciphers acc :
  read_only (CipherHandlers.cipherResponses_loop now ciphers acc).
Proof.
  intros s. by destruct (cipherResponses_loop_run now ciphers acc s) as (_ & ? & ?).
Qed.

Lemma handleGetCiphers_result now deleted userId s :
  result (CipherHandlers.handleGetCiphers now deleted userId s)
  = mkReply 200
      ((λ c, (c, attachments_at now s (Cipher.id c)))
         <$> (if match deleted with Some v => String.eqb v "true" | None => false end
              then omap (cipher_at now s) (cipher_ids_at now s userId)
              else filter (λ c, Cipher.deletedAt c = None)
                     (omap (cipher_at now s) (cipher_ids_at now s userId)))).
Proof.
  unfold CipherHandlers.handleGetCiphers.
  rewrite bind_run, getAllCiphers_run. cbn [result store_of trace_of fst snd].
  rewrite bind_run. cbn [ret result store_of trace_of fst snd].
  match goal with
  | |- context [CipherHandlers.cipherResponses_loop now ?l [] s] =>
      destruct (cipherResponses_loop_run now l [] s) as (H1 & _ & _)
  end.
  by rewrite H1.
Qed.

Lemma handleGetCiphers_read_only now deleted userId :
  read_only (CipherHandlers.handleGetCiphers now deleted userId).
Proof.
  unfold CipherHandlers.handleGetCiphers, Storage.getAllCiphers,
    Storage.getCipherIds.
  pose proof getAllCiphers_loop_read_only.
  pose proof cipherResponses_loop_read_only.
  auto 20 with frame.
Qed.

Lemma handleSync_read_only now userId : read_only (Sync.handleSync now userId).
Proof.
  unfold Sync.handleSync. apply read_only_bind; [apply getUserById_read_only |].
  intros [user |]; [| apply read_only_ret].
  pose proof getAllCiphers_loop_read_only.
  pose proof getAllFolders_loop_read_only.
  pose proof cipherResponses_loop_read_only.
  unfold Storage.getAllCiphers, Storage.getCipherIds, Storage.getAllFolders,
    Storage.getFolderIds.
  auto 20 with frame.
Qed.

(** X15. [handleGetCiphers] lists the ciphers of the caller's index, in
    index order and each with its attachments, and leaves out those with a
    deletion mark unless the query says [deleted=true]; it writes nothing. *)
Theorem handleGetCiphers_hides_deleted now deleted userId s :
  let all := omap (cipher_at now s) (cipher_ids_at now s userId) in
  let shown :=
    if bool_decide (deleted = Some "true") then all
    else filter (λ c, Cipher.deletedAt c = None) all in
  result (CipherHandlers.handleGetCiphers now deleted userId s)
    = mkReply 200 ((λ c, (c, attachments_at now s (Cipher.id c))) <$> shown) ∧
  read_only (CipherHandlers.handleGetCiphers now deleted userId).
Proof.
  cbv zeta. split.
  - rewrite handleGetCiphers_result. do 2 f_equal.
    destruct deleted as [v |].
    + destruct (String.eqb_spec v "true") as [-> | Hne].
      * by rewrite bool_decide_eq_true_2.
      * rewrite bool_decide_eq_false_2; [done | congruence].
    + by rewrite bool_decide_eq_false_2.
  - apply handleGetCiphers_read_only.
Qed.

(** X16. [handleSync] writes nothing. For an unknown user it answers 404;
    for a known one it returns the profile of that user, the folders of the
    user's folder index and every cipher of the user's cipher index, the
    soft-deleted ones included, each with its attachments: the folders of
    [handleGetFolders] and the ciphers of [handleGetCiphers] with
    [deleted=true]. *)
Theorem handleSync_returns_the_vault now userId s :
  read_only (Sync.handleSync now userId) ∧
  result (Sync.handleSync now userId s) =
    match user_at now s userId with
    | None => Sync.Refused (errorResponse "User not found" 404)
    | Some user =>
        Sync.SyncJson (Accounts.profileOf user)
          (Folders.folderToResponse
             <$> omap (folder_at now s) (folder_ids_at now s userId))
          (reply_data
             (result (CipherHandlers.handleGetCiphers now (Some "true") userId s)))
    end.
Proof.
  split.
  - apply handleSync_read_only.
  - unfold Sync.handleSync. rewrite bind_run.
    destruct (getUserById_read_only now userId s) as [Hs _]. rewrite Hs.
    fold (user_at now s userId).
    destruct (user_at now s userId) as [user |]; [| done].
    rewrite bind_run, getAllCiphers_run. cbn [result store_of trace_of fst snd].
    rewrite bind_run, getAllFolders_run. cbn [result store_of trace_of fst snd].
    rewrite bind_run. cbn [ret result store_of trace_of fst snd].
    rewrite handleGetCiphers_result. cbn [reply_data String.eqb Ascii.eqb Bool.eqb].
    destruct (cipherResponses_loop_run now
                (omap (cipher_at now s) (cipher_ids_at now s userId)) [] s)
      as (H1 & H2 & _).
    by rewrite H1.
Qed.

(** ** The rest of the storage service *)

Lemma getCiphersByIds_loop_run now ids userId acc s :
  Storage.getCiphersByIds_loop now ids userId acc s =
  (acc ++ filter (λ c, Cipher.userId c = userId) (omap (cipher_at now s) ids), s,
   (λ id, KvGet (Storage.cipher_key id)) <$> ids).
Proof.
  revert acc. induction ids as [| id rest IH]; intros acc.
  - simpl. unfold ret. by rewrite app_nil_r.
  - cbn [Storage.getCiphersByIds_loop]. rewrite bind_run, getCipher_run.
    unfold result, store_of, trace_of; cbn [fst snd].
    rewrite IH. cbn [fst snd omap list_omap fmap list_fmap app].
    destruct (cipher_at now s id) as [c |]; [| done].
    fold (omap (cipher_at now s) rest). rewrite filter_cons.
    destruct (String.eqb_spec (Cipher.userId c) userId) as [Hu | Hu].
    + rewrite decide_True by done. by rewrite <- app_assoc.
    + by rewrite decide_False by done.
Qed.

(** X17. [getCiphersByIds] returns, in the order of the request, the ciphers
    readable under the given ids that belong to the user, and no cipher of
    anyone else; it issues one [get] per id and writes nothing. *)
Theorem getCiphersByIds_returns_owned_only now ids userId s :
  let r := Storage.getCiphersByIds now ids userId s in
  result r = filter (λ c, Cipher.userId c = userId) (omap (cipher_at now s) ids) ∧
  (∀ c, c ∈ result r → Cipher.userId c = userId) ∧
  store_of r = s ∧
  trace_of r = (λ id, KvGet (Storage.cipher_key id)) <$> ids.
Proof.
  cbv zeta. unfold Storage.getCiphersByIds. rewrite getCiphersByIds_loop_run.
  cbn [result store_of trace_of fst snd app]. split_and!; try done.
  intros c Hc. by apply list_elem_of_filter in Hc as [? _].
Qed.

(** X18. A refresh token is good for thirty days: from [saveRefreshToken]
    on, [getRefreshTokenUserId] gives the user until 2 592 000 000 ms have
    passed and nothing from then on; after [deleteRefreshToken] it gives
    nothing at once; and tokens other than the one saved read as before. *)
Theorem refresh_token_lives_thirty_days now later token userId s :
  let s' := store_of (Storage.saveRefreshToken now token userId s) in
  result (Storage.getRefreshTokenUserId later token s')
    = (if later <? now + 2592000000 then Some userId else None) ∧
  result (Storage.getRefreshTokenUserId later token
            (store_of (Storage.deleteRefreshToken token s'))) = None ∧
  (∀ other, other ≠ token →
     result (Storage.getRefreshTokenUserId later other s')
     = result (Storage.getRefreshTokenUserId later other s)).
Proof.
  cbv zeta. unfold Storage.getRefreshTokenUserId, Storage.saveRefreshToken,
    Storage.deleteRefreshToken.
  rewrite !result_bind.
  unfold kv_get, kv_put, kv_delete, ret. cbn [result store_of fst snd fmap option_fmap option_map].
  split_and!.
  - unfold read. rewrite lookup_insert_eq. unfold live. cbn [e_expiration e_value].
    change (30 * 24 * 60 * 60 * 1000) with 2592000000.
    by destruct (later <? now + 2592000000).
  - by rewrite read_delete.
  - intros other Hne. rewrite result_bind. cbn [result store_of fst snd].
    rewrite read_insert_ne; [done |]. key_neq.
Qed.

Lemma getRevisionDate_run now u s :
  Storage.getRevisionDate now u s =
  (default now (stored_revision now s u), s, [KvGet (Storage.revision_key u)]).
Proof. reflexivity. Qed.

(** X19. The revision stamp round trip: what [updateRevisionDate] writes for
    a user is what [getRevisionDate] and [handleGetRevisionDate] return at
    any later instant, and the stamps of other users are as before. A read
    stores nothing, so while no stamp is stored each read answers with its
    own instant. *)
Theorem revision_stamp_round_trip now later userId s :
  let s' := store_of (Storage.updateRevisionDate now userId s) in
  result (Storage.getRevisionDate later userId s') = now ∧
  result (Accounts.handleGetRevisionDate later userId s')
    = jsonResponse (NumberJson now) 200 ∧
  (∀ other, other ≠ userId →
     stored_revision later s' other = stored_revision later s other) ∧
  store_of (Storage.getRevisionDate later userId s) = s ∧
  (stored_revision later s userId = None →
   result (Storage.getRevisionDate later userId s) = later).
Proof.
  cbv zeta. rewrite updateRevisionDate_run. cbn [store_of fst snd].
  unfold Accounts.handleGetRevisionDate.
  rewrite result_bind, !getRevisionDate_run. cbn [ret result store_of fst snd].
  rewrite stored_revision_insert. cbn [default].
  split_and!; try done.
  - intros other Hne. unfold stored_revision.
    rewrite read_insert_ne; [done |].
    intros Hk. apply revision_key_inj in Hk. congruence.
  - by intros ->.
Qed.

Lemma getUser_run now email s :
  Storage.getUser now email s =
  (nonempty (read now s (Storage.user_key email)) ≫= as_user, s,
   [KvGet (Storage.user_key email)]).
Proof. reflexivity. Qed.

Lemma user_key_fold email email' :
  JS.toLowerCase email = JS.toLowerCase email' →
  Storage.user_key email = Storage.user_key email'.
Proof. unfold Storage.user_key. by intros ->. Qed.



(** ** Attachments *)

Lemma attachment_ids_at_lookup now s cipherId :
  attachment_ids_at now s cipherId
  = default [] (nonempty (read now s (Storage.attachments_index_key cipherId))
                  ≫= as_ids).
Proof. reflexivity. Qed.

Lemma attachment_at_lookup now s id :
  attachment_at now s id
  = nonempty (read now s (Storage.attachment_key id)) ≫= as_attachment.
Proof. reflexivity. Qed.

Lemma attachment_key_inj a b :
  Storage.attachment_key a = Storage.attachment_key b → a = b.
Proof. unfold_keys. congruence. Qed.

Lemma getAttachmentIdsByCipher_run now cipherId s :
  Storage.getAttachmentIdsByCipher now cipherId s =
  (attachment_ids_at now s cipherId, s,
   [KvGet (Storage.attachments_index_key cipherId)]).
Proof. reflexivity. Qed.

Lemma addAttachmentToCipher_store now cipherId a s :
  store_of (Storage.addAttachmentToCipher now cipherId a s) =
  let ids := attachment_ids_at now s cipherId in
  if includes ids a then s
  else <[Storage.attachments_index_key cipherId := Entry (VIds (ids ++ [a])) None]> s.
Proof.
  cbv zeta. unfold Storage.addAttachmentToCipher.
  rewrite store_bind, getAttachmentIdsByCipher_run.
  cbn [result store_of fst snd].
  by destruct (includes _ _).
Qed.

Lemma removeAttachmentFromCipher_store now cipherId a s :
  store_of (Storage.removeAttachmentFromCipher now cipherId a s) =
  <[Storage.attachments_index_key cipherId :=
      Entry (VIds (without a (attachment_ids_at now s cipherId))) None]> s.
Proof. reflexivity. Qed.

(** X21. The attachment index of a cipher: [addAttachmentToCipher] makes
    the id a member, adding it at the end when it is new and writing
    nothing when it is there already; [removeAttachmentFromCipher] then
    strikes it, and for an id that was new gives back the index as it
    was. *)
Theorem attachment_index_add_then_remove now later cipherId a s :
  let ids := attachment_ids_at now s cipherId in
  let added := Storage.addAttachmentToCipher now cipherId a s in
  let removed := Storage.removeAttachmentFromCipher now cipherId a (store_of added) in
  attachment_ids_at later (store_of added) cipherId
    = (if includes ids a then attachment_ids_at later s cipherId else ids ++ [a]) ∧
  (a ∈ ids → store_of added = s ∧ writes (trace_of added) = []) ∧
  a ∈ attachment_ids_at now (store_of added) cipherId ∧
  a ∉ attachment_ids_at later (store_of removed) cipherId ∧
  (a ∉ ids → attachment_ids_at later (store_of removed) cipherId = ids).
Proof.
  cbv zeta.
  rewrite removeAttachmentFromCipher_store, addAttachmentToCipher_store. cbv zeta.
  unfold Storage.addAttachmentToCipher.
  rewrite trace_bind, getAttachmentIdsByCipher_run.
  cbn [result store_of trace_of fst snd].
  destruct (includes (attachment_ids_at now s cipherId) a) eqn:E.
  - apply includes_elem in E. split_and!; try done.
    rewrite attachment_ids_at_lookup, read_insert. apply without_not_elem.
  - apply includes_not_elem in E. split_and!; try done.
    + by rewrite attachment_ids_at_lookup, read_insert.
    + rewrite attachment_ids_at_lookup, read_insert. cbn.
      apply elem_of_app. right. by apply list_elem_of_singleton.
    + rewrite attachment_ids_at_lookup, read_insert. apply without_not_elem.
    + intros _. rewrite attachment_ids_at_lookup, read_insert. cbn [mbind option_bind nonempty as_ids default].
      rewrite attachment_ids_at_lookup, read_insert. cbn [mbind option_bind nonempty as_ids default].
      by apply without_app_self.
Qed.

Lemma deleteAttachments_loop_lookup ids s k :
  store_of (Storage.deleteAttachments_loop ids s) !! k
  = if bool_decide (k ∈ Storage.attachment_key <$> ids) then None else s !! k.
Proof.
  revert s. induction ids as [| id rest IH]; intros s.
  - cbn. by rewrite bool_decide_eq_false_2 by apply not_elem_of_nil.
  - cbn [Storage.deleteAttachments_loop]. rewrite store_bind.
    unfold Storage.deleteAttachment, kv_delete.
    cbn [result store_of fst snd]. rewrite IH. rewrite fmap_cons.
    destruct (decide (k = Storage.attachment_key id)) as [-> | Hne].
    + rewrite lookup_delete_eq.
      rewrite (bool_decide_eq_true_2 (_ ∈ _ :: _)) by (apply elem_of_cons; by left).
      by destruct (bool_decide _).
    + rewrite lookup_delete_ne by done.
      apply (f_equal (λ b : bool, if b then None else s !! k)).
      apply bool_decide_ext. rewrite elem_of_cons. naive_solver.
Qed.

Lemma deleteAllAttachmentsByCipher_store now cipherId s :
  store_of (Storage.deleteAllAttachmentsByCipher now cipherId s)
  = delete (Storage.attachments_index_key cipherId)
      (store_of (Storage.deleteAttachments_loop
                   (attachment_ids_at now s cipherId) s)).
Proof.
  unfold Storage.deleteAllAttachmentsByCipher.
  rewrite store_bind, getAttachmentIdsByCipher_run.
  cbn [result store_of fst snd]. by rewrite store_bind.
Qed.

(** X22. [deleteAllAttachmentsByCipher] clears a cipher of its attachments:
    afterwards the cipher has no attachment index and no attachment, every
    attachment the index named is unreadable, and all keys other than
    those records and that index are as before. *)
Theorem deleteAllAttachmentsByCipher_clears now later cipherId s :
  let ids := attachment_ids_at now s cipherId in
  let s' := store_of (Storage.deleteAllAttachmentsByCipher now cipherId s) in
  attachment_ids_at later s' cipherId = [] ∧
  attachments_at later s' cipherId = [] ∧
  (∀ id, id ∈ ids → attachment_at later s' id = None) ∧
  (∀ k, k ≠ Storage.attachments_index_key cipherId →
        k ∉ Storage.attachment_key <$> ids → s' !! k = s !! k).
Proof.
  cbv zeta. rewrite deleteAllAttachmentsByCipher_store.
  assert (Hidx : attachment_ids_at later
                   (delete (Storage.attachments_index_key cipherId)
                      (store_of (Storage.deleteAttachments_loop
                                   (attachment_ids_at now s cipherId) s)))
                   cipherId = []).
  { by rewrite attachment_ids_at_lookup, read_delete. }
  split_and!.
  - exact Hidx.
  - unfold attachments_at. by rewrite Hidx.
  - intros id Hid. rewrite attachment_at_lookup. unfold read.
    rewrite lookup_delete_ne by key_neq.
    rewrite deleteAttachments_loop_lookup.
    rewrite bool_decide_eq_true_2; [done |].
    by apply list_elem_of_fmap_2.
  - intros k Hk Hn. rewrite lookup_delete_ne by done.
    rewrite deleteAttachments_loop_lookup.
    by rewrite bool_decide_eq_false_2.
Qed.


(** ** The login guard and the request counters, key by key *)

Lemma login_key_fold email email' :
  JS.toLowerCase email = JS.toLowerCase email' →
  RateLimit.login_key email = RateLimit.login_key email'.
Proof. unfold RateLimit.login_key. by intros ->. Qed.

Lemma login_key_other email email' :
  JS.toLowerCase email ≠ JS.toLowerCase email' →
  RateLimit.login_key email ≠ RateLimit.login_key email'.
Proof.
  intros Hne Hk. apply Hne.
  cbv [RateLimit.login_key RateLimit.LOGIN_ATTEMPTS String.append] in Hk.
  congruence.
Qed.




Lemma colon_free_uint d :
  colon_free (NilEmpty.string_of_uint d) = true.
Proof. induction d; cbn; auto. Qed.

Lemma colon_free_toString n : colon_free (JS.toString n) = true.
Proof.
  unfold JS.toString. destruct (Z.to_int n) as [d | d];
    cbn [NilZero.string_of_int].
  - destruct d; cbn; auto using colon_free_uint.
  - cbn. destruct d; cbn; auto using colon_free_uint.
Qed.

Lemma colon_free_with_colon a b : colon_free (a +:+ String ":" b) = false.
Proof.
  induction a as [| c r IH]; [done |].
  simpl. rewrite IH. apply andb_false_r.
Qed.

(** The text after the last colon of a counter key is the window, so the
    key tells identifier and window apart. *)
Lemma colon_split a a' d d' :
  colon_free d = true → colon_free d' = true →
  a +:+ ":" +:+ d = a' +:+ ":" +:+ d' → a = a' ∧ d = d'.
Proof.
  intros Hd Hd'. change (":" +:+ d) with (String ":" d).
  change (":" +:+ d') with (String ":" d').
  revert a'. induction a as [| c r IH]; intros [| c' r'] H;
    cbn [String.append] in H.
  - by injection H.
  - injection H as _ Hr. rewrite Hr, colon_free_with_colon in Hd. done.
  - injection H as _ Hr. rewrite <- Hr, colon_free_with_colon in Hd'. done.
  - injection H as -> H. by destruct (IH _ H) as [-> ->].
Qed.

Lemma toString_inj n m : JS.toString n = JS.toString m → n = m.
Proof.
  intros H. apply (f_equal JS.parseInt) in H.
  rewrite !parseInt_toString in H. congruence.
Qed.

Lemma api_key_inj identifier identifier' w w' :
  RateLimit.api_key identifier w = RateLimit.api_key identifier' w' →
  identifier = identifier' ∧ w = w'.
Proof.
  intros H. cbv [RateLimit.api_key RateLimit.API_RATE] in H.
  assert (H' : identifier +:+ ":" +:+ JS.toString w
               = identifier' +:+ ":" +:+ JS.toString w').
  { cbv [String.append] in H |- *. congruence. }
  apply colon_split in H' as [-> Hw]; try apply colon_free_toString.
  by apply toString_inj in Hw as ->.
Qed.

(** X26. Every identifier has a counter of its own for every window: an
    increment made for one identifier in one window changes nothing in what
    [checkApiRateLimit] answers for another identifier or in another
    window, even when an identifier contains colons. *)
Theorem api_counters_are_separate t t' identifier identifier' s :
  (identifier', window_of t') ≠ (identifier, window_of t) →
  result (RateLimit.checkApiRateLimit t' identifier'
            (store_of (RateLimit.incrementApiCount t identifier s)))
  = result (RateLimit.checkApiRateLimit t' identifier' s).
Proof.
  intros Hne. rewrite incrementApiCount_run. cbv zeta. cbn [store_of fst snd].
  rewrite !checkApiRateLimit_run. cbv zeta. cbn [result fst].
  rewrite read_insert_ne; [done |].
  intros Hk. apply api_key_inj in Hk as [-> Hw].
  apply Hne. unfold window_of. by rewrite Hw.
Qed.

Lemma api_counters_are_separate_witness :
  result (RateLimit.checkApiRateLimit 60000 "u1:203.0.113.7"
            (store_of (RateLimit.incrementApiCount 59999 "u1:203.0.113.7" ∅)))
  = result (RateLimit.checkApiRateLimit 60000 "u1:203.0.113.7" ∅).
Proof.
  apply (api_counters_are_separate 59999 60000 "u1:203.0.113.7" "u1:203.0.113.7" ∅).
  vm_compute. discriminate.
Defined.

(** ** Accounts *)

Lemma getUser_of_entry later email user (s : gmap string entry) :
  s !! Storage.user_key email = Some (Entry (VUser user) None) →
  result (Storage.getUser later email s) = Some user.
Proof. intros H. rewrite getUser_run. cbn [result fst]. unfold read. by rewrite H. Qed.

Lemma getUserById_of_entries later id user (s : gmap string entry) :
  s !! Storage.userid_key id
    = Some (Entry (VText (JS.toLowerCase (User.email user))) None) →
  s !! Storage.user_key (User.email user) = Some (Entry (VUser user) None) →
  User.email user ≠ "" →
  result (Storage.getUserById later id s) = Some user.
Proof.
  intros H1 H2 Hne.
  rewrite (getUserById_run later id s (JS.toLowerCase (User.email user)) user);
    [done | | |].
  - unfold read. by rewrite H1.
  - by apply toLowerCase_nonempty.
  - rewrite (user_key_fold (JS.toLowerCase (User.email user)) (User.email user))
      by apply toLowerCase_idem.
    unfold read. by rewrite H2.
Qed.

Lemma truthy_inv (x : option string) :
  JS.truthy x = true → ∃ v, x = Some v ∧ v ≠ "".
Proof.
  destruct x as [[| c r] |]; try done. intros _. by eexists.
Qed.


(** X28. [handleVerifyPassword] only reads, and answers 200 exactly when the
    user exists and the body carries a non-empty hash equal to the stored
    master password hash. *)
Theorem handleVerifyPassword_accepts_only_the_stored_hash now body userId s :
  read_only (Accounts.handleVerifyPassword now body userId) ∧
  (status (result (Accounts.handleVerifyPassword now body userId s)) = 200 ↔
   ∃ user hash,
     user_at now s userId = Some user ∧
     body = Some (PasswordBody.mk (Some hash)) ∧
     hash ≠ "" ∧ hash = User.masterPasswordHash user).
Proof.
  split.
  - unfold Accounts.handleVerifyPassword.
    apply read_only_bind; [apply getUserById_read_only |].
    intros [user |]; [| apply read_only_ret].
    destruct body as [b |]; [| apply read_only_ret].
    destruct (negb _); [apply read_only_ret |].
    destruct (negb _); apply read_only_ret.
  - unfold Accounts.handleVerifyPassword. rewrite result_bind.
    destruct (getUserById_read_only now userId s) as [Hs _]. rewrite Hs.
    fold (user_at now s userId).
    destruct (user_at now s userId) as [user |] eqn:Hua; cycle 1.
    { split; [done |]. by intros (? & ? & ? & _). }
    destruct body as [[h] |]; cycle 1.
    { split; [done |]. by intros (? & ? & _ & ? & _). }
    cbn [PasswordBody.masterPasswordHash].
    destruct (JS.truthy h) eqn:Ht; cbn [negb].
    + apply truthy_inv in Ht as (hash & -> & Hne). cbn [default]. unfold id.
      destruct (String.eqb_spec hash (User.masterPasswordHash user)) as [Heq | Hneq];
        cbn [negb].
      * split; [| done]. intros _. by exists user, hash.
      * split; [done |]. intros (u & h' & Hu & Hb & _ & Hh).
        injection Hu as <-. injection Hb as <-. done.
    + split; [done |]. intros (u & h' & _ & Hb & Hne & _).
      injection Hb as ->. by rewrite (truthy_Some _ Hne) in Ht.
Qed.

(** The user [handleSetKeys] builds. *)
Lemma handleSetKeys_run now body userId s e user :
  read now s (Storage.userid_key userId) = Some (VText e) → e ≠ "" →
  read now s (Storage.user_key e) = Some (VUser user) →
  JS.toLowerCase (User.email user) = JS.toLowerCase e →
  let user' :=
    User.set_updatedAt now
      ((if JS.truthy (KeysBody.publicKey body)
        then User.set_publicKey (KeysBody.publicKey body) else id)
         ((if JS.truthy (KeysBody.encryptedPrivateKey body)
           then User.set_privateKey (KeysBody.encryptedPrivateKey body) else id)
            ((if JS.truthy (KeysBody.key body)
              then User.set_key (default "" (KeysBody.key body)) else id)
               user))) in
  let r := Accounts.handleSetKeys now (Some body) userId s in
  result r = jsonResponse (ProfileJson (Accounts.profileOf user')) 200 ∧
  store_of r = store_of (Storage.saveUser now user' s) ∧
  result (Storage.getUserById now userId (store_of r)) = Some user'.
Proof.
  intros H1 He H2 H3 user' r.
  assert (Hemail : User.email user' = User.email user).
  { subst user'. by destruct (JS.truthy _), (JS.truthy _), (JS.truthy _). }
  assert (Hid : User.id user' = User.id user).
  { subst user'. by destruct (JS.truthy _), (JS.truthy _), (JS.truthy _). }
  assert (Hafter : result (Storage.getUserById now userId
                     (store_of (Storage.saveUser now user' s))) = Some user').
  { by apply (getUserById_after_saveUser now userId s e user user'). }
  assert (Hr : result r = jsonResponse (ProfileJson (Accounts.profileOf user')) 200
               ∧ store_of r = store_of (Storage.saveUser now user' s)).
  { subst r. unfold Accounts.handleSetKeys.
    rewrite bind_run, (getUserById_run _ _ _ _ _ H1 He H2).
    cbn [ret result store_of trace_of fst snd].
    assert (Hu : User.set_updatedAt now
              (if JS.truthy (KeysBody.publicKey body)
               then User.set_publicKey (KeysBody.publicKey body)
                      (if JS.truthy (KeysBody.encryptedPrivateKey body)
                       then User.set_privateKey (KeysBody.encryptedPrivateKey body)
                              (if JS.truthy (KeysBody.key body)
                               then User.set_key (default "" (KeysBody.key body)) user
                               else user)
                       else if JS.truthy (KeysBody.key body)
                            then User.set_key (default "" (KeysBody.key body)) user
                            else user)
               else if JS.truthy (KeysBody.encryptedPrivateKey body)
                    then User.set_privateKey (KeysBody.encryptedPrivateKey body)
                           (if JS.truthy (KeysBody.key body)
                            then User.set_key (default "" (KeysBody.key body)) user
                            else user)
                    else if JS.truthy (KeysBody.key body)
                         then User.set_key (default "" (KeysBody.key body)) user
                         else user) = user').
    { subst user'. by destruct (JS.truthy _), (JS.truthy _), (JS.truthy _). }
    rewrite Hu.
    rewrite bind_run. unfold Accounts.handleGetProfile. rewrite bind_run.
    cbn [ret result store_of trace_of fst snd].
    rewrite Hafter.
    cbn [ret result store_of trace_of fst snd].
    split; [done |]. apply getUserById_read_only. }
  destruct Hr as [Hres Hstore].
  split; [exact Hres |]. split; [exact Hstore | by rewrite Hstore].
Qed.

(** X29. [handleSetKeys] for a user filed under its own e-mail: the keys
    named by non-empty members of the body replace the stored ones, a
    missing or empty member leaves its key as stored, [updatedAt] becomes
    the instant of the call, and nothing else of the user changes, the
    e-mail and the master password hash in particular; the answer is the
    profile of the user as then stored. *)
Theorem handleSetKeys_sets_only_keys now body userId s e user :
  read now s (Storage.userid_key userId) = Some (VText e) → e ≠ "" →
  read now s (Storage.user_key e) = Some (VUser user) →
  JS.toLowerCase (User.email user) = JS.toLowerCase e →
  let r := Accounts.handleSetKeys now (Some body) userId s in
  let user' :=
    User.mk (User.id user) (User.email user) (User.name user)
      (User.masterPasswordHash user)
      (if JS.truthy (KeysBody.key body)
       then default "" (KeysBody.key body) else User.key user)
      (if JS.truthy (KeysBody.encryptedPrivateKey body)
       then KeysBody.encryptedPrivateKey body else User.privateKey user)
      (if JS.truthy (KeysBody.publicKey body)
       then KeysBody.publicKey body else User.publicKey user)
      (User.kdfType user) (User.kdfIterations user) (User.kdfMemory user)
      (User.kdfParallelism user) (User.securityStamp user)
      (User.createdAt user) now in
  result r = jsonResponse (ProfileJson (Accounts.profileOf user')) 200 ∧
  result (Storage.getUserById now userId (store_of r)) = Some user'.
Proof.
  intros H1 He H2 H3. cbv zeta.
  destruct (handleSetKeys_run now body userId s e user H1 He H2 H3)
    as (Hres & _ & Hget).
  cbv zeta in Hres, Hget. rewrite Hres, Hget.
  assert (Hu : ∀ u u' : User.t, u = u' →
            jsonResponse (ProfileJson (Accounts.profileOf u)) 200
              = jsonResponse (ProfileJson (Accounts.profileOf u')) 200
            ∧ Some u = Some u') by (by intros ? ? ->).
  apply Hu. destruct user.
  by destruct (JS.truthy (KeysBody.key body)),
       (JS.truthy (KeysBody.encryptedPrivateKey body)),
       (JS.truthy (KeysBody.publicKey body)).
Qed.

Lemma handleSetKeys_sets_only_keys_witness :
  let body := KeysBody.mk (Some "newkey") (Some "") None in
  let r := Accounts.handleSetKeys 2000 (Some body) "u1" sample_store in
  let user' :=
    User.mk "u1" "a@example.com" "Old" "hash" "newkey" (Some "priv") (Some "pub")
      0 600000 None None "stamp" 1000 2000 in
  result r = jsonResponse (ProfileJson (Accounts.profileOf user')) 200 ∧
  result (Storage.getUserById 2000 "u1" (store_of r)) = Some user'.
Proof.
  apply (handleSetKeys_sets_only_keys 2000
           (KeysBody.mk (Some "newkey") (Some "") None) "u1" sample_store
           "a@example.com" sample_user);
    [reflexivity | discriminate | reflexivity | reflexivity].
Defined.

(** ** Authentication and quota in the router *)

Lemma apiRateLimitGate_refused now later request userId s :
  ApiCheck.allowed
    (result (RateLimit.checkApiRateLimit now
               (userId +:+ ":" +:+ getClientIdentifier request) s)) = false →
  ∃ response,
    apiRateLimitGate now later request userId s
    = (Some response, s,
       trace_of (RateLimit.checkApiRateLimit now
                   (userId +:+ ":" +:+ getClientIdentifier request) s)) ∧
    status response = 429.
Proof.
  intros H. unfold apiRateLimitGate. cbv zeta. rewrite bind_run.
  rewrite H. cbn [negb].
  assert (Hs : store_of (RateLimit.checkApiRateLimit now
                 (userId +:+ ":" +:+ getClientIdentifier request) s) = s)
    by (by rewrite checkApiRateLimit_run).
  rewrite Hs. eexists.
  split; [cbn [ret result store_of trace_of fst snd]; by rewrite app_nil_r |].
  reflexivity.
Qed.

(** X30. The private routes are out of reach without a valid token and
    beyond the request quota. When the token check gives no user, or gives
    one whose counter for the window is at the cap, [handleRequest] does
    the same whatever the private routes are: they are not run. Unless the
    request is a preflight or matches a public route, the answer is then
    401, respectively 429, and the namespace is as the token check left
    it: the refused request is not counted. *)
Theorem private_routes_need_token_and_quota
    publicRoutes verifyAccessToken privateRoutes privateRoutes'
    now request env s :
  let v := verifyAccessToken now env (authorization request) s in
  let h := handleRequest publicRoutes verifyAccessToken privateRoutes
             now request env s in
  result v = None ∨
  (∃ userId, result v = Some userId ∧
     ApiCheck.allowed
       (result (RateLimit.checkApiRateLimit now
                  (userId +:+ ":" +:+ getClientIdentifier request)
                  (store_of v))) = false) →
  h = handleRequest publicRoutes verifyAccessToken privateRoutes'
        now request env s ∧
  (method request ≠ "OPTIONS" → publicRoutes now request env = None →
   status (result h) = match result v with Some _ => 429 | None => 401 end ∧
   store_of h = store_of v).
Proof.
  cbv zeta. intros H. unfold handleRequest.
  destruct (String.eqb_spec (method request) "OPTIONS") as [Ho | Ho].
  { split; [done |]. by intros Hm. }
  destruct (publicRoutes now request env) as [handler |].
  { split; [done |]. by intros _ Hp. }
  rewrite !bind_run.
  destruct H as [Hn | (userId & Hu & Hgate)].
  - rewrite Hn. by cbn [ret result store_of trace_of fst snd].
  - rewrite Hu. rewrite !bind_run.
    destruct (apiRateLimitGate_refused now now request userId _ Hgate)
      as (response & -> & Hstatus).
    cbn [ret result store_of trace_of fst snd]. by rewrite Hstatus.
Qed.

Lemma private_routes_need_token_and_quota_witness :
  let publicRoutes : Z → Request → Env → option (M Response) := λ _ _ _, None in
  let verifyAccessToken : Z → Env → option string → M (option string) :=
    λ _ _ _, ret None in
  let privateRoutes : Z → Request → Env → string → M Response :=
    λ now _ _ userId, Accounts.handleGetProfile now userId in
  let privateRoutes' : Z → Request → Env → string → M Response :=
    λ now _ _ userId, Ciphers.handleDeleteCipher now userId "c1" in
  let h := handleRequest publicRoutes verifyAccessToken privateRoutes
             2000 sample_request (mkEnv (Some "secret")) sample_store in
  h = handleRequest publicRoutes verifyAccessToken privateRoutes'
        2000 sample_request (mkEnv (Some "secret")) sample_store ∧
  (method sample_request ≠ "OPTIONS" →
   publicRoutes 2000 sample_request (mkEnv (Some "secret")) = None →
   status (result h) = 401 ∧ store_of h = sample_store).
Proof.
  apply (private_routes_need_token_and_quota
           (λ _ _ _, None) (λ _ _ _, ret None)
           (λ now _ _ userId, Accounts.handleGetProfile now userId)
           (λ now _ _ userId, Ciphers.handleDeleteCipher now userId "c1")
           2000 sample_request (mkEnv (Some "secret")) sample_store).
  left. reflexivity.
Defined.

(** The further handlers leave the registered flag alone, as the others
    do. *)
Lemma further_handlers_keep_registered now userId id
    (update : option UpdateBody.t) deleted
    (deleteAllAttachmentsForCipher : Z → string → M unit) :
  keeps Storage.CONFIG_REGISTERED
    (CipherHandlers.handleUpdateCipher now update userId id) ∧
  keeps Storage.CONFIG_REGISTERED
    (CipherHandlers.handleGetCiphers now deleted userId) ∧
  (keeps Storage.CONFIG_REGISTERED (deleteAllAttachmentsForCipher now id) →
   keeps Storage.CONFIG_REGISTERED
     (CipherHandlers.handlePermanentDeleteCipher deleteAllAttachmentsForCipher
        now userId id)) ∧
  keeps Storage.CONFIG_REGISTERED (Sync.handleSync now userId) ∧
  keeps Storage.CONFIG_REGISTERED (Setup.handleSetupStatus now).
Proof.
  assert (Hro : ∀ A (m : M A), read_only m → keeps Storage.CONFIG_REGISTERED m).
  { intros A m H s. by rewrite (proj1 (H s)). }
  split_and!.
  - unfold CipherHandlers.handleUpdateCipher. frame.
  - apply Hro. apply handleGetCiphers_read_only.
  - intros Hh. unfold CipherHandlers.handlePermanentDeleteCipher.
    apply keeps_bind; [frame |]. intros c.
    destruct (Ciphers.owned c userId); [| frame].
    apply keeps_bind; [done |]. intros _. frame.
  - apply Hro. apply handleSync_read_only.
  - unfold Setup.handleSetupStatus. frame.
Qed.
